(** * Payment confirmation and resource access gate: a shallow embedding

    The development follows the JavaScript sources of the backend:
    - [models/user.js]: the in-memory stores ([Db_subscriptions],
      [Db_payments], [Db_audit]);
    - [config/plans.js]: the plan catalog ([Plans]);
    - the Payoneer IPN handler that follows the payment routes in
      [routes/payment.js] ([Ipn]);
    - [middleware/auth.js] and [routes/articles.js]: the access gate ([Gate]);
    - the routes of [routes/payment.js] and [routes/articles.js] that only
      read ([Routes]), the list of articles ([Articles]) and the checkout
      route in full ([Checkout]);
    - [routes/auth.js]: the validators ([Validators]) and the routes for
      sign-up, login, logout and the current user ([Auth]), over the users of
      [models/user.js] ([Db_users]);
    - [server.js]: the check of the environment at startup ([Server]).

    Library functions the handlers call are modelled first: HMAC-SHA256 of
    Node's [crypto] ([Sha256]); [parseFloat], multiplication and
    [Math.round] on IEEE binary64 numbers ([JsNumber]); the insertion-ordered
    [Map] ([JsMap]); regular expressions on UTF-16 code units ([Utf16],
    [RegExp]), [trim] ([JsString]), [sort] and [slice] ([JsArray]).

    Conventions.  A JavaScript string is held as the bytes of its UTF-8
    encoding.  A property that may be [undefined] is an [option].  The body
    of a notification is a flat form: every field holds a string.  A handler
    runs to its end before the next request is served: the stores are in
    memory and no [await] of a handler waits for input or output.  Output
    to [console] is not modelled. *)

From Stdlib Require Import ZArith List String Ascii Bool Lia.
From Stdlib Require Import Sorted Permutation.
From Stdlib Require Import DecimalString.
From Corelib Require Import SpecFloat.
Import ListNotations.
Local Open Scope string_scope.
Local Open Scope list_scope.
Local Open Scope Z_scope.

(** ** Byte strings *)

Definition bytes_of_string (s : string) : list Z :=
  map (fun c => Z.of_N (N_of_ascii c)) (list_ascii_of_string s).

Definition string_of_bytes (l : list Z) : string :=
  string_of_list_ascii (map (fun b => ascii_of_N (Z.to_N b)) l).

Definition hex_digit (n : Z) : ascii :=
  if n <? 10 then ascii_of_N (Z.to_N (48 + n)) else ascii_of_N (Z.to_N (87 + n)).

Fixpoint hex_of_bytes (l : list Z) : string :=
  match l with
  | [] => EmptyString
  | b :: l' => String (hex_digit (Z.shiftr b 4)) (String (hex_digit (Z.land b 15)) (hex_of_bytes l'))
  end.

(** The double quote character, as a string. *)
Definition quote : string := String (ascii_of_nat 34) "".

(** ** SHA-256 and HMAC (FIPS 180-4, RFC 2104)

    [crypto.createHmac('sha256', secret).update(data).digest('hex')]. *)

Module Sha256.

Definition mask32 : Z := Z.ones 32.
Definition add32 (x y : Z) : Z := Z.land (x + y) mask32.
Definition ROTR (n x : Z) : Z :=
  Z.lor (Z.shiftr x n) (Z.land (Z.shiftl x (32 - n)) mask32).
Definition Ch (x y z : Z) : Z :=
  Z.lxor (Z.land x y) (Z.land (Z.lxor x mask32) z).
Definition Maj (x y z : Z) : Z :=
  Z.lxor (Z.lxor (Z.land x y) (Z.land x z)) (Z.land y z).
Definition Sigma0 x := Z.lxor (Z.lxor (ROTR 2 x) (ROTR 13 x)) (ROTR 22 x).
Definition Sigma1 x := Z.lxor (Z.lxor (ROTR 6 x) (ROTR 11 x)) (ROTR 25 x).
Definition sigma0 x := Z.lxor (Z.lxor (ROTR 7 x) (ROTR 18 x)) (Z.shiftr x 3).
Definition sigma1 x := Z.lxor (Z.lxor (ROTR 17 x) (ROTR 19 x)) (Z.shiftr x 10).

(** The round constants are the first 32 bits of the fractional parts of
    the cube roots of the first 64 primes, the initial hash value those of
    the square roots of the first 8 primes. *)

Definition primes64 : list Z :=
  [2; 3; 5; 7; 11; 13; 17; 19; 23; 29; 31; 37; 41; 43; 47; 53;
   59; 61; 67; 71; 73; 79; 83; 89; 97; 101; 103; 107; 109; 113; 127; 131;
   137; 139; 149; 151; 157; 163; 167; 173; 179; 181; 191; 193; 197; 199; 211; 223;
   227; 229; 233; 239; 241; 251; 257; 263; 269; 271; 277; 281; 283; 293; 307; 311].

(** Integer cube root by bisection on the bits of the result. *)
Fixpoint cbrt_bits (bits : nat) (n acc : Z) : Z :=
  match bits with
  | O => acc
  | S k =>
      let cand := acc + Z.shiftl 1 (Z.of_nat k) in
      cbrt_bits k n (if cand * cand * cand <=? n then cand else acc)
  end.

Definition frac_cbrt32 (p : Z) : Z := Z.land (cbrt_bits 40 (Z.shiftl p 96) 0) mask32.
Definition frac_sqrt32 (p : Z) : Z := Z.land (Z.sqrt (Z.shiftl p 64)) mask32.

Definition K : list Z := Eval vm_compute in map frac_cbrt32 primes64.

Record state := St { sa : Z; sb : Z; sc : Z; sd : Z; se : Z; sf : Z; sg : Z; sh : Z }.

Definition H0 : state := Eval vm_compute in
  match map frac_sqrt32 (firstn 8 primes64) with
  | [a; b; c; d; e; f; g; h] => St a b c d e f g h
  | _ => St 0 0 0 0 0 0 0 0
  end.

(** Message schedule: [w] holds the sixteen most recent words, oldest first. *)
Fixpoint schedule (n : nat) (w : list Z) : list Z :=
  match n with
  | O => []
  | S n' =>
      let wt := add32 (add32 (sigma1 (nth 14 w 0)) (nth 9 w 0))
                      (add32 (sigma0 (nth 1 w 0)) (nth 0 w 0)) in
      wt :: schedule n' (tl w ++ [wt])
  end.

Definition round (s : state) (kw : Z * Z) : state :=
  let '(k, w) := kw in
  let t1 := add32 (add32 (add32 (sh s) (Sigma1 (se s))) (Ch (se s) (sf s) (sg s))) (add32 k w) in
  let t2 := add32 (Sigma0 (sa s)) (Maj (sa s) (sb s) (sc s)) in
  St (add32 t1 t2) (sa s) (sb s) (sc s) (add32 (sd s) t1) (se s) (sf s) (sg s).

Definition compress (s : state) (block : list Z) : state :=
  let w := block ++ schedule 48 block in
  let r := fold_left round (combine K w) s in
  St (add32 (sa s) (sa r)) (add32 (sb s) (sb r)) (add32 (sc s) (sc r)) (add32 (sd s) (sd r))
     (add32 (se s) (se r)) (add32 (sf s) (sf r)) (add32 (sg s) (sg r)) (add32 (sh s) (sh r)).

(** Big-endian bytes of a word of [n] bytes. *)
Fixpoint be_bytes (n : nat) (x : Z) : list Z :=
  match n with
  | O => []
  | S k => Z.land (Z.shiftr x (8 * Z.of_nat k)) 255 :: be_bytes k x
  end.

Fixpoint be_words (l : list Z) : list Z :=
  match l with
  | b0 :: b1 :: b2 :: b3 :: l' =>
      (Z.shiftl b0 24 + Z.shiftl b1 16 + Z.shiftl b2 8 + b3) :: be_words l'
  | _ => []
  end.

Definition pad (msg : list Z) : list Z :=
  let len := Z.of_nat (List.length msg) in
  let zeros := Z.to_nat ((55 - len) mod 64) in
  msg ++ [128] ++ repeat 0 zeros ++ be_bytes 8 (8 * len).

Fixpoint blocks (fuel : nat) (s : state) (l : list Z) : state :=
  match fuel, l with
  | S k, _ :: _ => blocks k (compress s (be_words (firstn 64 l))) (skipn 64 l)
  | _, _ => s
  end.

Definition digest_bytes (s : state) : list Z :=
  be_bytes 4 (sa s) ++ be_bytes 4 (sb s) ++ be_bytes 4 (sc s) ++ be_bytes 4 (sd s) ++
  be_bytes 4 (se s) ++ be_bytes 4 (sf s) ++ be_bytes 4 (sg s) ++ be_bytes 4 (sh s).

Definition sha256 (msg : list Z) : list Z :=
  let p := pad msg in digest_bytes (blocks (List.length p) H0 p).

Definition hmac (key msg : list Z) : list Z :=
  let k0 := if (64 <? Z.of_nat (List.length key)) then sha256 key else key in
  let k := k0 ++ repeat 0 (64 - List.length k0) in
  sha256 (map (Z.lxor 92) k ++ sha256 (map (Z.lxor 54) k ++ msg)).

Definition hmac_hex (key data : string) : string :=
  hex_of_bytes (hmac (bytes_of_string key) (bytes_of_string data)).

End Sha256.

Arguments Sha256.hmac_hex : simpl never.
Arguments Sha256.sha256 : simpl never.

(** ** JavaScript numbers

    IEEE 754 binary64 values, computed with the reference operations of
    [SpecFloat] (round to nearest, ties to even). *)

Module JsNumber.

Definition number := spec_float.
Definition prec : Z := 53.
Definition emax : Z := 1024.

Definition NaN : number := S754_nan.
Definition of_Z (z : Z) : number := binary_normalize prec emax z 0 false.
Definition mul : number -> number -> number := SFmul prec emax.
Definition sub : number -> number -> number := SFsub prec emax.
Definition abs : number -> number := SFabs.
Definition leb : number -> number -> bool := SFleb.
(** [x === y] on numbers: false on NaN, true on zeros of either sign. *)
Definition strict_eq : number -> number -> bool := SFeqb.

(** The double nearest to [(-1)^neg * m * 10^e10], for [0 <= m]. *)
Definition of_decimal (neg : bool) (m e10 : Z) : number :=
  if m =? 0 then S754_zero neg
  else if 0 <=? e10 then
    binary_normalize prec emax (cond_Zopp neg (m * 10 ^ e10)) 0 neg
  else
    let '(q, e, l) := SFdiv_core_binary prec emax m 0 (10 ^ (- e10)) 0 in
    binary_round_aux prec emax neg q e l.

(** [Math.round]: the nearest integer, ties towards +Infinity; NaN, zeros
    and infinities are returned as they are, and a result of zero keeps
    the sign of the argument. *)
Definition Math_round (x : number) : number :=
  match x with
  | S754_finite s m e =>
      if 0 <=? e then x
      else
        let n := (2 * cond_Zopp s (Zpos m) + 2 ^ (- e)) / 2 ^ (- e + 1) in
        if n =? 0 then S754_zero s else binary_normalize prec emax n 0 false
  | _ => x
  end.

(** *** [parseFloat]

    Leading white space is skipped, then the longest prefix that is a
    StrDecimalLiteral is converted; NaN when there is none. *)

Definition digit_of (c : ascii) : option Z :=
  let n := Z.of_N (N_of_ascii c) in
  if (48 <=? n) && (n <=? 57) then Some (n - 48) else None.

(** The decimal digits at the head of [l], and what follows them. *)
Fixpoint span_digits (l : list ascii) : list Z * list ascii :=
  match l with
  | c :: l' =>
      match digit_of c with
      | Some d => let '(ds, r) := span_digits l' in (d :: ds, r)
      | None => ([], l)
      end
  | [] => ([], [])
  end.

Definition decimal_value (ds : list Z) : Z :=
  fold_left (fun acc d => 10 * acc + d) ds 0.

(** WhiteSpace and LineTerminator code points, in UTF-8. *)
Fixpoint skip_white (fuel : nat) (l : list Z) : list Z :=
  match fuel with
  | O => l
  | S k =>
      match l with
      | 194 :: 160 :: r => skip_white k r
      | 225 :: 154 :: 128 :: r => skip_white k r
      | 226 :: 128 :: c :: r =>
          if ((128 <=? c) && (c <=? 138)) || (c =? 168) || (c =? 169) || (c =? 175)
          then skip_white k r else l
      | 226 :: 129 :: 159 :: r => skip_white k r
      | 227 :: 128 :: 128 :: r => skip_white k r
      | 239 :: 187 :: 191 :: r => skip_white k r
      | c :: r =>
          if ((9 <=? c) && (c <=? 13)) || (c =? 32) then skip_white k r else l
      | [] => l
      end
  end.

Definition exponent_part (l : list ascii) : Z :=
  match l with
  | c :: r =>
      if (Ascii.eqb c "e" || Ascii.eqb c "E")%char then
        let '(neg, r') :=
          match r with
          | s :: r'' =>
              if Ascii.eqb s "-" then (true, r'')
              else if Ascii.eqb s "+" then (false, r'') else (false, r)
          | [] => (false, r)
          end in
        cond_Zopp neg (decimal_value (fst (span_digits r')))
      else 0
  | [] => 0
  end.

Definition is_prefix (p : string) (l : list ascii) : bool :=
  String.eqb p (string_of_list_ascii (firstn (String.length p) l)).

Definition unsigned_literal (neg : bool) (l : list ascii) : number :=
  if is_prefix "Infinity" l then S754_infinity neg
  else
    let '(ip, r) := span_digits l in
    let '(fp, r') :=
      match r with
      | c :: r1 => if Ascii.eqb c "." then span_digits r1 else ([], r)
      | [] => ([], r)
      end in
    match ip ++ fp with
    | [] => NaN
    | ds => of_decimal neg (decimal_value ds) (exponent_part r' - Z.of_nat (List.length fp))
    end.

Definition parseFloat (s : string) : number :=
  let b := skip_white (String.length s) (bytes_of_string s) in
  match list_ascii_of_string (string_of_bytes b) with
  | c :: r =>
      if Ascii.eqb c "-" then unsigned_literal true r
      else if Ascii.eqb c "+" then unsigned_literal false r
      else unsigned_literal false (c :: r)
  | [] => NaN
  end.

End JsNumber.

Arguments JsNumber.parseFloat : simpl never.
Arguments JsNumber.Math_round : simpl never.
Arguments JsNumber.of_Z : simpl never.
Arguments JsNumber.mul : simpl never.
Arguments JsNumber.strict_eq : simpl never.

(** ** UTF-16 code units

    [length], [trim] and regular expressions work on the UTF-16 code units
    of a string. *)

Module Utf16.

(** The code units of a code point. *)
Definition of_code_point (cp : Z) : list Z :=
  if cp <? 65536 then [cp]
  else [55296 + Z.shiftr (cp - 65536) 10; 56320 + Z.land (cp - 65536) 1023].

Definition continuation (b : Z) : Z := Z.land b 63.

(** The code units of the string that a well-formed UTF-8 byte sequence
    encodes; a sequence that is cut short gives U+FFFD. *)
Fixpoint decode (l : list Z) : list Z :=
  match l with
  | [] => []
  | b0 :: r0 =>
      if b0 <? 128 then b0 :: decode r0
      else
        match r0 with
        | [] => [65533]
        | b1 :: r1 =>
            if b0 <? 224 then
              (Z.shiftl (Z.land b0 31) 6 + continuation b1) :: decode r1
            else
              match r1 with
              | [] => [65533]
              | b2 :: r2 =>
                  if b0 <? 240 then
                    (Z.shiftl (Z.land b0 15) 12 + Z.shiftl (continuation b1) 6
                     + continuation b2) :: decode r2
                  else
                    match r2 with
                    | [] => [65533]
                    | b3 :: r3 =>
                        of_code_point
                          (Z.shiftl (Z.land b0 7) 18 + Z.shiftl (continuation b1) 12
                           + Z.shiftl (continuation b2) 6 + continuation b3)
                        ++ decode r3
                    end
              end
        end
  end.

Definition units (s : string) : list Z := decode (bytes_of_string s).

(** [s.length] *)
Definition length (s : string) : nat := List.length (units s).

End Utf16.

(** ** Regular expressions

    The patterns of the sources, matched with backtracking: [rests r s]
    lists what can follow a match of [r] at the start of [s], the
    alternatives in the order a matcher tries them. *)

Module RegExp.

Inductive t :=
| Class (c : Z -> bool)
| Seq (r1 r2 : t)
| Repeat (c : Z -> bool) (min : nat)
| Lookahead (r : t).

(** [[c]{min,}], greedy. *)
Fixpoint repeats (c : Z -> bool) (min : nat) (s : list Z) : list (list Z) :=
  match s with
  | x :: s' =>
      (if c x then repeats c (Nat.pred min) s' else [])
      ++ (if Nat.eqb min 0 then [s] else [])
  | [] => if Nat.eqb min 0 then [[]] else []
  end.

Fixpoint rests (r : t) (s : list Z) : list (list Z) :=
  match r with
  | Class c =>
      match s with
      | x :: s' => if c x then [s'] else []
      | [] => []
      end
  | Seq r1 r2 => flat_map (rests r2) (rests r1 s)
  | Repeat c min => repeats c min s
  | Lookahead r' =>
      match rests r' s with
      | [] => []
      | _ :: _ => [s]
      end
  end.

(** [/^r$/.test(str)] *)
Definition test (r : t) (str : string) : bool :=
  existsb (fun rest => match rest with [] => true | _ :: _ => false end)
          (rests r (Utf16.units str)).

Definition char (c : Z) : Z -> bool := fun x => x =? c.
Definition range (lo hi : Z) : Z -> bool := fun x => (lo <=? x) && (x <=? hi).

(** [\d] *)
Definition digit : Z -> bool := range 48 57.

(** LineTerminator *)
Definition line_terminator (x : Z) : bool :=
  (x =? 10) || (x =? 13) || (x =? 8232) || (x =? 8233).

(** [.] *)
Definition any (x : Z) : bool := negb (line_terminator x).

(** [\s]: WhiteSpace and LineTerminator *)
Definition white (x : Z) : bool :=
  range 9 13 x || (x =? 32) || (x =? 160) || (x =? 5760) || range 8192 8202 x
  || (x =? 8232) || (x =? 8233) || (x =? 8239) || (x =? 8287) || (x =? 12288)
  || (x =? 65279).

End RegExp.

(** ** [String.prototype.trim]

    A string is cut into its characters, each one the bytes of one code
    point; white space is taken off both ends. *)

Module JsString.

Fixpoint chars (l : list Z) : list (list Z) :=
  match l with
  | [] => []
  | b0 :: r0 =>
      if b0 <? 128 then [b0] :: chars r0
      else
        match r0 with
        | [] => [[b0]]
        | b1 :: r1 =>
            if b0 <? 224 then [b0; b1] :: chars r1
            else
              match r1 with
              | [] => [[b0; b1]]
              | b2 :: r2 =>
                  if b0 <? 240 then [b0; b1; b2] :: chars r2
                  else
                    match r2 with
                    | [] => [[b0; b1; b2]]
                    | b3 :: r3 => [b0; b1; b2; b3] :: chars r3
                    end
              end
        end
  end.

(** WhiteSpace or LineTerminator. *)
Definition white (char : list Z) : bool :=
  match Utf16.decode char with
  | [u] => RegExp.white u
  | _ => false
  end.

Fixpoint trimStart (l : list (list Z)) : list (list Z) :=
  match l with
  | [] => []
  | c :: rest => if white c then trimStart rest else l
  end.

Definition trim (s : string) : string :=
  string_of_bytes
    (List.concat (rev (trimStart (rev (trimStart (chars (bytes_of_string s))))))).

End JsString.

(** ** routes/auth.js: the validators *)

Module Validators.

Definition PASSWORD_MIN_LENGTH : nat := 12.

Definition lower : Z -> bool := RegExp.range 97 122.
Definition upper : Z -> bool := RegExp.range 65 90.

(** [[@$!%*?&]] *)
Definition special (x : Z) : bool :=
  existsb (Z.eqb x) [64; 36; 33; 37; 42; 63; 38].

(** [[A-Za-z\d@$!%*?&]] *)
Definition allowed (x : Z) : bool := upper x || lower x || RegExp.digit x || special x.

(** [(?=.*[c])] *)
Definition somewhere (c : Z -> bool) : RegExp.t :=
  RegExp.Lookahead (RegExp.Seq (RegExp.Repeat RegExp.any 0) (RegExp.Class c)).

(** [/^(?=.*[a-z])(?=.*[A-Z])(?=.*\d)(?=.*[@$!%*?&])[A-Za-z\d@$!%*?&]{12,}$/] *)
Definition PASSWORD_REGEX : RegExp.t :=
  RegExp.Seq (somewhere lower)
    (RegExp.Seq (somewhere upper)
       (RegExp.Seq (somewhere RegExp.digit)
          (RegExp.Seq (somewhere special) (RegExp.Repeat allowed 12)))).

Inductive validation :=
| Valid
| Invalid (error : string).

Definition validatePassword (password : string) : validation :=
  if Nat.ltb (Utf16.length password) PASSWORD_MIN_LENGTH then
    Invalid "Password must be at least 12 characters"
  else if negb (RegExp.test PASSWORD_REGEX password) then
    Invalid "Password must contain uppercase, lowercase, number, and special character (@$!%*?&)"
  else Valid.

(** [[^\s@]] *)
Definition email_char (x : Z) : bool := negb (RegExp.white x || (x =? 64)).

(** [/^[^\s@]+@[^\s@]+\.[^\s@]+$/] *)
Definition emailRegex : RegExp.t :=
  RegExp.Seq (RegExp.Repeat email_char 1)
    (RegExp.Seq (RegExp.Class (RegExp.char 64))
       (RegExp.Seq (RegExp.Repeat email_char 1)
          (RegExp.Seq (RegExp.Class (RegExp.char 46)) (RegExp.Repeat email_char 1)))).

Definition validateEmail (email : string) : bool := RegExp.test emailRegex email.

End Validators.

(** ** The insertion-ordered [Map]

    [Map.prototype.set] replaces the value of a key that is present, at the
    position the key already has, and appends a new key at the end;
    [values()] iterates in that order. *)

Module JsMap.

Definition t (V : Type) := list (string * V).

Fixpoint get {V} (k : string) (m : t V) : option V :=
  match m with
  | [] => None
  | (k', v) :: m' => if String.eqb k k' then Some v else get k m'
  end.

Fixpoint set {V} (k : string) (v : V) (m : t V) : t V :=
  match m with
  | [] => [(k, v)]
  | (k', v') :: m' =>
      if String.eqb k k' then (k, v) :: m' else (k', v') :: set k v m'
  end.

Definition keys {V} (m : t V) : list string := map fst m.
Definition values {V} (m : t V) : list V := map snd m.

End JsMap.

(** ** Arrays

    [Array.prototype.sort] with a comparator and [Array.prototype.slice]
    from index 0. *)

Module JsArray.

(** [x] goes in front of the first element it does not come after. *)
Fixpoint insert {A} (comparefn : A -> A -> Z) (x : A) (sorted : list A) : list A :=
  match sorted with
  | [] => [x]
  | y :: rest =>
      if comparefn x y <=? 0 then x :: sorted else y :: insert comparefn x rest
  end.

(** The sort is stable: elements that compare equal keep their order.
    [comparefn a b] is negative when [a] comes first. *)
Fixpoint sort {A} (comparefn : A -> A -> Z) (l : list A) : list A :=
  match l with
  | [] => []
  | x :: rest => insert comparefn x (sort comparefn rest)
  end.

(** [l.slice(0, end)] for an integer [end]; a negative one counts from
    the end of the array. *)
Definition slice0 {A} (l : list A) (end_ : Z) : list A :=
  let len := Z.of_nat (List.length l) in
  let final := if end_ <? 0 then Z.max (len + end_) 0 else Z.min end_ len in
  firstn (Z.to_nat final) l.

End JsArray.

(** ** Values stored in audit details and response bodies *)

Inductive Val :=
| VUndefined
| VBool (b : bool)
| VString (s : string)
| VNumber (n : JsNumber.number)
| VDate (ms : Z).

Definition of_field (o : option string) : Val :=
  match o with
  | None => VUndefined
  | Some s => VString s
  end.

(** ToBoolean. *)
Definition truthy (v : Val) : bool :=
  match v with
  | VUndefined => false
  | VBool b => b
  | VString s => negb (String.eqb s "")
  | VNumber n =>
      match n with
      | S754_zero _ | S754_nan => false
      | _ => true
      end
  | VDate _ => true
  end.

(** A string-valued property that may be [undefined]: [Some s] when it is
    truthy, that is present and not the empty string. *)
Definition required (o : option string) : option string :=
  match o with
  | Some s => if String.eqb s "" then None else Some s
  | None => None
  end.

Definition Obj := list (string * Val).

Fixpoint prop (k : string) (o : Obj) : Val :=
  match o with
  | [] => VUndefined
  | (k', v) :: o' => if String.eqb k k' then v else prop k o'
  end.

(** ** models/user.js: the records *)

Module Subscription.
Record t := mk {
  id : string;
  user_id : string;
  plan_id : string;
  stripe_subscription_id : option string;
  status : string;
  expires_at : Z;
  created_at : Z;
  updated_at : Z
}.
Definition with_status (s : t) (st : string) (now : Z) : t :=
  mk (id s) (user_id s) (plan_id s) (stripe_subscription_id s) st
     (expires_at s) (created_at s) now.
End Subscription.

Module Payment.
Record t := mk {
  id : string;
  user_id : string;
  plan_id : string;
  stripe_payment_intent_id : string;
  amount : Val;
  status : string;
  created_at : Z;
  updated_at : Z
}.
Definition with_status (p : t) (st : string) (now : Z) : t :=
  mk (id p) (user_id p) (plan_id p) (stripe_payment_intent_id p) (amount p) st
     (created_at p) now.
End Payment.

Module AuditEntry.
Record t := mk {
  id : string;
  user_id : option string;
  action : string;
  details : Obj;
  ip : Val;
  timestamp : Z
}.
End AuditEntry.

(** The three module-level stores [subscriptions], [payments] and
    [auditLog].  (The [users] map is only touched by the login routes.) *)
Record Db := mkDb {
  subscriptions : JsMap.t Subscription.t;
  payments : JsMap.t Payment.t;
  auditLog : list AuditEntry.t
}.

(** ** The effects of a request

    What a request reads from outside the stores: the successive results of
    [new Date()] (milliseconds) and of
    [Math.random().toString(36).substring(7)], the time zone of the process,
    the environment variable holding the IPN secret, and the files on disk
    with their sizes.

    [LocalTZA t isUTC] is the offset of local time from UTC in milliseconds,
    as ECMAScript defines it: at the UTC time [t] when [isUTC] is [true], at
    the local time [t] otherwise. *)
Record Env := mkEnv {
  clock : nat -> Z;
  random : nat -> string;
  LocalTZA : Z -> bool -> Z;
  PAYONEER_IPN_SECRET : option string;
  PDF_DIR : string;
  file_size : string -> option Z
}.

(** The state threaded through a request: the stores, how many readings of
    the clock and of the random source were taken, and a record of the
    functions entered, in order (instrumentation, most recent last). *)
Record World := mkWorld {
  db : Db;
  clock_reads : nat;
  random_draws : nat;
  calls : list string
}.

Definition M (A : Type) : Type := Env -> World -> A * World.

Definition ret {A} (a : A) : M A := fun _ w => (a, w).
Definition bind {A B} (m : M A) (f : A -> M B) : M B :=
  fun e w => let '(a, w') := m e w in f a e w'.

Notation "x <- m ;; k" := (bind m (fun x => k))
  (at level 61, m at next level, right associativity).
Notation "m ;;; k" := (bind m (fun _ => k))
  (at level 61, right associativity).

Definition env : M Env := fun e w => (e, w).
Definition get_db : M Db := fun _ w => (db w, w).
Definition put_db (d : Db) : M unit :=
  fun _ w => (tt, mkWorld d (clock_reads w) (random_draws w) (calls w)).
Definition enter (name : string) : M unit :=
  fun _ w => (tt, mkWorld (db w) (clock_reads w) (random_draws w) (calls w ++ [name])).

(** [new Date()] *)
Definition new_Date : M Z :=
  fun e w => (clock e (clock_reads w),
              mkWorld (db w) (S (clock_reads w)) (random_draws w) (calls w)).

(** [Math.random().toString(36).substring(7)] *)
Definition random_id : M string :=
  fun e w => (random e (random_draws w),
              mkWorld (db w) (clock_reads w) (S (random_draws w)) (calls w)).

(** ** models/user.js: the operations *)

Module Db_subscriptions.

Definition create (userId planId : string) (stripeSubscriptionId : option string)
    (expiresAt : Z) : M Subscription.t :=
  enter "db.subscriptions.create" ;;;
  id <- random_id ;;
  created <- new_Date ;;
  updated <- new_Date ;;
  let subscription :=
    Subscription.mk id userId planId stripeSubscriptionId "active" expiresAt created updated in
  d <- get_db ;;
  put_db (mkDb (JsMap.set id subscription (subscriptions d)) (payments d) (auditLog d)) ;;;
  ret subscription.

Definition findByUserId (userId : option string) : M (list Subscription.t) :=
  enter "db.subscriptions.findByUserId" ;;;
  d <- get_db ;;
  ret (filter (fun sub =>
                 match userId with
                 | Some u => String.eqb (Subscription.user_id sub) u
                 | None => false
                 end)
              (JsMap.values (subscriptions d))).

(** The filter callback reads the clock for each record whose status is
    ['active'] ([&&] does not evaluate its right operand otherwise). *)
Fixpoint filter_active (subs : list Subscription.t) : M (list Subscription.t) :=
  match subs with
  | [] => ret []
  | sub :: rest =>
      keep <- (if String.eqb (Subscription.status sub) "active"
               then now <- new_Date ;; ret (now <? Subscription.expires_at sub)
               else ret false) ;;
      rest' <- filter_active rest ;;
      ret (if keep then sub :: rest' else rest')
  end.

Definition findActiveByUserId (userId : option string) : M (list Subscription.t) :=
  enter "db.subscriptions.findActiveByUserId" ;;;
  subs <- findByUserId userId ;;
  filter_active subs.

(** The record is mutated in place: in the map, the value under its key is
    replaced where it stands. *)
Definition updateStatus (subscriptionId status : string) : M (option Subscription.t) :=
  enter "db.subscriptions.updateStatus" ;;;
  d <- get_db ;;
  match JsMap.get subscriptionId (subscriptions d) with
  | Some sub =>
      now <- new_Date ;;
      let sub' := Subscription.with_status sub status now in
      put_db (mkDb (JsMap.set subscriptionId sub' (subscriptions d)) (payments d) (auditLog d)) ;;;
      ret (Some sub')
  | None => ret None
  end.

(** Both sides of [===] may be [undefined]: a record created from a
    notification without token holds [undefined]. *)
Definition findByStripeId (stripeSubscriptionId : option string)
    : M (option Subscription.t) :=
  enter "db.subscriptions.findByStripeId" ;;;
  d <- get_db ;;
  ret (find (fun sub =>
               match Subscription.stripe_subscription_id sub, stripeSubscriptionId with
               | Some a, Some b => String.eqb a b
               | None, None => true
               | _, _ => false
               end)
            (JsMap.values (subscriptions d))).

End Db_subscriptions.

Module Db_payments.

Definition create (userId planId stripePaymentIntentId : string) (amount : Val)
    : M Payment.t :=
  enter "db.payments.create" ;;;
  id <- random_id ;;
  created <- new_Date ;;
  updated <- new_Date ;;
  let payment :=
    Payment.mk id userId planId stripePaymentIntentId amount "pending" created updated in
  d <- get_db ;;
  put_db (mkDb (subscriptions d) (JsMap.set id payment (payments d)) (auditLog d)) ;;;
  ret payment.

(** The stored identifier is always a string, so an [undefined] argument
    is strictly equal to none of them. *)
Definition findByStripeId (stripePaymentIntentId : option string) : M (option Payment.t) :=
  enter "db.payments.findByStripeId" ;;;
  d <- get_db ;;
  ret (find (fun payment =>
               match stripePaymentIntentId with
               | Some tok => String.eqb (Payment.stripe_payment_intent_id payment) tok
               | None => false
               end)
            (JsMap.values (payments d))).

Definition updateStatus (paymentId status : string) : M (option Payment.t) :=
  enter "db.payments.updateStatus" ;;;
  d <- get_db ;;
  match JsMap.get paymentId (payments d) with
  | Some payment =>
      now <- new_Date ;;
      let payment' := Payment.with_status payment status now in
      put_db (mkDb (subscriptions d) (JsMap.set paymentId payment' (payments d)) (auditLog d)) ;;;
      ret (Some payment')
  | None => ret None
  end.

(** [b.created_at - a.created_at], in milliseconds. *)
Definition newest_first (a b : Payment.t) : Z := Payment.created_at b - Payment.created_at a.

Definition findByUserId (userId : option string) : M (list Payment.t) :=
  enter "db.payments.findByUserId" ;;;
  d <- get_db ;;
  let userPayments :=
    filter (fun payment =>
              match userId with
              | Some u => String.eqb (Payment.user_id payment) u
              | None => false
              end)
           (JsMap.values (payments d)) in
  ret (JsArray.sort newest_first userPayments).

End Db_payments.

Module Db_audit.

Definition log (userId : option string) (action : string) (details : Obj) : M unit :=
  enter "db.audit.log" ;;;
  id <- random_id ;;
  let ip := if truthy (prop "ip" details) then prop "ip" details else VString "unknown" in
  timestamp <- new_Date ;;
  d <- get_db ;;
  put_db (mkDb (subscriptions d) (payments d)
               (auditLog d ++ [AuditEntry.mk id userId action details ip timestamp])).

(** [log.user_id === userId], where both may be [undefined]. *)
Definition same_user (a b : option string) : bool :=
  match a, b with
  | Some x, Some y => String.eqb x y
  | None, None => true
  | _, _ => false
  end.

(** [limit] is [None] when the argument is left out, and an integer
    otherwise. *)
Definition getByUserId (userId : option string) (limit : option Z) : M (list AuditEntry.t) :=
  enter "db.audit.getByUserId" ;;;
  d <- get_db ;;
  let limit := match limit with Some n => n | None => 50 end in
  ret (JsArray.slice0
         (rev (filter (fun log => same_user (AuditEntry.user_id log) userId) (auditLog d)))
         limit).

End Db_audit.

(** ** config/plans.js *)

Module Plans.

Record Plan := mkPlan {
  id : string;
  name : string;
  description : string;
  price : Z;
  currency : string;
  articles_limit : Z;
  duration_days : Z;
  features : list string
}.

Definition SUBSCRIPTION_PLANS : list (string * Plan) :=
  [ ("starter",
     mkPlan "starter" "Starter" "10 articles per month" 9800 "usd" 10 30
       ["10 articles per month"; "Access to text articles"; "Email support"]);
    ("professional",
     mkPlan "professional" "Professional" "50 articles per month" 49800 "usd" 50 30
       ["50 articles per month"; "Access to all article types (text, image, PDF)";
        "Priority email support"; "Downloadable PDFs"]);
    ("unlimited",
     mkPlan "unlimited" "Unlimited Annual" "Unlimited articles for 1 year" 99800 "usd" (-1) 365
       ["Unlimited articles"; "All article types"; "Priority phone & email support";
        "Early access to new articles"; "Batch downloads"; "API access"]) ].

(** [SUBSCRIPTION_PLANS] is an object literal, so a property read also
    finds the members it inherits from [Object.prototype]: functions and
    objects, all truthy, none with a [price]. *)
Definition Object_prototype_members : list string :=
  ["constructor"; "__proto__"; "hasOwnProperty"; "isPrototypeOf";
   "propertyIsEnumerable"; "toLocaleString"; "toString"; "valueOf";
   "__defineGetter__"; "__defineSetter__"; "__lookupGetter__"; "__lookupSetter__"].

(** The value of [SUBSCRIPTION_PLANS[planId] || null]. *)
Inductive lookup :=
| Own (plan : Plan)
| Inherited
| Null.

Definition getPlan (planId : string) : lookup :=
  match JsMap.get planId SUBSCRIPTION_PLANS with
  | Some plan => Own plan
  | None =>
      if existsb (String.eqb planId) Object_prototype_members then Inherited else Null
  end.

(** [plan.price] for a truthy [plan]. *)
Definition price_of (plan : lookup) : Val :=
  match plan with
  | Own p => VNumber (JsNumber.of_Z (price p))
  | _ => VUndefined
  end.

(** [Math.abs(plan.price - amountCents) <= 1]; on an inherited member
    [plan.price] is [undefined] and the difference NaN. *)
Definition validatePlanPrice (planId : string) (amountCents : JsNumber.number) : bool :=
  match getPlan planId with
  | Null => false
  | Inherited => false
  | Own plan =>
      JsNumber.leb (JsNumber.abs (JsNumber.sub (JsNumber.of_Z (price plan)) amountCents))
                   (JsNumber.of_Z 1)
  end.

(** The object [getPublicPlans] builds from a plan: every field but
    [articles_limit]. *)
Record PublicPlan := mkPublicPlan {
  public_id : string;
  public_name : string;
  public_description : string;
  public_price : Z;
  public_currency : string;
  public_features : list string;
  public_duration_days : Z
}.

Definition publish (plan : Plan) : PublicPlan :=
  mkPublicPlan (id plan) (name plan) (description plan) (price plan) (currency plan)
    (features plan) (duration_days plan).

(** [Object.values] lists the own properties in insertion order. *)
Definition getPublicPlans : list PublicPlan :=
  map (fun entry => publish (snd entry)) SUBSCRIPTION_PLANS.

(** [plan?.name]: the inherited members are functions, whose [name] is the
    name of the property (of [constructor], ['Object']), but for
    [__proto__], an object without [name]. *)
Definition name_of (planId : string) (plan : lookup) : option string :=
  match plan with
  | Own p => Some (name p)
  | Inherited =>
      if String.eqb planId "__proto__" then None
      else if String.eqb planId "constructor" then Some "Object"
      else Some planId
  | Null => None
  end.

End Plans.

(** ** HTTP responses *)

Inductive Response :=
| Json (code : Z) (body : Obj)
| SendFile (headers : Obj) (filepath : string).

Definition status_of (r : Response) : Z :=
  match r with
  | Json code _ => code
  | SendFile _ _ => 200
  end.

(** ** routes/payment.js: the Payoneer IPN handler *)

Module Ipn.

(** [req.body] after [express.urlencoded]: the own properties of the
    parsed form, in property order, each holding a string. *)
Definition IpnData := list (string * string).

Definition field (k : string) (ipnData : IpnData) : option string :=
  JsMap.get k ipnData.

(** *** JSON.stringify of the parsed body *)

Definition backslash : string := String (ascii_of_nat 92) "".

Definition json_escape_char (c : ascii) : string :=
  let n := Z.of_N (N_of_ascii c) in
  if n =? 34 then backslash ++ quote
  else if n =? 92 then backslash ++ backslash
  else if n =? 8 then backslash ++ "b"
  else if n =? 9 then backslash ++ "t"
  else if n =? 10 then backslash ++ "n"
  else if n =? 12 then backslash ++ "f"
  else if n =? 13 then backslash ++ "r"
  else if n <? 32 then backslash ++ "u00" ++ hex_of_bytes [n]
  else String c "".

Fixpoint json_escape (s : string) : string :=
  match s with
  | EmptyString => ""
  | String c s' => json_escape_char c ++ json_escape s'
  end.

Definition json_string (s : string) : string := quote ++ json_escape s ++ quote.

Fixpoint json_members (o : IpnData) : string :=
  match o with
  | [] => ""
  | [(k, v)] => json_string k ++ ":" ++ json_string v
  | (k, v) :: o' => json_string k ++ ":" ++ json_string v ++ "," ++ json_members o'
  end.

Definition JSON_stringify (o : IpnData) : string := "{" ++ json_members o ++ "}".

(** *** verifyPayoneerSignature *)

Inductive completion (A : Type) :=
| Return (a : A)
| Throw (message : string).
Arguments Return {A} a.
Arguments Throw {A} message.

(** The [message] of the TypeError of [crypto.createHmac] for a key that is
    [undefined]. *)
Definition invalid_key_message : string :=
  "The " ++ quote ++ "key" ++ quote ++
  " argument must be of type string or an instance of ArrayBuffer, Buffer, TypedArray, DataView, KeyObject, or CryptoKey. Received undefined".

(** [crypto.createHmac('sha256', secret).update(data).digest('hex')] *)
Definition createHmac_sha256_hex (secret : option string) (data : string)
    : completion string :=
  match secret with
  | Some key => Return (Sha256.hmac_hex key data)
  | None => Throw invalid_key_message
  end.

(** [crypto.timingSafeEqual] throws on buffers of different byte length. *)
Definition timingSafeEqual (a b : list Z) : completion bool :=
  if Nat.eqb (List.length a) (List.length b)
  then Return (forallb (fun xy => fst xy =? snd xy) (combine a b))
  else Throw "Input buffers must have the same byte length".

Definition verifyPayoneerSignature (secret : option string) (ipnData : IpnData)
    (signature : option string) : completion bool :=
  match required signature with
  | None => Return false
  | Some signature =>
      let dataToHash := JSON_stringify ipnData in
      match createHmac_sha256_hex secret dataToHash with
      | Throw m => Throw m
      | Return calculatedSignature =>
          timingSafeEqual (bytes_of_string signature) (bytes_of_string calculatedSignature)
      end
  end.

(** *** The handlers

    [console] output is not modelled. *)

Definition ms_per_day : Z := 86400000.

(** [LocalTime(t)] and [UTC(t)] of ECMAScript. *)
Definition LocalTime (e : Env) (t : Z) : Z := t + LocalTZA e t true.
Definition UTC (e : Env) (t : Z) : Z := t - LocalTZA e t false.

(** [d.setDate(d.getDate() + days)] on a date of time value [t], for times
    in the range of [Date]: [getDate] and [setDate] work on local time, so
    the day of [LocalTime(t)] moves by [days], the time within the day
    stays ([MakeDate(MakeDay(year, month, date + days), TimeWithinDay)] is
    [LocalTime(t) + days * msPerDay]), and the result is taken back to UTC
    with the offset in force at the new local time. *)
Definition setDate_plus (e : Env) (t days : Z) : Z :=
  UTC e (LocalTime e t + days * ms_per_day).

(** [Math.round(parseFloat(amount) * 100)] *)
Definition amountInCents (amount : string) : JsNumber.number :=
  JsNumber.Math_round (JsNumber.mul (JsNumber.parseFloat amount) (JsNumber.of_Z 100)).

Definition handlePaymentSucceeded (ipnData : IpnData) : M unit :=
  enter "handlePaymentSucceeded" ;;;
  let paymentToken := field "token" ipnData in
  match required (field "custom_param1" ipnData),
        required (field "custom_param2" ipnData),
        required (field "amount" ipnData) with
  | Some userId, Some planId, Some amount =>
      payment <- Db_payments.findByStripeId paymentToken ;;
      if match payment with
         | Some p => String.eqb (Payment.status p) "completed"
         | None => false
         end
      then ret tt
      else
        match Plans.getPlan planId with
        | Plans.Null =>
            Db_audit.log (Some userId) "invalid_plan"
              [("planId", VString planId); ("paymentToken", of_field paymentToken)]
        | plan =>
            let amountInCents := amountInCents amount in
            let fraud_detected :=
              Db_audit.log (Some userId) "fraud_detected"
                [("paymentToken", of_field paymentToken);
                 ("expectedAmount", Plans.price_of plan);
                 ("actualAmount", VNumber amountInCents); ("planId", VString planId)] in
            match plan with
            | Plans.Own p =>
                if JsNumber.strict_eq amountInCents (JsNumber.of_Z (Plans.price p)) then
                  now <- new_Date ;;
                  e <- env ;;
                  let expiresAt := setDate_plus e now (Plans.duration_days p) in
                  subscription <- Db_subscriptions.create userId planId paymentToken expiresAt ;;
                  match payment with
                  | Some p' => _ <- Db_payments.updateStatus (Payment.id p') "completed" ;; ret tt
                  | None => ret tt
                  end ;;;
                  Db_audit.log (Some userId) "subscription_created"
                    [("paymentToken", of_field paymentToken); ("planId", VString planId);
                     ("amount", VNumber amountInCents); ("expiresAt", VDate expiresAt);
                     ("subscriptionId", VString (Subscription.id subscription))]
                else fraud_detected
            | _ => fraud_detected
            end
        end
  | _, _, _ => ret tt
  end.

Definition handlePaymentFailed (ipnData : IpnData) : M unit :=
  enter "handlePaymentFailed" ;;;
  let userId := field "custom_param1" ipnData in
  let paymentToken := field "token" ipnData in
  payment <- Db_payments.findByStripeId paymentToken ;;
  match payment with
  | Some p => _ <- Db_payments.updateStatus (Payment.id p) "failed" ;; ret tt
  | None => ret tt
  end ;;;
  Db_audit.log userId "payment_failed"
    [("paymentToken", of_field paymentToken);
     ("reason", of_field (field "error_message" ipnData))].

Definition handlePaymentPending (ipnData : IpnData) : M unit :=
  enter "handlePaymentPending" ;;;
  Db_audit.log (field "custom_param1" ipnData) "payment_pending"
    [("paymentToken", of_field (field "token" ipnData))].

(** [a === b] on two property reads: equal strings, or both [undefined]. *)
Definition same_field (a b : option string) : bool :=
  match a, b with
  | Some x, Some y => String.eqb x y
  | None, None => true
  | _, _ => false
  end.

Definition handlePaymentRefunded (ipnData : IpnData) : M unit :=
  enter "handlePaymentRefunded" ;;;
  let userId := field "custom_param1" ipnData in
  let planId := field "custom_param2" ipnData in
  let paymentToken := field "token" ipnData in
  subscriptions <- Db_subscriptions.findByUserId userId ;;
  let subscription :=
    find (fun s => same_field (Some (Subscription.plan_id s)) planId) subscriptions in
  match subscription with
  | Some s => _ <- Db_subscriptions.updateStatus (Subscription.id s) "canceled" ;; ret tt
  | None => ret tt
  end ;;;
  payment <- Db_payments.findByStripeId paymentToken ;;
  match payment with
  | Some p => _ <- Db_payments.updateStatus (Payment.id p) "refunded" ;; ret tt
  | None => ret tt
  end ;;;
  Db_audit.log userId "payment_refunded"
    [("paymentToken", of_field paymentToken); ("planId", of_field planId);
     ("subscriptionId",
      match subscription with
      | Some s => VString (Subscription.id s)
      | None => VUndefined
      end)].

(** *** POST /webhooks/payoneer *)

(** [switch (ipnData.status)] *)
Definition dispatch (ipnData : IpnData) : M unit :=
  match field "status" ipnData with
  | Some status =>
      if String.eqb status "success" || String.eqb status "approved"
      then handlePaymentSucceeded ipnData
      else if String.eqb status "failed" || String.eqb status "declined"
      then handlePaymentFailed ipnData
      else if String.eqb status "pending" then handlePaymentPending ipnData
      else if String.eqb status "refund" then handlePaymentRefunded ipnData
      else ret tt
  | None => ret tt
  end.

(** The route callback, given [req.headers['x-payoneer-signature']] and
    [req.body]; the [catch] answers 200 with the message of the error. *)
Definition webhook (signature : option string) (ipnData : IpnData) : M Response :=
  e <- env ;;
  match verifyPayoneerSignature (PAYONEER_IPN_SECRET e) ipnData signature with
  | Throw message =>
      ret (Json 200 [("received", VBool true); ("error", VString message)])
  | Return false =>
      ret (Json 401 [("error", VString "Unauthorized")])
  | Return true =>
      dispatch ipnData ;;;
      ret (Json 200 [("received", VBool true)])
  end.

End Ipn.

(** *** express.urlencoded

    The body parser, on the plain fragment of the form encoding: pairs
    [key=value] separated by [&], ASCII only, [+] and [%XX] escapes below
    0x80, no brackets in keys, no key twice, no key that is an array index,
    at most 1000 pairs.  [None] outside the fragment. *)

Module Urlencoded.

Definition hex_value (c : ascii) : option Z :=
  let n := Z.of_N (N_of_ascii c) in
  if (48 <=? n) && (n <=? 57) then Some (n - 48)
  else if (65 <=? n) && (n <=? 70) then Some (n - 55)
  else if (97 <=? n) && (n <=? 102) then Some (n - 87)
  else None.

Fixpoint decode (l : list ascii) : option (list ascii) :=
  match l with
  | [] => Some []
  | c :: r =>
      if Ascii.eqb c "+" then option_map (cons " "%char) (decode r)
      else if Ascii.eqb c "%" then
        match r with
        | h :: r1 =>
            match r1 with
            | lo :: r2 =>
                match hex_value h, hex_value lo with
                | Some a, Some b =>
                    if 16 * a + b <? 128
                    then option_map (cons (ascii_of_N (Z.to_N (16 * a + b)))) (decode r2)
                    else None
                | _, _ => None
                end
            | [] => None
            end
        | [] => None
        end
      else if Z.of_N (N_of_ascii c) <? 128 then option_map (cons c) (decode r)
      else None
  end.

(** The pieces of [l] between occurrences of [sep]. *)
Fixpoint split_on (sep : ascii) (l : list ascii) : list (list ascii) :=
  match l with
  | [] => [[]]
  | c :: r =>
      if Ascii.eqb c sep then [] :: split_on sep r
      else
        match split_on sep r with
        | piece :: pieces => (c :: piece) :: pieces
        | [] => [[c]]
        end
  end.

(** A piece is cut at its first [=]; without one the value is empty. *)
Fixpoint cut (l : list ascii) : list ascii * list ascii :=
  match l with
  | [] => ([], [])
  | c :: r =>
      if Ascii.eqb c "=" then ([], r)
      else let '(k, v) := cut r in (c :: k, v)
  end.

(** Keys the fragment leaves out: those with brackets (nesting), those made
    of digits only (array indices, which an object lists first) and
    [__proto__] (which the parser drops). *)
Definition plain_key (k : list ascii) : bool :=
  forallb (fun c => negb (Ascii.eqb c "[" || Ascii.eqb c "]")) k
  && negb (forallb (fun c => match JsNumber.digit_of c with Some _ => true | None => false end) k)
  && negb (String.eqb (string_of_list_ascii k) "__proto__").

Fixpoint pairs (pieces : list (list ascii)) : option Ipn.IpnData :=
  match pieces with
  | [] => Some []
  | [] :: rest => pairs rest
  | piece :: rest =>
      let '(k, v) := cut piece in
      match decode k, decode v, pairs rest with
      | Some k', Some v', Some body =>
          let key := string_of_list_ascii k' in
          if plain_key k' && negb (existsb (String.eqb key) (JsMap.keys body))
          then Some ((key, string_of_list_ascii v') :: body)
          else None
      | _, _, _ => None
      end
  end.

Definition parse (raw : string) : option Ipn.IpnData :=
  let pieces := split_on "&" (list_ascii_of_string raw) in
  if Nat.leb (List.length pieces) 1000 then pairs pieces else None.

End Urlencoded.

(** ** middleware/auth.js and routes/articles.js: the access gate *)

Module Gate.

Record Session := mkSession {
  session_userId : option string;
  session_userEmail : option string
}.

Record Request := mkRequest {
  session : option Session;
  params_filename : string;
  ip : option string;
  userId : option string;
  userEmail : option string;
  subscription : option Subscription.t
}.

(** A middleware either hands the request on with [next()] or ends it
    with a response. *)
Inductive outcome :=
| Next (req : Request)
| End (res : Response).

Definition middleware := Request -> M outcome.

(** [router.get(path, m1, ..., mn, handler)] *)
Fixpoint route (middlewares : list middleware) (handler : Request -> M Response)
    (req : Request) : M Response :=
  match middlewares with
  | [] => handler req
  | m :: rest =>
      o <- m req ;;
      match o with
      | Next req' => route rest handler req'
      | End res => ret res
      end
  end.

Definition requireAuth : middleware := fun req =>
  enter "requireAuth" ;;;
  match session req with
  | Some s =>
      match required (session_userId s) with
      | Some _ =>
          ret (Next (mkRequest (session req) (params_filename req) (ip req)
                               (session_userId s) (session_userEmail s) (subscription req)))
      | None =>
          ret (End (Json 401 [("error", VString "Unauthorized");
                              ("message", VString "Please log in to continue")]))
      end
  | None =>
      ret (End (Json 401 [("error", VString "Unauthorized");
                          ("message", VString "Please log in to continue")]))
  end.

Definition requireSubscription : middleware := fun req =>
  enter "requireSubscription" ;;;
  match required (userId req) with
  | None => ret (End (Json 401 [("error", VString "Unauthorized")]))
  | Some _ =>
      subscriptions <- Db_subscriptions.findActiveByUserId (userId req) ;;
      match subscriptions with
      | [] =>
          ret (End (Json 403 [("error", VString "Forbidden");
                              ("message", VString "Active subscription required")]))
      | first :: _ =>
          ret (Next (mkRequest (session req) (params_filename req) (ip req)
                               (userId req) (userEmail req) (Some first)))
      end
  end.

Definition ALLOWED_FILES : JsMap.t string :=
  [("health-wellness.pdf", "Health and Wellness Guide");
   ("article-1.pdf", "Article 1: Advanced Topics")].

Definition ALLOWED_FILES_has (filename : string) : M bool :=
  enter "ALLOWED_FILES.has" ;;;
  ret (match JsMap.get filename ALLOWED_FILES with Some _ => true | None => false end).

(** [path.join(PDF_DIR, filename)], for a file name without separators. *)
Definition path_join (dir filename : string) : string := dir ++ "/" ++ filename.

Definition startsWith (s p : string) : bool := String.prefix p s.

Definition download_handler (req : Request) : M Response :=
  enter "download" ;;;
  e <- env ;;
  let filename := params_filename req in
  allowed <- ALLOWED_FILES_has filename ;;
  if negb allowed then
    ret (Json 404 [("error", VString "Not Found"); ("message", VString "File not found")])
  else
    let filepath := path_join (PDF_DIR e) filename in
    if negb (startsWith filepath (PDF_DIR e)) then
      ret (Json 403 [("error", VString "Forbidden"); ("message", VString "Access denied")])
    else
      match file_size e filepath with
      | None =>
          ret (Json 404 [("error", VString "Not Found"); ("message", VString "File not found")])
      | Some fileSize =>
          Db_audit.log (userId req) "pdf_download"
            [("filename", VString filename); ("fileSize", VNumber (JsNumber.of_Z fileSize));
             ("ip", of_field (ip req))] ;;;
          ret (SendFile
                 [("Content-Type", VString "application/pdf");
                  ("Content-Disposition",
                   VString ("attachment; filename=" ++ quote ++ filename ++ quote));
                  ("Content-Length", VNumber (JsNumber.of_Z fileSize));
                  ("Cache-Control", VString "no-cache, no-store, must-revalidate");
                  ("Pragma", VString "no-cache");
                  ("Expires", VString "0")]
                 filepath)
      end.

(** [router.get('/download/:filename', requireAuth, requireSubscription, ...)] *)
Definition download : Request -> M Response :=
  route [requireAuth; requireSubscription] download_handler.

End Gate.

(** ** middleware/auth.js, routes/payment.js and routes/articles.js: the
    routes that only read

    A route answers with a flat [Response] or, through [res.json], with a
    body of its own shape. *)

Module Routes.

Inductive reply (A : Type) :=
| Sent (res : Response)
| Body (body : A).
Arguments Sent {A} res.
Arguments Body {A} body.

Definition code_of {A} (r : reply A) : Z :=
  match r with
  | Sent res => status_of res
  | Body _ => 200
  end.

(** [router.get(path, m1, ..., mn, handler)] *)
Fixpoint route {A} (middlewares : list Gate.middleware)
    (handler : Gate.Request -> M (reply A)) (req : Gate.Request) : M (reply A) :=
  match middlewares with
  | [] => handler req
  | m :: rest =>
      o <- m req ;;
      match o with
      | Gate.Next req' => route rest handler req'
      | Gate.End res => ret (Sent res)
      end
  end.

(** [optionalAuth] never ends the request. *)
Definition optionalAuth : Gate.middleware := fun req =>
  enter "optionalAuth" ;;;
  match Gate.session req with
  | Some s =>
      match required (Gate.session_userId s) with
      | Some _ =>
          ret (Gate.Next
                 (Gate.mkRequest (Gate.session req) (Gate.params_filename req) (Gate.ip req)
                    (Gate.session_userId s) (Gate.session_userEmail s)
                    (Gate.subscription req)))
      | None => ret (Gate.Next req)
      end
  | None => ret (Gate.Next req)
  end.

(** *** GET /api/payment/plans *)

Definition plans : M (reply (list Plans.PublicPlan)) :=
  enter "plans" ;;;
  ret (Body Plans.getPublicPlans).

(** *** GET /api/payment/status/:paymentToken *)

Record PaymentStatus := mkPaymentStatus {
  status : string;
  paymentToken : string;
  amount : Val;
  planId : string
}.

Definition cannot_access : Response :=
  Json 403 [("error", VString "Forbidden"); ("message", VString "Cannot access this payment")].

(** [payment.user_id !== req.userId] *)
Definition status_handler (params_paymentToken : string) (req : Gate.Request)
    : M (reply PaymentStatus) :=
  enter "status" ;;;
  payment <- Db_payments.findByStripeId (Some params_paymentToken) ;;
  match payment with
  | None => ret (Sent cannot_access)
  | Some p =>
      if negb (Db_audit.same_user (Some (Payment.user_id p)) (Gate.userId req))
      then ret (Sent cannot_access)
      else
        ret (Body (mkPaymentStatus (Payment.status p) (Payment.stripe_payment_intent_id p)
                     (Payment.amount p) (Payment.plan_id p)))
  end.

Definition payment_status (params_paymentToken : string) : Gate.Request -> M (reply PaymentStatus) :=
  route [Gate.requireAuth] (status_handler params_paymentToken).

(** *** GET /api/payment/history *)

Record HistoryItem := mkHistoryItem {
  item_id : string;
  item_planId : string;
  item_amount : Val;
  item_status : string;
  item_createdAt : Z;
  item_plan : Plans.lookup
}.

Definition enrich (p : Payment.t) : HistoryItem :=
  mkHistoryItem (Payment.id p) (Payment.plan_id p) (Payment.amount p) (Payment.status p)
    (Payment.created_at p) (Plans.getPlan (Payment.plan_id p)).

Definition history_handler (req : Gate.Request) : M (reply (list HistoryItem)) :=
  enter "history" ;;;
  payments <- Db_payments.findByUserId (Gate.userId req) ;;
  ret (Body (map enrich payments)).

Definition history : Gate.Request -> M (reply (list HistoryItem)) :=
  route [Gate.requireAuth] history_handler.

(** *** GET /api/payment/subscription/status *)

Record SubscriptionInfo := mkSubscriptionInfo {
  info_id : string;
  info_planId : string;
  info_planName : option string;
  info_expiresAt : Z;
  info_status : string
}.

Record SubscriptionStatus := mkSubscriptionStatus {
  hasActiveSubscription : bool;
  subscription : option SubscriptionInfo
}.

Definition subscription_status_handler (req : Gate.Request) : M (reply SubscriptionStatus) :=
  enter "subscription/status" ;;;
  subscriptions <- Db_subscriptions.findActiveByUserId (Gate.userId req) ;;
  match subscriptions with
  | [] => ret (Body (mkSubscriptionStatus false None))
  | first :: _ =>
      let plan := Plans.getPlan (Subscription.plan_id first) in
      ret (Body (mkSubscriptionStatus true
                   (Some (mkSubscriptionInfo (Subscription.id first) (Subscription.plan_id first)
                            (Plans.name_of (Subscription.plan_id first) plan)
                            (Subscription.expires_at first) (Subscription.status first)))))
  end.

Definition subscription_status : Gate.Request -> M (reply SubscriptionStatus) :=
  route [Gate.requireAuth] subscription_status_handler.

(** *** GET /api/articles/verify *)

Record Access := mkAccess {
  hasAccess : bool;
  access_subscription : option (string * Z)
}.

Definition verify_handler (req : Gate.Request) : M (reply Access) :=
  enter "verify" ;;;
  subscriptions <- Db_subscriptions.findActiveByUserId (Gate.userId req) ;;
  match subscriptions with
  | [] => ret (Body (mkAccess false None))
  | first :: _ =>
      ret (Body (mkAccess true (Some (Subscription.plan_id first, Subscription.expires_at first))))
  end.

Definition verify : Gate.Request -> M (reply Access) :=
  route [Gate.requireAuth] verify_handler.

End Routes.

(** ** models/user.js: the users

    The [users] map is kept beside the three stores, with what the login
    routes take from outside: the results of [bcrypt.hash], which salts
    at random, of [bcrypt.compare], [String.prototype.toLowerCase] and
    [uuidv4], and four variables of the environment. *)

Module User.
Record t := mk {
  id : string;
  email : string;
  password_hash : string;
  name : string;
  created_at : Z;
  updated_at : Z;
  last_login : option Z
}.
Definition with_last_login (u : t) (now : Z) : t :=
  mk (id u) (email u) (password_hash u) (name u) (created_at u) (updated_at u) (Some now).
End User.

Record Host := mkHost {
  base : Env;
  bcrypt_hash : nat -> string -> string;
  bcrypt_compare : string -> string -> bool;
  toLowerCase : string -> string;
  uuidv4 : nat -> string;
  PAYONEER_SANDBOX : option string;
  PAYONEER_API_KEY : option string;
  PAYONEER_CLIENT_ID : option string;
  FRONTEND_URL : option string
}.

Record Site := mkSite {
  users : JsMap.t User.t;
  world : World;
  bcrypt_draws : nat;
  uuid_draws : nat
}.

Definition SiteM (A : Type) : Type := Host -> Site -> A * Site.

Definition retS {A} (a : A) : SiteM A := fun _ s => (a, s).
Definition bindS {A B} (m : SiteM A) (f : A -> SiteM B) : SiteM B :=
  fun h s => let '(a, s') := m h s in f a h s'.

Notation "x <~ m ;; k" := (bindS m (fun x => k))
  (at level 61, m at next level, right associativity).
Notation "m ~;; k" := (bindS m (fun _ => k))
  (at level 61, right associativity).

(** A computation on the three stores, run inside the site. *)
Definition lift {A} (m : M A) : SiteM A :=
  fun h s =>
    let '(a, w) := m (base h) (world s) in
    (a, mkSite (users s) w (bcrypt_draws s) (uuid_draws s)).

Definition host : SiteM Host := fun h s => (h, s).
Definition get_users : SiteM (JsMap.t User.t) := fun _ s => (users s, s).
Definition put_users (u : JsMap.t User.t) : SiteM unit :=
  fun _ s => (tt, mkSite u (world s) (bcrypt_draws s) (uuid_draws s)).

(** [bcrypt.hash(password, 10)] *)
Definition bcrypt_hash_10 (password : string) : SiteM string :=
  fun h s =>
    (bcrypt_hash h (bcrypt_draws s) password,
     mkSite (users s) (world s) (S (bcrypt_draws s)) (uuid_draws s)).

Definition draw_uuidv4 : SiteM string :=
  fun h s =>
    (uuidv4 h (uuid_draws s),
     mkSite (users s) (world s) (bcrypt_draws s) (S (uuid_draws s))).

Module Db_users.

(** The map is keyed by the [email] argument. *)
Definition create (email passwordHash name : string) : SiteM User.t :=
  lift (enter "db.users.create") ~;;
  id <~ lift random_id ;;
  created <~ lift new_Date ;;
  updated <~ lift new_Date ;;
  let user := User.mk id email passwordHash name created updated None in
  u <~ get_users ;;
  put_users (JsMap.set email user u) ~;;
  retS user.

Definition findByEmail (email : string) : SiteM (option User.t) :=
  lift (enter "db.users.findByEmail") ~;;
  u <~ get_users ;;
  retS (JsMap.get email u).

Definition has_id (id : option string) (user : User.t) : bool :=
  match id with
  | Some i => String.eqb (User.id user) i
  | None => false
  end.

Definition findById (id : option string) : SiteM (option User.t) :=
  lift (enter "db.users.findById") ~;;
  u <~ get_users ;;
  retS (find (has_id id) (JsMap.values u)).

(** The first user with the id is changed where it stands in the map. *)
Fixpoint touch (userId : string) (now : Z) (u : JsMap.t User.t) : JsMap.t User.t :=
  match u with
  | [] => []
  | (k, user) :: rest =>
      if String.eqb (User.id user) userId then (k, User.with_last_login user now) :: rest
      else (k, user) :: touch userId now rest
  end.

(** [new Date()] is only reached when a user is found. *)
Definition updateLastLogin (userId : string) : SiteM (option User.t) :=
  lift (enter "db.users.updateLastLogin") ~;;
  u <~ get_users ;;
  match find (has_id (Some userId)) (JsMap.values u) with
  | Some user =>
      now <~ lift new_Date ;;
      put_users (touch userId now u) ~;;
      retS (Some (User.with_last_login user now))
  | None => retS None
  end.

End Db_users.

(** ** routes/auth.js

    The fields of a request body are strings or absent.  A handler gets
    [req.session] and gives back what has become of it; the session store
    is the default one, whose [destroy] does not fail. *)

Module Auth.

Record Credentials := mkCredentials {
  email : option string;
  password : option string;
  name : option string;
  confirmPassword : option string
}.

Record UserInfo := mkUserInfo {
  info_id : string;
  info_email : string;
  info_name : string
}.

Definition info (user : User.t) : UserInfo :=
  mkUserInfo (User.id user) (User.email user) (User.name user).

Inductive answer :=
| Flat (res : Response)
| WithUser (code : Z) (message : string) (user : UserInfo)
| Me (code : Z) (authenticated : bool) (user : option UserInfo).

Definition code_of (a : answer) : Z :=
  match a with
  | Flat res => status_of res
  | WithUser code _ _ => code
  | Me code _ _ => code
  end.

Definition validation_error (message : string) : answer :=
  Flat (Json 400 [("error", VString "Validation Error"); ("message", VString message)]).

Definition signup_failed : answer :=
  Flat (Json 400 [("error", VString "Signup Failed");
                  ("message", VString "Unable to create account. Please try again.")]).

Definition authentication_failed : answer :=
  Flat (Json 401 [("error", VString "Authentication Failed");
                  ("message", VString "Invalid email or password")]).

Definition server_error (message : string) : answer :=
  Flat (Json 500 [("error", VString "Server Error"); ("message", VString message)]).

(** [!s?.trim()] *)
Definition blank (s : string) : bool := String.eqb (JsString.trim s) "".

(** [req.session.userId = user.id; req.session.userEmail = user.email] *)
Definition logged_in (user : User.t) : Gate.Session :=
  Gate.mkSession (Some (User.id user)) (Some (User.email user)).

(** POST /api/auth/signup.  Without [req.session] the assignment to it
    throws, after the user was created. *)
Definition signup (body : Credentials) (ip : option string) (session : option Gate.Session)
    : SiteM (answer * option Gate.Session) :=
  lift (enter "signup") ~;;
  match email body, password body, name body, confirmPassword body with
  | Some email, Some password, Some name, Some confirmPassword =>
      if blank email || String.eqb password "" || blank name || String.eqb confirmPassword ""
      then retS (validation_error "All fields are required", session)
      else if negb (Validators.validateEmail email)
      then retS (validation_error "Invalid email format", session)
      else if negb (String.eqb password confirmPassword)
      then retS (validation_error "Passwords do not match", session)
      else
        match Validators.validatePassword password with
        | Validators.Invalid error => retS (validation_error error, session)
        | Validators.Valid =>
            h <~ host ;;
            existingUser <~ Db_users.findByEmail (toLowerCase h email) ;;
            match existingUser with
            | Some _ => retS (signup_failed, session)
            | None =>
                passwordHash <~ bcrypt_hash_10 password ;;
                user <~ Db_users.create (toLowerCase h email) passwordHash (JsString.trim name) ;;
                match session with
                | None =>
                    retS (server_error "Unable to create account. Please try again.", None)
                | Some _ =>
                    lift (Db_audit.log (Some (User.id user)) "signup"
                            [("email", VString (User.email user)); ("ip", of_field ip)]) ~;;
                    retS (WithUser 201 "Account created successfully" (info user),
                          Some (logged_in user))
                end
            end
        end
  | _, _, _, _ => retS (validation_error "All fields are required", session)
  end.

(** POST /api/auth/login *)
Definition login (body : Credentials) (ip : option string) (session : option Gate.Session)
    : SiteM (answer * option Gate.Session) :=
  lift (enter "login") ~;;
  match email body, password body with
  | Some email, Some password =>
      if blank email || String.eqb password "" then retS (authentication_failed, session)
      else
        h <~ host ;;
        user <~ Db_users.findByEmail (toLowerCase h email) ;;
        match user with
        | None => retS (authentication_failed, session)
        | Some user =>
            if negb (bcrypt_compare h password (User.password_hash user))
            then retS (authentication_failed, session)
            else
              match session with
              | None => retS (server_error "Unable to log in. Please try again.", None)
              | Some _ =>
                  Db_users.updateLastLogin (User.id user) ~;;
                  lift (Db_audit.log (Some (User.id user)) "login"
                          [("email", VString (User.email user)); ("ip", of_field ip)]) ~;;
                  retS (WithUser 200 "Login successful" (info user), Some (logged_in user))
              end
        end
  | _, _ => retS (authentication_failed, session)
  end.

(** POST /api/auth/logout, behind [requireAuth] *)
Definition logout (req : Gate.Request) : SiteM (answer * option Gate.Session) :=
  o <~ lift (Gate.requireAuth req) ;;
  match o with
  | Gate.End res => retS (Flat res, Gate.session req)
  | Gate.Next req' =>
      lift (enter "logout") ~;;
      lift (Db_audit.log (Gate.userId req') "logout" [("ip", of_field (Gate.ip req'))]) ~;;
      retS (Flat (Json 200 [("message", VString "Logged out successfully")]), None)
  end.

(** GET /api/auth/me *)
Definition me (session : option Gate.Session) : SiteM (answer * option Gate.Session) :=
  lift (enter "me") ~;;
  match session with
  | None => retS (Me 401 false None, session)
  | Some s =>
      match required (Gate.session_userId s) with
      | None => retS (Me 401 false None, session)
      | Some userId =>
          user <~ Db_users.findById (Some userId) ;;
          match user with
          | None => retS (Me 401 false None, None)
          | Some user => retS (Me 200 true (Some (info user)), session)
          end
      end
  end.

End Auth.

(** ** routes/articles.js: GET /api/articles/subscribed

    Behind [requireAuth] and [requireSubscription].  The handler asks the
    store a second time, at a later reading of the clock; [user.name]
    throws when the user of the session is not in the map, after the audit
    entry was written. *)

Module Articles.

Record Article := mkArticle {
  id : string;
  title : string;
  type : string;
  fileName : string;
  size : string;
  url : string
}.

Definition articles : list Article :=
  [mkArticle "pdf-1" "Health and Wellness Comprehensive Guide" "pdf" "health-wellness.pdf"
     "2.3 MB" "/api/articles/download/health-wellness.pdf";
   mkArticle "pdf-2" "Advanced Strategies Document" "pdf" "article-1.pdf"
     "1.8 MB" "/api/articles/download/article-1.pdf"].

Record Listing := mkListing {
  listing_user : string;
  listing_subscription : Subscription.t;
  listing_articles : list Article
}.

Inductive answer :=
| Flat (res : Response)
| Listed (body : Listing).

Definition subscribed_handler (req : Gate.Request) : SiteM answer :=
  lift (enter "subscribed") ~;;
  user <~ Db_users.findById (Gate.userId req) ;;
  subscriptions <~ lift (Db_subscriptions.findActiveByUserId (Gate.userId req)) ;;
  match subscriptions with
  | [] =>
      retS (Flat (Json 403 [("error", VString "Forbidden");
                            ("message", VString "No active subscription")]))
  | first :: _ =>
      lift (Db_audit.log (Gate.userId req) "articles_accessed"
              [("ip", of_field (Gate.ip req));
               ("count", VNumber (JsNumber.of_Z (Z.of_nat (List.length articles))))]) ~;;
      match user with
      | Some user => retS (Listed (mkListing (User.name user) first articles))
      | None =>
          retS (Flat (Json 500 [("error", VString "Server Error");
                                ("message", VString "Unable to fetch articles")]))
      end
  end.

Definition subscribed (req : Gate.Request) : SiteM answer :=
  o <~ lift (Gate.requireAuth req) ;;
  match o with
  | Gate.End res => retS (Flat res)
  | Gate.Next req1 =>
      o' <~ lift (Gate.requireSubscription req1) ;;
      match o' with
      | Gate.End res => retS (Flat res)
      | Gate.Next req2 => subscribed_handler req2
      end
  end.

End Articles.

(** ** routes/payment.js: POST /api/payment/create-checkout

    The route in full, behind [requireAuth]. *)

Module Checkout.

(** [String(n)] for an integer. *)
Definition decimal (n : Z) : string := NilZero.string_of_int (Z.to_int n).

(** [(cents / 100).toString()] for an amount of less than fifteen digits:
    the quotient with up to two decimals, without trailing zeros. *)
Definition hundredth (cents : Z) : string :=
  let sign := if cents <? 0 then "-" else "" in
  let a := Z.abs cents in
  let whole := decimal (a / 100) in
  let r := a mod 100 in
  if r =? 0 then (sign ++ whole)%string
  else if r mod 10 =? 0 then (sign ++ whole ++ "." ++ decimal (r / 10))%string
  else (sign ++ whole ++ "." ++ decimal (r / 10) ++ decimal (r mod 10))%string.

(** [(plan.price / 100).toString()]; on a member inherited from
    Object.prototype the price is [undefined] and the quotient NaN. *)
Definition dollars (plan : Plans.lookup) : string :=
  match plan with
  | Plans.Own p => hundredth (Plans.price p)
  | _ => "NaN"
  end.

(** A value in a template literal or given to [URLSearchParams]. *)
Definition text (o : option string) : string :=
  match o with
  | Some s => s
  | None => "undefined"
  end.

(** The application/x-www-form-urlencoded serializer. *)
Definition unreserved (b : Z) : bool :=
  ((48 <=? b) && (b <=? 57)) || ((65 <=? b) && (b <=? 90)) || ((97 <=? b) && (b <=? 122))
  || (b =? 42) || (b =? 45) || (b =? 46) || (b =? 95).

Definition upper_hex_digit (n : Z) : ascii :=
  if n <? 10 then ascii_of_N (Z.to_N (48 + n)) else ascii_of_N (Z.to_N (55 + n)).

Definition encode_byte (b : Z) : string :=
  if unreserved b then String (ascii_of_N (Z.to_N b)) ""
  else if b =? 32 then "+"
  else String "%" (String (upper_hex_digit (Z.shiftr b 4))
                     (String (upper_hex_digit (Z.land b 15)) "")).

Definition encode (s : string) : string :=
  String.concat "" (map encode_byte (bytes_of_string s)).

(** [new URLSearchParams(object).toString()] *)
Definition URLSearchParams_toString (params : list (string * string)) : string :=
  String.concat "&" (map (fun kv => (encode (fst kv) ++ "=" ++ encode (snd kv))%string) params).

Definition PAYONEER_API (h : Host) : string :=
  match PAYONEER_SANDBOX h with
  | Some "true" => "https://sandbox.payoneer.com/api"
  | _ => "https://api.payoneer.com/api"
  end.

(** [user.name || 'Customer'] *)
Definition customer_name (user : User.t) : string :=
  if String.eqb (User.name user) "" then "Customer" else User.name user.

Definition payoneerRequest (h : Host) (plan : Plans.lookup) (paymentToken userId planId : string)
    (user : User.t) (now : Z) : list (string * string) :=
  [("apikey", text (PAYONEER_API_KEY h));
   ("clientid", text (PAYONEER_CLIENT_ID h));
   ("token", paymentToken);
   ("amount", dollars plan);
   ("currency", "USD");
   ("description", (text (Plans.name_of planId plan) ++ " subscription")%string);
   ("customer_email", User.email user);
   ("customer_name", customer_name user);
   ("memo", ("Order for " ++ text (Plans.name_of planId plan))%string);
   ("reference", (userId ++ "-" ++ planId ++ "-" ++ decimal now)%string);
   ("notify_url", (text (FRONTEND_URL h) ++ "/webhooks/payoneer")%string);
   ("return_url", (text (FRONTEND_URL h) ++ "/payment-success")%string);
   ("cancel_url", (text (FRONTEND_URL h) ++ "/payment-cancelled")%string);
   ("custom_param1", userId);
   ("custom_param2", planId);
   ("custom_param3", text (Plans.name_of planId plan))].

Record Created := mkCreated {
  paymentToken : string;
  checkoutUrl : string;
  redirectUrl : string;
  plan_id : option string;
  plan_name : option string;
  plan_price : Val;
  plan_currency : string
}.

Inductive answer :=
| Flat (res : Response)
| Redirect (body : Created).

Definition validation_error (message : string) : answer :=
  Flat (Json 400 [("error", VString "Validation Error"); ("message", VString message)]).

(** [Date.now()] reads the clock like [new Date()]. *)
Definition handler (body_planId : option string) (req : Gate.Request) : SiteM answer :=
  lift (enter "create-checkout") ~;;
  match required body_planId with
  | None => retS (validation_error "Plan ID is required")
  | Some planId =>
      match Plans.getPlan planId with
      | Plans.Null => retS (validation_error "Invalid plan selected")
      | plan =>
          paymentToken <~ draw_uuidv4 ;;
          user <~ Db_users.findById (Gate.userId req) ;;
          match user, Gate.userId req with
          | Some user, Some userId =>
              h <~ host ;;
              now <~ lift new_Date ;;
              let request := payoneerRequest h plan paymentToken userId planId user now in
              lift (Db_payments.create userId planId paymentToken (Plans.price_of plan)) ~;;
              lift (Db_audit.log (Some userId) "payment_initiated"
                      [("paymentToken", VString paymentToken); ("planId", VString planId);
                       ("amount", Plans.price_of plan); ("ip", of_field (Gate.ip req))]) ~;;
              let checkoutUrl :=
                (PAYONEER_API h ++ "/checkout?" ++ URLSearchParams_toString request)%string in
              retS (Redirect
                      (mkCreated paymentToken checkoutUrl checkoutUrl
                         (match plan with Plans.Own p => Some (Plans.id p) | _ => None end)
                         (Plans.name_of planId plan) (Plans.price_of plan) "USD"))
          | _, _ =>
              retS (Flat (Json 500 [("error", VString "Server Error");
                                    ("message",
                                     VString "Unable to create payment. Please try again.")]))
          end
      end
  end.

Definition create_checkout (body_planId : option string) (req : Gate.Request) : SiteM answer :=
  o <~ lift (Gate.requireAuth req) ;;
  match o with
  | Gate.End res => retS (Flat res)
  | Gate.Next req' => handler body_planId req'
  end.

End Checkout.

(** ** server.js: the check of the environment at startup *)

Module Server.

Definition requiredEnv : list string :=
  ["SESSION_SECRET"; "JWT_SECRET"; "STRIPE_SECRET_KEY"; "STRIPE_WEBHOOK_SECRET";
   "FRONTEND_URL"].

(** The loop over [requiredEnv]: the process exits at the first variable
    that is not set or is empty, which it names. *)
Fixpoint first_missing (process_env : string -> option string) (names : list string)
    : option string :=
  match names with
  | [] => None
  | name :: rest =>
      match required (process_env name) with
      | None => Some name
      | Some _ => first_missing process_env rest
      end
  end.

(** [None] when the server goes on to listen. *)
Definition startup (process_env : string -> option string) : option string :=
  first_missing process_env requiredEnv.

End Server.

(** ** The server as a transition system

    The requests that write to the stores.  [Checkout] stands for
    POST /api/payment/create-checkout, reduced to what it writes for a
    logged-in [userId] and the token it drew; [Audited] for the routes that
    only append to the audit log (signup, login, logout, article lists). *)

Inductive request :=
| Webhook (signature : option string) (ipnData : Ipn.IpnData)
| Checkout (userId planId paymentToken : string) (ip : option string)
| Download (req : Gate.Request)
| Audited (userId : option string) (action : string) (details : Obj).

Definition create_checkout (userId planId paymentToken : string) (ip : option string)
    : M unit :=
  match Plans.getPlan planId with
  | Plans.Null => ret tt
  | plan =>
      _ <- Db_payments.create userId planId paymentToken (Plans.price_of plan) ;;
      Db_audit.log (Some userId) "payment_initiated"
        [("paymentToken", VString paymentToken); ("planId", VString planId);
         ("amount", Plans.price_of plan); ("ip", of_field ip)]
  end.

Definition serve (r : request) : M unit :=
  match r with
  | Webhook signature ipnData => _ <- Ipn.webhook signature ipnData ;; ret tt
  | Checkout userId planId paymentToken ip => create_checkout userId planId paymentToken ip
  | Download req => _ <- Gate.download req ;; ret tt
  | Audited userId action details => Db_audit.log userId action details
  end.

Definition empty_db : Db := mkDb [] [] [].

Inductive reachable (e : Env) : World -> Prop :=
| reachable_start : forall w, db w = empty_db -> reachable e w
| reachable_serve : forall w r, reachable e w -> reachable e (snd (serve r e w)).

(** Every record sits under its own [id], and no key occurs twice. *)
Definition keyed {V} (id : V -> string) (m : JsMap.t V) : Prop :=
  NoDup (JsMap.keys m) /\ Forall (fun kv => id (snd kv) = fst kv) m.

Definition wf (d : Db) : Prop :=
  keyed Subscription.id (subscriptions d) /\ keyed Payment.id (payments d).

(** The first payment on record with the given token. *)
Definition payment_of (token : option string) (d : Db) : option Payment.t :=
  find (fun payment =>
          match token with
          | Some tok => String.eqb (Payment.stripe_payment_intent_id payment) tok
          | None => false
          end)
       (JsMap.values (payments d)).

(** * Vocabulary of the statements *)

(** [keeps P m]: running [m] from stores that satisfy [P] ends in stores
    that satisfy [P]. *)
Definition keeps {A} (P : Db -> Prop) (m : M A) : Prop :=
  forall e w, P (db w) -> P (db (snd (m e w))).

(** The user a request is logged in as, if any. *)
Definition session_user (req : Gate.Request) : option string :=
  match Gate.session req with
  | Some s => required (Gate.session_userId s)
  | None => None
  end.

(** The records [filter_active] keeps when the clock has been read [reads]
    times, and the number of readings afterwards. *)
Fixpoint active_from (e : Env) (reads : nat) (subs : list Subscription.t)
    : list Subscription.t * nat :=
  match subs with
  | [] => ([], reads)
  | sub :: rest =>
      if String.eqb (Subscription.status sub) "active" then
        let '(kept, n) := active_from e (S reads) rest in
        (if clock e reads <? Subscription.expires_at sub then sub :: kept else kept, n)
      else active_from e reads rest
  end.

(** How many of the first [i] records of [subs] have the status ['active']:
    as many readings of the clock [filter_active] has taken when it comes to
    the record at position [i]. *)
Definition active_before (i : nat) (subs : list Subscription.t) : nat :=
  List.length
    (filter (fun sub => String.eqb (Subscription.status sub) "active") (firstn i subs)).

Definition subscriptions_of (userId : option string) (d : Db) : list Subscription.t :=
  filter (fun sub =>
            match userId with
            | Some u => String.eqb (Subscription.user_id sub) u
            | None => false
            end)
         (JsMap.values (subscriptions d)).

(** The checks of [handlePaymentSucceeded] before it creates a
    subscription: the user, plan and amount it grants for, when all pass. *)
Definition granting (ipnData : Ipn.IpnData) (d : Db) : option (string * string * Plans.Plan) :=
  match required (Ipn.field "custom_param1" ipnData),
        required (Ipn.field "custom_param2" ipnData),
        required (Ipn.field "amount" ipnData) with
  | Some userId, Some planId, Some amount =>
      if match payment_of (Ipn.field "token" ipnData) d with
         | Some pay => String.eqb (Payment.status pay) "completed"
         | None => false
         end
      then None
      else
        match Plans.getPlan planId with
        | Plans.Own p =>
            if JsNumber.strict_eq (Ipn.amountInCents amount) (JsNumber.of_Z (Plans.price p))
            then Some (userId, planId, p) else None
        | _ => None
        end
  | _, _, _ => None
  end.


(** The subscription [handlePaymentRefunded] picks: the first record of the
    notification's user whose plan is the notification's plan. *)
Definition refund_target (ipnData : Ipn.IpnData) (d : Db) : option Subscription.t :=
  find (fun s => Ipn.same_field (Some (Subscription.plan_id s))
                                (Ipn.field "custom_param2" ipnData))
       (subscriptions_of (Ipn.field "custom_param1" ipnData) d).

(** The functions a download request enters when it passes every check, in
    order. *)
Definition download_pipeline : list string :=
  ["requireAuth"; "requireSubscription"; "db.subscriptions.findActiveByUserId";
   "db.subscriptions.findByUserId"; "download"; "ALLOWED_FILES.has"; "db.audit.log"].

(** What every stored subscription satisfies: it is active or canceled,
    for a user whose id is not empty, and for a plan of the table. *)
Definition subscription_sound (sub : Subscription.t) : Prop :=
  (Subscription.status sub = "active" \/ Subscription.status sub = "canceled")
  /\ Subscription.user_id sub <> ""
  /\ exists p, Plans.getPlan (Subscription.plan_id sub) = Plans.Own p.

(** What every stored payment satisfies: its status is one of four, and
    its amount is what the table of plans gives for its plan. *)
Definition payment_sound (pay : Payment.t) : Prop :=
  In (Payment.status pay) ["pending"; "completed"; "failed"; "refunded"]
  /\ Plans.getPlan (Payment.plan_id pay) <> Plans.Null
  /\ Payment.amount pay = Plans.price_of (Plans.getPlan (Payment.plan_id pay)).

Definition sound_records (d : Db) : Prop :=
  Forall subscription_sound (JsMap.values (subscriptions d))
  /\ Forall payment_sound (JsMap.values (payments d)).

(** [appends n m]: running [m] leaves the entries of the audit log in
    place and adds at most [n]. *)
Definition appends {A} (n : nat) (m : M A) : Prop :=
  forall e w, exists l,
    auditLog (db (snd (m e w))) = auditLog (db w) ++ l /\ (List.length l <= n)%nat.

(** [ipnData.status] is one of [statuses]. *)
Definition status_among (statuses : list string) (ipnData : Ipn.IpnData) : bool :=
  match Ipn.field "status" ipnData with
  | Some status => existsb (String.eqb status) statuses
  | None => false
  end.

(** The audit entry [handlePaymentSucceeded] writes when it refuses a
    notification that names a user, a plan and an amount: its action and
    its details. *)
Definition refusal (ipnData : Ipn.IpnData) (planId amount : string) : string * Obj :=
  match Plans.getPlan planId with
  | Plans.Null =>
      ("invalid_plan",
       [("planId", VString planId); ("paymentToken", of_field (Ipn.field "token" ipnData))])
  | plan =>
      ("fraud_detected",
       [("paymentToken", of_field (Ipn.field "token" ipnData));
        ("expectedAmount", Plans.price_of plan);
        ("actualAmount", VNumber (Ipn.amountInCents amount));
        ("planId", VString planId)])
  end.

(** The payments of a user, in the order of the store. *)
Definition payments_of (userId : option string) (d : Db) : list Payment.t :=
  filter (fun payment =>
            match userId with
            | Some u => String.eqb (Payment.user_id payment) u
            | None => false
            end)
         (JsMap.values (payments d)).

(** The audit entries of a user (or, for [None], those without user),
    oldest first. *)
Definition trail_of (userId : option string) (d : Db) : list AuditEntry.t :=
  filter (fun log => Db_audit.same_user (AuditEntry.user_id log) userId) (auditLog d).

(** The active subscriptions [findActiveByUserId] finds for a user in a
    world. *)
Definition active_now (e : Env) (w : World) (uid : string) : list Subscription.t :=
  fst (active_from e (clock_reads w) (subscriptions_of (Some uid) (db w))).

Definition unauthorized : Response :=
  Json 401 [("error", VString "Unauthorized"); ("message", VString "Please log in to continue")].

(** The three stores of a site. *)
Definition stores (s : Site) : Db := db (world s).

(** The user [db.users.create] stores for a sign-up that passes every
    check, from the readings it takes. *)
Definition registered (h : Host) (s : Site) (email password name : string) : User.t :=
  User.mk (random (base h) (random_draws (world s))) (toLowerCase h email)
    (bcrypt_hash h (bcrypt_draws s) password) (JsString.trim name)
    (clock (base h) (clock_reads (world s))) (clock (base h) (S (clock_reads (world s))))
    None.

(** The world once [Date.now()] has been read. *)
Definition after_Date_now (w : World) : World :=
  mkWorld (db w) (S (clock_reads w)) (random_draws w) (calls w).

(** The fields of a record that no update changes. *)
Definition same_subscription (a b : Subscription.t) : Prop :=
  Subscription.id a = Subscription.id b
  /\ Subscription.user_id a = Subscription.user_id b
  /\ Subscription.plan_id a = Subscription.plan_id b
  /\ Subscription.stripe_subscription_id a = Subscription.stripe_subscription_id b
  /\ Subscription.expires_at a = Subscription.expires_at b
  /\ Subscription.created_at a = Subscription.created_at b.

Definition same_payment (a b : Payment.t) : Prop :=
  Payment.id a = Payment.id b
  /\ Payment.user_id a = Payment.user_id b
  /\ Payment.plan_id a = Payment.plan_id b
  /\ Payment.stripe_payment_intent_id a = Payment.stripe_payment_intent_id b
  /\ Payment.amount a = Payment.amount b
  /\ Payment.created_at a = Payment.created_at b.

(** None of the ids the random source gives from now on is in use. *)
Definition ids_unused (e : Env) (w : World) : Prop :=
  forall n,
    (random_draws w <= n)%nat ->
    JsMap.get (random e n) (subscriptions (db w)) = None
    /\ JsMap.get (random e n) (payments (db w)) = None.

(** [holds e I m]: running [m] in the environment [e] from a world that
    satisfies [I] ends in a world that satisfies [I]. *)
Definition holds {A} (e : Env) (I : World -> Prop) (m : M A) : Prop :=
  forall w, I w -> I (snd (m e w)).

(** Every record of [w0] is still stored in [w], under its key and with
    its fields but status and time of update; the random source has not
    been rewound. *)
Definition outlived (w0 w : World) : Prop :=
  (random_draws w0 <= random_draws w)%nat
  /\ (forall k sub,
        JsMap.get k (subscriptions (db w0)) = Some sub ->
        exists sub', JsMap.get k (subscriptions (db w)) = Some sub'
                     /\ same_subscription sub sub')
  /\ (forall k pay,
        JsMap.get k (payments (db w0)) = Some pay ->
        exists pay', JsMap.get k (payments (db w)) = Some pay' /\ same_payment pay pay').

(** The environment with one variable set anew. *)
Definition with_variable (name : string) (value : option string)
    (process_env : string -> option string) : string -> option string :=
  fun n => if String.eqb n name then value else process_env n.

(** An amount of [dollars] and [cents], written with two decimals. *)
Definition amount_text (dollars cents : Z) : string :=
  (Checkout.decimal dollars ++ "." ++ Checkout.decimal (cents / 10)
   ++ Checkout.decimal (cents mod 10))%string.

(** The integers from 0 to [n - 1]. *)
Definition below (n : nat) : list Z := map Z.of_nat (seq 0 n).

Definition cents_are_exact (dollars cents : Z) : bool :=
  JsNumber.strict_eq (Ipn.amountInCents (amount_text dollars cents))
                     (JsNumber.of_Z (100 * dollars + cents)).

(** All characters. *)
Definition all_ascii : list ascii := map ascii_of_nat (seq 0 256).

(** Neither string is the beginning of the other. *)
Fixpoint diverge (a b : string) : bool :=
  match a, b with
  | String x a', String y b' => if Ascii.eqb x y then diverge a' b' else true
  | _, _ => false
  end.

(** * Example data

    A deployment, some notifications and requests, and the worlds that
    sequences of requests lead to from the empty stores. *)

(** The process of [example_env] runs in UTC. *)
Definition example_env : Env :=
  mkEnv (fun n => 1700000000000 + 1000 * Z.of_nat n)
        (fun n => String.append "r" (string_of_list_ascii (repeat "7"%char n)))
        (fun _ _ => 0)
        (Some "ipn-shared-secret")
        "/srv/app/pdfs"
        (fun _ => Some 2048).

Definition initial : World := mkWorld empty_db 0 0 [].

(** A signature that verifies, for use in examples. *)
Definition sign (e : Env) (ipnData : Ipn.IpnData) : option string :=
  match PAYONEER_IPN_SECRET e with
  | Some key => Some (Sha256.hmac_hex key (Ipn.JSON_stringify ipnData))
  | None => None
  end.

Definition success_without_user : Ipn.IpnData :=
  [("status", "success"); ("token", "tok_1"); ("custom_param2", "starter"); ("amount", "98.00")].

Definition anonymous_request : Gate.Request :=
  Gate.mkRequest (Some (Gate.mkSession None None)) "health-wellness.pdf" (Some "203.0.113.9")
    None None None.

Definition subscriber_request : Gate.Request :=
  Gate.mkRequest (Some (Gate.mkSession (Some "u1") (Some "u1@example.org")))
    "../../etc/passwd" (Some "203.0.113.9") None None None.

Definition pending_raw : string := "status=pending&token=tok_1".

Definition pending_body : Ipn.IpnData := [("status", "pending"); ("token", "tok_1")].

Definition success_u1_starter : Ipn.IpnData :=
  [("status", "success"); ("token", "tok_1"); ("custom_param1", "u1");
   ("custom_param2", "starter"); ("amount", "98.00")].

(** The world after the signed notification [success_u1_starter] was
    delivered to the empty stores. *)
Definition after_first_delivery : World :=
  snd (serve (Webhook (sign example_env success_u1_starter) success_u1_starter)
             example_env initial).

Definition first_subscription : Subscription.t :=
  Subscription.mk "r" "u1" "starter" (Some "tok_1") "active"
    (1700000000000 + 30 * 86400000) 1700000001000 1700000002000.

Definition success_u1_professional : Ipn.IpnData :=
  [("status", "success"); ("token", "tok_2"); ("custom_param1", "u1");
   ("custom_param2", "professional"); ("amount", "498.00")].

(** Two checkouts by the same user, each confirmed by its notification. *)
Definition after_two_purchases : World :=
  let run r w := snd (serve r example_env w) in
  run (Webhook (sign example_env success_u1_professional) success_u1_professional)
    (run (Checkout "u1" "professional" "tok_2" (Some "203.0.113.9"))
       (run (Webhook (sign example_env success_u1_starter) success_u1_starter)
          (run (Checkout "u1" "starter" "tok_1" (Some "203.0.113.9")) initial))).

Definition refund_of_pending : Ipn.IpnData :=
  [("status", "refund"); ("token", "tok_2"); ("custom_param1", "u1");
   ("custom_param2", "starter")].

(** The user [u1] has paid for [starter] with the token [tok_1] and has
    opened a second checkout, token [tok_2], that is still pending. *)
Definition paid_once_and_pending : World :=
  let run r w := snd (serve r example_env w) in
  run (Checkout "u1" "starter" "tok_2" (Some "203.0.113.9"))
    (run (Webhook (sign example_env success_u1_starter) success_u1_starter)
       (run (Checkout "u1" "starter" "tok_1" (Some "203.0.113.9")) initial)).

Definition after_refund_of_pending : World :=
  snd (Ipn.webhook (sign example_env refund_of_pending) refund_of_pending example_env
         paid_once_and_pending).

Definition failed_tok_1 : Ipn.IpnData :=
  [("status", "failed"); ("token", "tok_1"); ("custom_param1", "u1");
   ("error_message", "card declined")].

(** The user [u1] has paid for [starter] with the token [tok_1]. *)
Definition paid_once : World :=
  let run r w := snd (serve r example_env w) in
  run (Webhook (sign example_env success_u1_starter) success_u1_starter)
    (run (Checkout "u1" "starter" "tok_1" (Some "203.0.113.9")) initial).

Definition completed_payment : Payment.t :=
  Payment.mk "r" "u1" "starter" "tok_1" (VNumber (JsNumber.of_Z 9800)) "completed"
    1700000000000 1700000006000.

Definition after_second_delivery : World :=
  snd (serve (Webhook (sign example_env success_u1_starter) success_u1_starter)
             example_env after_first_delivery).

Definition success_one_cent_over : Ipn.IpnData :=
  [("status", "success"); ("token", "tok_1"); ("custom_param1", "u1");
   ("custom_param2", "starter"); ("amount", "98.01")].

Definition after_checkout : World :=
  snd (serve (Checkout "u1" "starter" "tok_1" (Some "203.0.113.9")) example_env initial).

Definition after_one_cent_over : World :=
  snd (serve (Webhook (sign example_env success_one_cent_over) success_one_cent_over)
             example_env after_checkout).

Definition subscriber_wants_article : Gate.Request :=
  Gate.mkRequest (Some (Gate.mkSession (Some "u1") (Some "u1@example.org")))
    "article-1.pdf" (Some "203.0.113.9") None None None.

Definition pending_u1 : Ipn.IpnData :=
  [("status", "pending"); ("token", "tok_1"); ("custom_param1", "u1")].

Definition u1_request : Gate.Request :=
  Gate.mkRequest (Some (Gate.mkSession (Some "u1") (Some "u1@example.org")))
    "" (Some "203.0.113.9") None None None.

Definition u2_request : Gate.Request :=
  Gate.mkRequest (Some (Gate.mkSession (Some "u2") (Some "u2@example.org")))
    "" (Some "203.0.113.10") None None None.

(** A host for the examples: the hash keeps the password readable, which
    no theorem relies on. *)
Definition lower_ascii (c : ascii) : ascii :=
  let n := N_of_ascii c in
  if ((65 <=? n) && (n <=? 90))%N then ascii_of_N (n + 32) else c.

Fixpoint lower_case (s : string) : string :=
  match s with
  | EmptyString => EmptyString
  | String c s' => String (lower_ascii c) (lower_case s')
  end.

Definition example_host : Host :=
  mkHost example_env
    (fun n password => String.append "bcrypt:" password)
    (fun password hash => String.eqb hash (String.append "bcrypt:" password))
    lower_case
    (fun n => String.append "uuid-" (string_of_list_ascii (repeat "0"%char n)))
    (Some "true") (Some "key") (Some "client") (Some "https://shop.example").

Definition empty_site : Site := mkSite [] initial 0 0.

Definition alice : Auth.Credentials :=
  Auth.mkCredentials (Some "Alice@Example.org") (Some "CorrectHorse7!") (Some " Alice ")
    (Some "CorrectHorse7!").

Definition fresh_session : option Gate.Session := Some (Gate.mkSession None None).

(** The site after Alice signed up. *)
Definition alice_signed_up : Site :=
  snd (Auth.signup alice (Some "203.0.113.9") fresh_session example_host empty_site).

(** Alice, logged in, as the routes behind [requireAuth] see her. *)
Definition alice_request : Gate.Request :=
  Gate.mkRequest
    (snd (fst (Auth.signup alice (Some "203.0.113.9") fresh_session example_host empty_site)))
    "" (Some "203.0.113.9") None None None.

(** The site after Alice signed up and her payment for [starter] was
    confirmed. *)
Definition alice_subscribed : Site :=
  let notification :=
    [("status", "success"); ("token", "tok_a"); ("custom_param1", "r");
     ("custom_param2", "starter"); ("amount", "98.00")] in
  snd (lift (Ipn.webhook (sign example_env notification) notification)
         example_host alice_signed_up).

Definition example_process_env : string -> option string :=
  fun name =>
    if existsb (String.eqb name) Server.requiredEnv then Some "set" else None.

(** The example deployment without the IPN secret. *)
Definition example_env_without_secret : Env :=
  mkEnv (clock example_env) (random example_env) (LocalTZA example_env) None "/srv/app/pdfs"
    (fun _ => None).

(** A process in the time zone Europe/Berlin, started on 22 October 2023 at
    18:40:00 UTC: local time is two hours ahead of UTC until summer time
    ends on 29 October 2023 at 01:00:00 UTC (03:00:00 local time), one hour
    ahead from then on.  A local time met twice is read with the offset
    before the change. *)
Definition berlin_env : Env :=
  mkEnv (fun n => 1698000000000 + 1000 * Z.of_nat n)
        (random example_env)
        (fun t isUTC =>
           if isUTC
           then if t <? 1698541200000 then 7200000 else 3600000
           else if t <? 1698548400000 then 7200000 else 3600000)
        (Some "ipn-shared-secret")
        "/srv/app/pdfs"
        (fun _ => Some 2048).

(** * Properties *)

(** Splits a conjunction into its parts, and only a conjunction. *)
Ltac conjuncts := repeat match goal with |- _ /\ _ => split end.

(** ** Known answers for the library models *)

(** FIPS 180-4 examples and RFC 4231 test case 2; a key longer than a block. *)
Lemma sha256_known_answers :
  hex_of_bytes (Sha256.sha256 (bytes_of_string "")) =
    "e3b0c44298fc1c149afbf4c8996fb92427ae41e4649b934ca495991b7852b855" /\
  hex_of_bytes (Sha256.sha256 (bytes_of_string "abc")) =
    "ba7816bf8f01cfea414140de5dae2223b00361a396177a9cb410ff61f20015ad" /\
  hex_of_bytes
    (Sha256.sha256
       (bytes_of_string "abcdbcdecdefdefgefghfghighijhijkijkljklmklmnlmnomnopnopq")) =
    "248d6a61d20638b8e5c026930c3e6039a33ce45964ff2167f6ecedd419db06c1" /\
  Sha256.hmac_hex "Jefe" "what do ya want for nothing?" =
    "5bdcc146bf60754e6a042426089575c75a003f089d2739839dec58b964ec3843" /\
  Sha256.hmac_hex (string_of_list_ascii (repeat "k"%char 100))
                  (string_of_list_ascii (repeat "x"%char 200)) =
    "e326f00ce14194bb85e2683fe9b1a78851753f77479303f94c2c3cd1998bdda3".
Proof. conjuncts; vm_compute; reflexivity. Qed.

(** [Math.round(parseFloat(s) * 100)] on some strings: the products
    100.49999999999999, 9799.5 and 434.99999999999994 round as binary64
    does, not as the decimal fractions would. *)
Lemma amountInCents_known_answers :
  map Ipn.amountInCents ["98.00"; "98"; " 98.004usd"; "9.8e1"; "1.005"; "97.995"; "4.35"] =
  map JsNumber.of_Z [9800; 9800; 9800; 9800; 100; 9800; 435] /\
  map Ipn.amountInCents ["abc"; "."; "Infinity"; "-0.001"] =
  [JsNumber.NaN; JsNumber.NaN; S754_infinity false; S754_zero true] /\
  JsNumber.parseFloat "0.1" = S754_finite false 7205759403792794 (-56).
Proof. conjuncts; vm_compute; reflexivity. Qed.

Lemma JSON_stringify_known_answer :
  Ipn.JSON_stringify [("status", "success"); ("amount", "98.00")] =
  ("{" ++ quote ++ "status" ++ quote ++ ":" ++ quote ++ "success" ++ quote ++ "," ++
   quote ++ "amount" ++ quote ++ ":" ++ quote ++ "98.00" ++ quote ++ "}")%string.
Proof. vm_compute. reflexivity. Qed.

Lemma urlencoded_known_answers :
  Urlencoded.parse "status=success&amount=98.00&custom_param3=Unlimited+Annual%21" =
    Some [("status", "success"); ("amount", "98.00");
          ("custom_param3", "Unlimited Annual!")] /\
  Urlencoded.parse "a=1&a=2" = None /\
  Urlencoded.parse "a[b]=1" = None.
Proof. conjuncts; vm_compute; reflexivity. Qed.

(** ** Missing fields *)

(** C10: a correctly signed payment-success notification that lacks any of
    userId, planId or amount changes no store (no audit entry either) and
    is answered 200. *)
Theorem success_with_missing_field_writes_nothing :
  forall e w signature ipnData,
    Ipn.verifyPayoneerSignature (PAYONEER_IPN_SECRET e) ipnData signature = Ipn.Return true ->
    (Ipn.field "status" ipnData = Some "success" \/
     Ipn.field "status" ipnData = Some "approved") ->
    (required (Ipn.field "custom_param1" ipnData) = None \/
     required (Ipn.field "custom_param2" ipnData) = None \/
     required (Ipn.field "amount" ipnData) = None) ->
    fst (Ipn.webhook signature ipnData e w) = Json 200 [("received", VBool true)] /\
    db (snd (Ipn.webhook signature ipnData e w)) = db w.
Proof.
  intros e w signature ipnData Hsig Hstatus Hmissing.
  unfold Ipn.webhook, bind, env. rewrite Hsig.
  assert (Hd : Ipn.dispatch ipnData = Ipn.handlePaymentSucceeded ipnData).
  { unfold Ipn.dispatch. destruct Hstatus as [-> | ->]; reflexivity. }
  rewrite Hd. unfold Ipn.handlePaymentSucceeded, bind, enter, ret.
  destruct Hmissing as [-> | [-> | ->]]; simpl.
  - auto.
  - destruct (required (Ipn.field "custom_param1" ipnData)); auto.
  - destruct (required (Ipn.field "custom_param1" ipnData));
      destruct (required (Ipn.field "custom_param2" ipnData)); auto.
Qed.

(** The theorem at a signed success notification without [custom_param1]. *)
Lemma success_with_missing_field_writes_nothing_witness :
  Ipn.verifyPayoneerSignature (PAYONEER_IPN_SECRET example_env) success_without_user
    (sign example_env success_without_user) = Ipn.Return true /\
  required (Ipn.field "custom_param1" success_without_user) = None /\
  fst (Ipn.webhook (sign example_env success_without_user) success_without_user
         example_env initial) = Json 200 [("received", VBool true)] /\
  db (snd (Ipn.webhook (sign example_env success_without_user) success_without_user
             example_env initial)) = db initial.
Proof.
  assert (H : Ipn.verifyPayoneerSignature (PAYONEER_IPN_SECRET example_env) success_without_user
                (sign example_env success_without_user) = Ipn.Return true)
    by (vm_compute; reflexivity).
  split; [exact H | split; [reflexivity | ]].
  apply (success_with_missing_field_writes_nothing example_env initial _ _ H).
  - left; reflexivity.
  - left; reflexivity.
Defined.

(** ** Facts about the insertion-ordered map *)

Section JsMapFacts.

Context {V : Type}.
Implicit Types (m : JsMap.t V) (k : string) (v : V).

Lemma get_of_set_here m k v : JsMap.get k (JsMap.set k v m) = Some v.
Proof.
  induction m as [| [k' v'] m IH]; simpl.
  - now rewrite String.eqb_refl.
  - destruct (String.eqb k k') eqn:E; simpl.
    + now rewrite String.eqb_refl.
    + now rewrite E.
Qed.

Lemma get_of_set_elsewhere m k k' v :
  k' <> k -> JsMap.get k' (JsMap.set k v m) = JsMap.get k' m.
Proof.
  intros Hne. induction m as [| [k0 v0] m IH]; simpl.
  - apply String.eqb_neq in Hne. now rewrite Hne.
  - destruct (String.eqb k k0) eqn:E; simpl.
    + apply String.eqb_eq in E. subst k0.
      apply String.eqb_neq in Hne. now rewrite Hne.
    + now rewrite IH.
Qed.

Lemma get_some_entry m k v : JsMap.get k m = Some v -> In (k, v) m.
Proof.
  induction m as [| [k' v'] m IH]; simpl; [discriminate |].
  destruct (String.eqb k k') eqn:E.
  - apply String.eqb_eq in E. intros [= ->]. subst. now left.
  - intros H. right. auto.
Qed.

Lemma entry_get_some m k v : NoDup (JsMap.keys m) -> In (k, v) m -> JsMap.get k m = Some v.
Proof.
  induction m as [| [k' v'] m IH]; simpl; [tauto |].
  intros Hnd [Heq | Hin].
  - injection Heq as -> ->. now rewrite String.eqb_refl.
  - inversion Hnd as [| ? ? Hnotin Hnd']. subst.
    destruct (String.eqb k k') eqn:E.
    + apply String.eqb_eq in E. subst. exfalso. apply Hnotin.
      change k' with (fst (k', v)). now apply in_map.
    + auto.
Qed.

End JsMapFacts.

Section KeyedFacts.

Context {V : Type} (id : V -> string).
Implicit Types (m : JsMap.t V) (k : string) (v : V).

Lemma in_keys_of_set m k v k' :
  In k' (JsMap.keys (JsMap.set k v m)) -> k' = k \/ In k' (JsMap.keys m).
Proof.
  induction m as [| [k0 v0] m IH]; simpl.
  - intros [<- | []]. now left.
  - destruct (String.eqb k k0) eqn:E; simpl.
    + intros [<- | Hin]; [now left | right; now right].
    + intros [<- | Hin]; [right; now left |].
      destruct (IH Hin); [now left | right; now right].
Qed.

Lemma keyed_nil : keyed id [].
Proof. split; constructor. Qed.

Lemma keyed_set m k v : keyed id m -> id v = k -> keyed id (JsMap.set k v m).
Proof.
  intros [Hnd Hid] Hk. induction m as [| [k0 v0] m IH]; simpl.
  - split; [repeat constructor; simpl; tauto | repeat constructor; assumption].
  - inversion Hnd as [| ? ? Hnotin Hnd']. inversion Hid as [| ? ? Hid0 Hid']. subst.
    destruct (String.eqb (id v) k0) eqn:E.
    + apply String.eqb_eq in E. subst k0.
      split; [exact Hnd | constructor; [reflexivity | assumption]].
    + apply String.eqb_neq in E. destruct (IH Hnd' Hid') as [IHnd IHid].
      split.
      * simpl. constructor; [| exact IHnd].
        intros Hin. apply in_keys_of_set in Hin. destruct Hin; [congruence | tauto].
      * constructor; assumption.
Qed.

Lemma keyed_value_get m v : keyed id m -> In v (JsMap.values m) -> JsMap.get (id v) m = Some v.
Proof.
  intros [Hnd Hid] Hin. apply in_map_iff in Hin. destruct Hin as [[k v'] [Heq Hin]].
  simpl in Heq. subst v'. rewrite Forall_forall in Hid.
  specialize (Hid _ Hin). simpl in Hid. rewrite Hid. now apply entry_get_some.
Qed.

Lemma keyed_find_get m f v :
  keyed id m -> find f (JsMap.values m) = Some v -> JsMap.get (id v) m = Some v.
Proof.
  intros Hk Hf. apply find_some in Hf. now apply keyed_value_get.
Qed.

(** Replacing the first record a predicate finds by another record the
    predicate accepts: the predicate then finds the new one. *)
Lemma find_after_replace m f v v' :
  keyed id m -> find f (JsMap.values m) = Some v -> f v' = true ->
  find f (JsMap.values (JsMap.set (id v) v' m)) = Some v'.
Proof.
  intros [Hnd Hid] Hf Hv'. induction m as [| [k0 v0] m IH]; simpl in *; [discriminate |].
  inversion Hnd as [| ? ? Hnotin Hnd']. inversion Hid as [| ? ? Hid0 Hid']. subst.
  simpl in Hid0. destruct (f v0) eqn:Ef.
  - injection Hf as ->. rewrite Hid0, String.eqb_refl. simpl. now rewrite Hv'.
  - assert (Hne : id v <> k0).
    { intros Heq. apply Hnotin. apply find_some in Hf. destruct Hf as [Hin _].
      pose proof (keyed_value_get m v (conj Hnd' Hid') Hin) as Hget.
      apply get_some_entry in Hget. rewrite <- Heq.
      apply in_map_iff. exists (id v, v). split; [reflexivity | assumption]. }
    apply String.eqb_neq in Hne. rewrite Hne. simpl. rewrite Ef. now apply IH.
Qed.

End KeyedFacts.

(** ** Invariants of the stores along a computation *)

Section Keeps.

Variable P : Db -> Prop.

Lemma keeps_ret {A} (a : A) : keeps P (ret a).
Proof. intros e w H. exact H. Qed.

Lemma keeps_bind {A B} (m : M A) (f : A -> M B) :
  keeps P m -> (forall a, keeps P (f a)) -> keeps P (bind m f).
Proof.
  intros Hm Hf e w H. unfold bind. specialize (Hm e w H).
  destruct (m e w) as [a w']. now apply Hf.
Qed.

Lemma keeps_enter name : keeps P (enter name).
Proof. intros e w H. exact H. Qed.

Lemma keeps_env : keeps P env.
Proof. intros e w H. exact H. Qed.

Lemma keeps_get_db : keeps P get_db.
Proof. intros e w H. exact H. Qed.

Lemma keeps_new_Date : keeps P new_Date.
Proof. intros e w H. exact H. Qed.

Lemma keeps_random_id : keeps P random_id.
Proof. intros e w H. exact H. Qed.

Lemma keeps_findByStripeId tok : keeps P (Db_payments.findByStripeId tok).
Proof. intros e w H. exact H. Qed.

Lemma keeps_findByUserId u : keeps P (Db_subscriptions.findByUserId u).
Proof. intros e w H. exact H. Qed.

Lemma keeps_filter_active subs : keeps P (Db_subscriptions.filter_active subs).
Proof.
  induction subs as [| sub rest IH]; simpl.
  - apply keeps_ret.
  - apply keeps_bind.
    + destruct (String.eqb (Subscription.status sub) "active").
      * apply keeps_bind; [apply keeps_new_Date | intros; apply keeps_ret].
      * apply keeps_ret.
    + intros keep. apply keeps_bind; [exact IH | intros; apply keeps_ret].
Qed.

Lemma keeps_findActiveByUserId u : keeps P (Db_subscriptions.findActiveByUserId u).
Proof.
  unfold Db_subscriptions.findActiveByUserId.
  apply keeps_bind; [apply keeps_enter | intros _].
  apply keeps_bind; [apply keeps_findByUserId | intros subs; apply keeps_filter_active].
Qed.

End Keeps.

(** Breaks a [keeps] goal down along the structure of the computation;
    [leaf] is tried first, on the store operations. *)
Ltac keeps_walk_with leaf :=
  repeat first
    [ leaf
    | match goal with
      | |- keeps _ (ret _) => apply keeps_ret
      | |- keeps _ (enter _) => apply keeps_enter
      | |- keeps _ env => apply keeps_env
      | |- keeps _ get_db => apply keeps_get_db
      | |- keeps _ new_Date => apply keeps_new_Date
      | |- keeps _ random_id => apply keeps_random_id
      | |- keeps _ (Db_payments.findByStripeId _) => apply keeps_findByStripeId
      | |- keeps _ (Db_subscriptions.findByUserId _) => apply keeps_findByUserId
      | |- keeps _ (Db_subscriptions.findActiveByUserId _) => apply keeps_findActiveByUserId
      | |- keeps _ (match ?x with _ => _ end) => destruct x
      | |- keeps _ (bind _ _) => apply keeps_bind; [| intros ?]
      end ].

(** *** Well-formedness is kept by every write *)

Lemma wf_subscriptions_create u p tok ex :
  keeps wf (Db_subscriptions.create u p tok ex).
Proof.
  intros e w [Hs Hp]. simpl. split; [| exact Hp].
  now apply keyed_set.
Qed.

Lemma wf_payments_create u p tok amt : keeps wf (Db_payments.create u p tok amt).
Proof.
  intros e w [Hs Hp]. simpl. split; [exact Hs |].
  now apply keyed_set.
Qed.

Lemma wf_audit_log u a d : keeps wf (Db_audit.log u a d).
Proof. intros e w H. exact H. Qed.

Lemma wf_subscriptions_updateStatus k st :
  keeps wf (Db_subscriptions.updateStatus k st).
Proof.
  intros e w [Hs Hp]. unfold Db_subscriptions.updateStatus, bind, enter, get_db. simpl.
  destruct (JsMap.get k (subscriptions (db w))) as [sub |] eqn:E; simpl; [| now split].
  split; [| exact Hp]. apply keyed_set; [exact Hs |].
  simpl. apply get_some_entry in E. destruct Hs as [_ Hid].
  rewrite Forall_forall in Hid. exact (Hid _ E).
Qed.

Lemma wf_payments_updateStatus k st : keeps wf (Db_payments.updateStatus k st).
Proof.
  intros e w [Hs Hp]. unfold Db_payments.updateStatus, bind, enter, get_db. simpl.
  destruct (JsMap.get k (payments (db w))) as [pay |] eqn:E; simpl; [| now split].
  split; [exact Hs |]. apply keyed_set; [exact Hp |].
  simpl. apply get_some_entry in E. destruct Hp as [_ Hid].
  rewrite Forall_forall in Hid. exact (Hid _ E).
Qed.

Ltac wf_leaf :=
  idtac;
  match goal with
  | |- keeps _ (Db_subscriptions.create _ _ _ _) => apply wf_subscriptions_create
  | |- keeps _ (Db_payments.create _ _ _ _) => apply wf_payments_create
  | |- keeps _ (Db_audit.log _ _ _) => apply wf_audit_log
  | |- keeps _ (Db_subscriptions.updateStatus _ _) => apply wf_subscriptions_updateStatus
  | |- keeps _ (Db_payments.updateStatus _ _) => apply wf_payments_updateStatus
  end.

Ltac wf_walk := keeps_walk_with wf_leaf.

Lemma wf_handlePaymentSucceeded ipnData : keeps wf (Ipn.handlePaymentSucceeded ipnData).
Proof. unfold Ipn.handlePaymentSucceeded. cbv zeta. wf_walk. Qed.

Lemma wf_handlePaymentFailed ipnData : keeps wf (Ipn.handlePaymentFailed ipnData).
Proof. unfold Ipn.handlePaymentFailed. cbv zeta. wf_walk. Qed.

Lemma wf_handlePaymentPending ipnData : keeps wf (Ipn.handlePaymentPending ipnData).
Proof. unfold Ipn.handlePaymentPending. wf_walk. Qed.

Lemma wf_handlePaymentRefunded ipnData : keeps wf (Ipn.handlePaymentRefunded ipnData).
Proof. unfold Ipn.handlePaymentRefunded. cbv zeta. wf_walk. Qed.

Lemma wf_dispatch ipnData : keeps wf (Ipn.dispatch ipnData).
Proof.
  unfold Ipn.dispatch.
  keeps_walk_with
    ltac:(idtac;
          match goal with
          | |- keeps _ (Ipn.handlePaymentSucceeded _) => apply wf_handlePaymentSucceeded
          | |- keeps _ (Ipn.handlePaymentFailed _) => apply wf_handlePaymentFailed
          | |- keeps _ (Ipn.handlePaymentPending _) => apply wf_handlePaymentPending
          | |- keeps _ (Ipn.handlePaymentRefunded _) => apply wf_handlePaymentRefunded
          end).
Qed.

Lemma wf_webhook signature ipnData : keeps wf (Ipn.webhook signature ipnData).
Proof.
  unfold Ipn.webhook. apply keeps_bind; [apply keeps_env | intros e0].
  destruct (Ipn.verifyPayoneerSignature _ _ _) as [[|] | msg];
    keeps_walk_with
      ltac:(idtac; match goal with |- keeps _ (Ipn.dispatch _) => apply wf_dispatch end).
Qed.

Lemma wf_download req : keeps wf (Gate.download req).
Proof.
  unfold Gate.download, Gate.route, Gate.requireAuth, Gate.requireSubscription,
    Gate.download_handler, Gate.ALLOWED_FILES_has.
  cbv zeta. wf_walk.
Qed.

Lemma wf_serve r : keeps wf (serve r).
Proof.
  destruct r; simpl.
  - apply keeps_bind; [apply wf_webhook | intros; apply keeps_ret].
  - unfold create_checkout. wf_walk.
  - apply keeps_bind; [apply wf_download | intros; apply keeps_ret].
  - apply wf_audit_log.
Qed.

Lemma reachable_wf e w : reachable e w -> wf (db w).
Proof.
  induction 1 as [w H | w r _ IH].
  - rewrite H. split; apply keyed_nil.
  - now apply wf_serve.
Qed.

(** ** The access gate *)

Lemma filter_active_run subs e w :
  Db_subscriptions.filter_active subs e w =
  (fst (active_from e (clock_reads w) subs),
   mkWorld (db w) (snd (active_from e (clock_reads w) subs)) (random_draws w) (calls w)).
Proof.
  revert w. induction subs as [| sub rest IH]; intros w; simpl.
  - destruct w; reflexivity.
  - unfold bind. destruct (String.eqb (Subscription.status sub) "active"); simpl.
    + rewrite IH. simpl. destruct (active_from e (S (clock_reads w)) rest) as [kept n].
      reflexivity.
    + rewrite IH. simpl. reflexivity.
Qed.

Lemma findActiveByUserId_run u e w :
  Db_subscriptions.findActiveByUserId u e w =
  (fst (active_from e (clock_reads w) (subscriptions_of u (db w))),
   mkWorld (db w) (snd (active_from e (clock_reads w) (subscriptions_of u (db w))))
           (random_draws w)
           (calls w ++ ["db.subscriptions.findActiveByUserId"; "db.subscriptions.findByUserId"])).
Proof.
  unfold Db_subscriptions.findActiveByUserId, Db_subscriptions.findByUserId, bind, enter,
    get_db, ret.
  simpl. rewrite filter_active_run. simpl. rewrite <- app_assoc. reflexivity.
Qed.

(** C9: the download route runs session check, subscription check and
    whitelist check in this order: what a request enters is always an
    initial part of the pipeline.  A request without a logged-in session is
    answered 401 after [requireAuth] alone; a logged-in request for which
    the subscription store has no active record is answered 403 after the
    store was asked, without the whitelist being looked up; both for every
    file name. *)
Theorem download_checks_session_then_subscription_then_whitelist :
  forall e w req,
    (exists n,
       calls (snd (Gate.download req e w)) = calls w ++ firstn n download_pipeline) /\
    (session_user req = None ->
     fst (Gate.download req e w) =
       Json 401 [("error", VString "Unauthorized");
                 ("message", VString "Please log in to continue")] /\
     db (snd (Gate.download req e w)) = db w /\
     calls (snd (Gate.download req e w)) = calls w ++ ["requireAuth"]) /\
    (forall uid,
       session_user req = Some uid ->
       fst (Db_subscriptions.findActiveByUserId (Some uid) e w) = [] ->
       fst (Gate.download req e w) =
         Json 403 [("error", VString "Forbidden");
                   ("message", VString "Active subscription required")] /\
       db (snd (Gate.download req e w)) = db w /\
       calls (snd (Gate.download req e w)) =
         calls w ++ ["requireAuth"; "requireSubscription";
                     "db.subscriptions.findActiveByUserId";
                     "db.subscriptions.findByUserId"]).
Proof.
  intros e w req. split; [| split].
  - unfold Gate.download, Gate.route, Gate.requireAuth, bind, enter, ret.
    destruct (Gate.session req) as [s |]; [| exists 1%nat; reflexivity].
    destruct (required (Gate.session_userId s)) as [uid |] eqn:Huser;
      [| exists 1%nat; reflexivity].
    cbn [fst snd]. unfold Gate.requireSubscription, bind, enter, ret.
    cbn [Gate.userId fst snd]. rewrite Huser. rewrite findActiveByUserId_run.
    cbn [fst snd calls db clock_reads random_draws].
    destruct (fst (active_from _ _ _)) as [| first rest].
    { exists 4%nat. cbn [firstn download_pipeline]. now rewrite <- !app_assoc. }
    unfold Gate.download_handler, Gate.ALLOWED_FILES_has, bind, enter, ret, env.
    cbn [fst snd calls db clock_reads random_draws Gate.params_filename].
    destruct (JsMap.get (Gate.params_filename req) Gate.ALLOWED_FILES);
      cbn [negb fst snd calls];
      [| exists 6%nat; cbn [firstn download_pipeline]; now rewrite <- !app_assoc].
    destruct (negb (Gate.startsWith _ _));
      [exists 6%nat; cbn [firstn download_pipeline fst snd calls];
       now rewrite <- !app_assoc |].
    destruct (file_size e _);
      [exists 7%nat | exists 6%nat];
      cbn [firstn download_pipeline fst snd calls db Db_audit.log bind enter ret
           random_id new_Date get_db put_db clock_reads random_draws];
      now rewrite <- !app_assoc.
  - intros Hnone. unfold session_user in Hnone.
    unfold Gate.download, Gate.route, Gate.requireAuth, bind, enter, ret.
    destruct (Gate.session req) as [s |]; [rewrite Hnone |]; simpl; auto.
  - intros uid Huser Hnone. unfold session_user in Huser.
    rewrite findActiveByUserId_run in Hnone. simpl in Hnone.
    unfold Gate.download, Gate.route, Gate.requireAuth, bind, enter, ret.
    destruct (Gate.session req) as [s |]; [| discriminate].
    rewrite Huser. simpl.
    assert (Hid : Gate.session_userId s = Some uid).
    { unfold required in Huser. destruct (Gate.session_userId s) as [x |]; [| discriminate].
      destruct (String.eqb x ""); [discriminate | congruence]. }
    unfold Gate.requireSubscription, bind, enter, ret. simpl.
    rewrite Huser, Hid. rewrite findActiveByUserId_run. simpl.
    rewrite Hnone. simpl. repeat split. now rewrite <- !app_assoc.
Qed.

(** The theorem at a request without a user and at a logged-in request of
    a user without subscription, who asks for a path outside the whitelist. *)
Lemma download_checks_session_then_subscription_then_whitelist_witness :
  (session_user anonymous_request = None /\
   status_of (fst (Gate.download anonymous_request example_env initial)) = 401) /\
  (session_user subscriber_request = Some "u1" /\
   fst (Db_subscriptions.findActiveByUserId (Some "u1") example_env initial) = [] /\
   status_of (fst (Gate.download subscriber_request example_env initial)) = 403 /\
   ~ In "ALLOWED_FILES.has"
        (calls (snd (Gate.download subscriber_request example_env initial)))).
Proof.
  split.
  - split; [reflexivity |].
    destruct (download_checks_session_then_subscription_then_whitelist
                example_env initial anonymous_request) as [_ [H1 _]].
    destruct (H1 eq_refl) as [Hres _]. rewrite Hres. reflexivity.
  - split; [reflexivity | split; [reflexivity |]].
    destruct (download_checks_session_then_subscription_then_whitelist
                example_env initial subscriber_request) as [_ [_ H2]].
    destruct (H2 "u1" eq_refl eq_refl) as [Hres [_ Hcalls]].
    rewrite Hres, Hcalls. split; [reflexivity |].
    simpl. intros [H | [H | [H | [H | []]]]]; discriminate.
Defined.

(** ** Signature verification *)

Lemma hex_of_bytes_length l : String.length (hex_of_bytes l) = (2 * List.length l)%nat.
Proof. induction l as [| b l IH]; simpl; [reflexivity | rewrite IH; lia]. Qed.

Lemma digest_bytes_length s : List.length (Sha256.digest_bytes s) = 32%nat.
Proof. reflexivity. Qed.

Lemma hmac_hex_length key data : String.length (Sha256.hmac_hex key data) = 64%nat.
Proof.
  unfold Sha256.hmac_hex, Sha256.hmac, Sha256.sha256.
  rewrite hex_of_bytes_length, digest_bytes_length. reflexivity.
Qed.

Lemma bytes_of_string_length s : List.length (bytes_of_string s) = String.length s.
Proof.
  unfold bytes_of_string. rewrite length_map.
  induction s as [| c s IH]; simpl; [reflexivity | now rewrite IH].
Qed.

Lemma bytes_of_string_inj s1 s2 : bytes_of_string s1 = bytes_of_string s2 -> s1 = s2.
Proof.
  unfold bytes_of_string. revert s2.
  induction s1 as [| c1 s1 IH]; intros [| c2 s2]; simpl; try discriminate; [reflexivity |].
  intros [= Hc Hs]. apply N2Z.inj in Hc.
  apply (f_equal ascii_of_N) in Hc. rewrite !ascii_N_embedding in Hc.
  f_equal; [exact Hc | now apply IH].
Qed.

Lemma same_bytes_iff a b :
  List.length a = List.length b ->
  forallb (fun xy => fst xy =? snd xy) (combine a b) = true <-> a = b.
Proof.
  revert b. induction a as [| x a IH]; intros [| y b]; simpl; try discriminate.
  - tauto.
  - intros [= Hlen]. rewrite andb_true_iff, Z.eqb_eq, (IH b Hlen).
    split; [intros [-> ->]; reflexivity | intros [= -> ->]; tauto].
Qed.

Lemma required_some o s : required o = Some s <-> o = Some s /\ s <> "".
Proof.
  unfold required. destruct o as [x |]; [| split; [discriminate | intros [? _]; discriminate]].
  destruct (String.eqb x "") eqn:E.
  - apply String.eqb_eq in E. subst. split; [discriminate | intros [[= <-] H]; tauto].
  - apply String.eqb_neq in E. split; [intros [= ->]; tauto | intros [[= ->] _]; reflexivity].
Qed.

(** What [verifyPayoneerSignature] does on each kind of input. *)
Lemma verifyPayoneerSignature_cases secret ipnData signature :
  Ipn.verifyPayoneerSignature secret ipnData signature =
  match required signature, secret with
  | None, _ => Ipn.Return false
  | Some _, None => Ipn.Throw Ipn.invalid_key_message
  | Some s, Some key =>
      if Nat.eqb (String.length s) 64
      then Ipn.Return (String.eqb s (Sha256.hmac_hex key (Ipn.JSON_stringify ipnData)))
      else Ipn.Throw "Input buffers must have the same byte length"
  end.
Proof.
  unfold Ipn.verifyPayoneerSignature, Ipn.createHmac_sha256_hex, Ipn.timingSafeEqual.
  destruct (required signature) as [s |]; [| reflexivity].
  destruct secret as [key |]; [| reflexivity].
  rewrite !bytes_of_string_length, hmac_hex_length.
  destruct (Nat.eqb (String.length s) 64) eqn:Elen; [| reflexivity].
  apply Nat.eqb_eq in Elen. f_equal.
  destruct (String.eqb s _) eqn:E.
  - apply String.eqb_eq in E. apply same_bytes_iff.
    + now rewrite !bytes_of_string_length, hmac_hex_length.
    + now rewrite <- E.
  - apply String.eqb_neq in E. apply not_true_is_false. intros H.
    apply same_bytes_iff in H.
    + apply E. now apply bytes_of_string_inj.
    + now rewrite !bytes_of_string_length, hmac_hex_length.
Qed.

(** C6, as the code has it: the verifier hashes [JSON.stringify] of the
    parsed body, not the bytes that were delivered.  It accepts a header
    exactly when a secret is configured and the header is the lower-case hex
    HMAC-SHA256, under that secret, of the JSON text of the parsed body; the
    outcome is a function of the parsed body, the header and the secret. *)
Theorem signature_accepted_iff_hmac_of_json_text :
  forall secret ipnData signature,
    Ipn.verifyPayoneerSignature secret ipnData signature = Ipn.Return true <->
    exists key,
      secret = Some key /\
      signature = Some (Sha256.hmac_hex key (Ipn.JSON_stringify ipnData)).
Proof.
  intros secret ipnData signature. rewrite verifyPayoneerSignature_cases. split.
  - destruct (required signature) as [s |] eqn:Hs; [| discriminate].
    destruct secret as [key |]; [| discriminate].
    destruct (Nat.eqb (String.length s) 64); [| discriminate].
    intros [= H]. apply String.eqb_eq in H. apply required_some in Hs.
    destruct Hs as [-> _]. exists key. now subst.
  - intros [key [-> ->]].
    assert (Hreq : required (Some (Sha256.hmac_hex key (Ipn.JSON_stringify ipnData))) =
                   Some (Sha256.hmac_hex key (Ipn.JSON_stringify ipnData))).
    { apply required_some. split; [reflexivity |]. intros H.
      apply (f_equal String.length) in H. rewrite hmac_hex_length in H. discriminate. }
    rewrite Hreq, hmac_hex_length, Nat.eqb_refl, String.eqb_refl. reflexivity.
Qed.

(** C6, counterexample: for the form body [status=pending&token=tok_1] a
    header that is the HMAC of exactly these bytes is refused, and the HMAC
    of the JSON text of the parsed form is accepted. *)
Lemma signature_over_raw_bytes_is_refused :
  Urlencoded.parse pending_raw = Some pending_body /\
  Ipn.JSON_stringify pending_body <> pending_raw /\
  Ipn.verifyPayoneerSignature (Some "ipn-shared-secret") pending_body
    (Some (Sha256.hmac_hex "ipn-shared-secret" pending_raw)) = Ipn.Return false /\
  Ipn.verifyPayoneerSignature (Some "ipn-shared-secret") pending_body
    (Some (Sha256.hmac_hex "ipn-shared-secret" (Ipn.JSON_stringify pending_body)))
  = Ipn.Return true.
Proof.
  split; [reflexivity |].
  split; [intros H; vm_compute in H; discriminate |].
  split; vm_compute; reflexivity.
Qed.

(** ** Notifications that do not verify *)


(** A header of another length than the 64 characters of the hex digest
    makes [timingSafeEqual] throw, and the [catch] of the route answers 200. *)
Lemma wrong_length_signature_is_answered_200 e w signature s key ipnData :
  required signature = Some s ->
  String.length s <> 64%nat ->
  PAYONEER_IPN_SECRET e = Some key ->
  Ipn.webhook signature ipnData e w =
  (Json 200 [("received", VBool true);
             ("error", VString "Input buffers must have the same byte length")], w).
Proof.
  intros Hs Hlen Hkey. unfold Ipn.webhook, bind, env, ret.
  rewrite verifyPayoneerSignature_cases, Hs, Hkey.
  apply Nat.eqb_neq in Hlen. now rewrite Hlen.
Qed.

(** C5, at the failing input: the header [deadbeef] does not equal the HMAC
    of the body, and the route answers 200 instead of 401 (nothing is
    written and no handler runs). *)
Theorem short_invalid_signature_is_answered_200 :
  Some "deadbeef" <> sign example_env success_u1_starter /\
  Ipn.webhook (Some "deadbeef") success_u1_starter example_env initial =
  (Json 200 [("received", VBool true);
             ("error", VString "Input buffers must have the same byte length")],
   initial).
Proof.
  split.
  - intros H. vm_compute in H. discriminate.
  - now apply (wrong_length_signature_is_answered_200 _ _ _ "deadbeef" "ipn-shared-secret").
Qed.

(** ** The grant *)

Lemma no_grant_keeps_subscriptions_and_payments ipnData e w :
  granting ipnData (db w) = None ->
  subscriptions (db (snd (Ipn.handlePaymentSucceeded ipnData e w))) = subscriptions (db w) /\
  payments (db (snd (Ipn.handlePaymentSucceeded ipnData e w))) = payments (db w).
Proof.
  unfold granting, Ipn.handlePaymentSucceeded, Db_payments.findByStripeId, bind, enter, env,
    get_db, ret.
  fold (payment_of (Ipn.field "token" ipnData) (db w)).
  destruct (required (Ipn.field "custom_param1" ipnData)) as [userId |]; [| now split].
  destruct (required (Ipn.field "custom_param2" ipnData)) as [planId |]; [| now split].
  destruct (required (Ipn.field "amount" ipnData)) as [amount |]; [| now split].
  simpl.
  fold (payment_of (Ipn.field "token" ipnData) (db w)).
  destruct (payment_of (Ipn.field "token" ipnData) (db w)) as [pay |].
  - destruct (String.eqb (Payment.status pay) "completed"); [now split |].
    destruct (Plans.getPlan planId) as [p | |]; try (now split).
    destruct (JsNumber.strict_eq _ _); [discriminate | now split].
  - destruct (Plans.getPlan planId) as [p | |]; try (now split).
    destruct (JsNumber.strict_eq _ _); [discriminate | now split].
Qed.

Lemma payment_of_get d token pay :
  wf d -> payment_of token d = Some pay -> JsMap.get (Payment.id pay) (payments d) = Some pay.
Proof. intros [_ Hp] H. exact (keyed_find_get Payment.id _ _ _ Hp H). Qed.

(** What a granting notification writes. *)
Lemma grant_effect ipnData e w userId planId p :
  wf (db w) ->
  granting ipnData (db w) = Some (userId, planId, p) ->
  let token := Ipn.field "token" ipnData in
  let w' := snd (Ipn.handlePaymentSucceeded ipnData e w) in
  let sub :=
    Subscription.mk (random e (random_draws w)) userId planId token "active"
      (Ipn.setDate_plus e (clock e (clock_reads w)) (Plans.duration_days p))
      (clock e (S (clock_reads w))) (clock e (S (S (clock_reads w)))) in
  subscriptions (db w') = JsMap.set (random e (random_draws w)) sub (subscriptions (db w)) /\
  payments (db w') =
    match payment_of token (db w) with
    | Some pay =>
        JsMap.set (Payment.id pay)
          (Payment.with_status pay "completed" (clock e (S (S (S (clock_reads w))))))
          (payments (db w))
    | None => payments (db w)
    end /\
  exists entry,
    auditLog (db w') = auditLog (db w) ++ [entry] /\
    AuditEntry.action entry = "subscription_created".
Proof.
  intros Hwf.
  unfold granting, Ipn.handlePaymentSucceeded, Db_payments.findByStripeId, bind, enter, env,
    get_db, ret.
  fold (payment_of (Ipn.field "token" ipnData) (db w)).
  destruct (required (Ipn.field "custom_param1" ipnData)) as [u |]; [| discriminate].
  destruct (required (Ipn.field "custom_param2" ipnData)) as [pl |]; [| discriminate].
  destruct (required (Ipn.field "amount" ipnData)) as [amount |]; [| discriminate].
  simpl.
  fold (payment_of (Ipn.field "token" ipnData) (db w)).
  destruct (payment_of (Ipn.field "token" ipnData) (db w)) as [pay |] eqn:Hpay.
  - destruct (String.eqb (Payment.status pay) "completed"); [discriminate |].
    destruct (Plans.getPlan pl) as [p0 | |]; try discriminate.
    destruct (JsNumber.strict_eq _ _); [| discriminate].
    intros [= -> -> ->]. simpl.
    unfold Db_payments.updateStatus, bind, enter, get_db, ret. simpl.
    rewrite (payment_of_get _ _ _ Hwf Hpay). simpl.
    split; [reflexivity | split; [reflexivity |]].
    eexists. split; reflexivity.
  - destruct (Plans.getPlan pl) as [p0 | |]; try discriminate.
    destruct (JsNumber.strict_eq _ _); [| discriminate].
    intros [= -> -> ->]. simpl.
    split; [reflexivity | split; [reflexivity |]].
    eexists. split; reflexivity.
Qed.

(** *** Which handlers touch the subscriptions *)

Lemma subs_payments_updateStatus s0 k st :
  keeps (fun d => subscriptions d = s0) (Db_payments.updateStatus k st).
Proof.
  intros e w H. unfold Db_payments.updateStatus, bind, enter, get_db. simpl.
  destruct (JsMap.get k (payments (db w))); simpl; exact H.
Qed.

Lemma subs_audit_log s0 u a d :
  keeps (fun d => subscriptions d = s0) (Db_audit.log u a d).
Proof. intros e w H. exact H. Qed.

Lemma subs_payments_create s0 u p tok amt :
  keeps (fun d => subscriptions d = s0) (Db_payments.create u p tok amt).
Proof. intros e w H. exact H. Qed.

Ltac subs_leaf :=
  idtac;
  match goal with
  | |- keeps _ (Db_payments.updateStatus _ _) => apply subs_payments_updateStatus
  | |- keeps _ (Db_payments.create _ _ _ _) => apply subs_payments_create
  | |- keeps _ (Db_audit.log _ _ _) => apply subs_audit_log
  end.

Lemma handlePaymentFailed_keeps_subscriptions ipnData e w :
  subscriptions (db (snd (Ipn.handlePaymentFailed ipnData e w))) = subscriptions (db w).
Proof.
  assert (H : keeps (fun d => subscriptions d = subscriptions (db w))
                    (Ipn.handlePaymentFailed ipnData)).
  { unfold Ipn.handlePaymentFailed. cbv zeta. keeps_walk_with subs_leaf. }
  now apply H.
Qed.

Lemma handlePaymentPending_keeps_subscriptions ipnData e w :
  subscriptions (db (snd (Ipn.handlePaymentPending ipnData e w))) = subscriptions (db w).
Proof.
  assert (H : keeps (fun d => subscriptions d = subscriptions (db w))
                    (Ipn.handlePaymentPending ipnData)).
  { unfold Ipn.handlePaymentPending. keeps_walk_with subs_leaf. }
  now apply H.
Qed.





(** The first payment with a token, after its status was set in place. *)
Lemma payment_of_after_update d token pay st t :
  wf d -> payment_of token d = Some pay ->
  find (fun payment =>
          match token with
          | Some tok => String.eqb (Payment.stripe_payment_intent_id payment) tok
          | None => false
          end)
       (JsMap.values (JsMap.set (Payment.id pay) (Payment.with_status pay st t) (payments d)))
  = Some (Payment.with_status pay st t).
Proof.
  intros [_ Hp] Hpay. unfold payment_of in Hpay.
  apply (find_after_replace Payment.id _ _ pay); [exact Hp | exact Hpay |].
  apply find_some in Hpay. exact (proj2 Hpay).
Qed.

Lemma webhook_verified e w signature ipnData :
  Ipn.verifyPayoneerSignature (PAYONEER_IPN_SECRET e) ipnData signature = Ipn.Return true ->
  Ipn.webhook signature ipnData e w =
  (Json 200 [("received", VBool true)], snd (Ipn.dispatch ipnData e w)).
Proof.
  intros H. unfold Ipn.webhook, bind, env, ret. rewrite H.
  destruct (Ipn.dispatch ipnData e w). reflexivity.
Qed.



(** *** The requests that are no notification *)






Lemma reachable_initial : reachable example_env initial.
Proof. apply reachable_start. reflexivity. Qed.



(** ** One user, several active subscriptions *)

Lemma active_before_0 subs : active_before 0 subs = 0%nat.
Proof. reflexivity. Qed.

Lemma active_before_S_active i s rest :
  String.eqb (Subscription.status s) "active" = true ->
  active_before (S i) (s :: rest) = S (active_before i rest).
Proof. intros H. unfold active_before. simpl. rewrite H. reflexivity. Qed.

Lemma active_before_S_other i s rest :
  String.eqb (Subscription.status s) "active" = false ->
  active_before (S i) (s :: rest) = active_before i rest.
Proof. intros H. unfold active_before. simpl. rewrite H. reflexivity. Qed.

(** What [filter_active] keeps: the records with the status ['active']
    whose expiry lies after the reading of the clock taken for them. *)
Lemma active_from_exact e reads subs sub :
  In sub (fst (active_from e reads subs)) <->
  exists i,
    nth_error subs i = Some sub /\
    Subscription.status sub = "active" /\
    clock e (reads + active_before i subs) < Subscription.expires_at sub.
Proof.
  revert reads. induction subs as [| s rest IH]; intros reads.
  - simpl. split; [intros [] |]. intros [[| i] [H _]]; discriminate H.
  - simpl. destruct (String.eqb (Subscription.status s) "active") eqn:Est.
    + specialize (IH (S reads)).
      destruct (active_from e (S reads) rest) as [kept n]. cbn [fst] in *.
      assert (Hhere : In sub (if clock e reads <? Subscription.expires_at s
                              then s :: kept else kept) <->
                      (s = sub /\ clock e reads < Subscription.expires_at s) \/ In sub kept).
      { destruct (clock e reads <? Subscription.expires_at s) eqn:Eclk.
        - apply Z.ltb_lt in Eclk. simpl. tauto.
        - apply Z.ltb_ge in Eclk. split; [now right |]. intros [[_ H] | H]; [lia | exact H]. }
      rewrite Hhere, IH. split.
      * intros [[<- Hclk] | [i [Hi [Hst Hclk]]]].
        -- exists 0%nat. split; [reflexivity |]. split; [now apply String.eqb_eq |].
           rewrite active_before_0, Nat.add_0_r. exact Hclk.
        -- exists (S i). split; [exact Hi |]. split; [exact Hst |].
           rewrite (active_before_S_active _ _ _ Est), Nat.add_succ_r. exact Hclk.
      * intros [[| i] [Hi [Hst Hclk]]].
        -- left. injection Hi as ->.
           rewrite active_before_0, Nat.add_0_r in Hclk. now split.
        -- right. exists i. split; [exact Hi |]. split; [exact Hst |].
           rewrite (active_before_S_active _ _ _ Est), Nat.add_succ_r in Hclk. exact Hclk.
    + rewrite IH. split.
      * intros [i [Hi [Hst Hclk]]]. exists (S i). split; [exact Hi |]. split; [exact Hst |].
        rewrite (active_before_S_other _ _ _ Est). exact Hclk.
      * intros [[| i] [Hi [Hst Hclk]]].
        -- injection Hi as ->. apply String.eqb_neq in Est. contradiction.
        -- exists i. split; [exact Hi |]. split; [exact Hst |].
           rewrite (active_before_S_other _ _ _ Est) in Hclk. exact Hclk.
Qed.

(** C4, as the code has it: nothing is superseded.  In a reachable state,
    processing a payment-success notification leaves every subscription
    stored under another id than the one newly drawn exactly as it was, and
    either changes nothing in the subscription store or puts one active
    record under the new id; earlier active records of the same user stay
    active.  [findActiveByUserId] returns exactly the stored records of the
    user that have the status active and expire after the reading of the
    clock taken for them, however many there are: the record at position
    [i] among the user's records, in the order of the store, is compared
    with the reading that follows one reading for each active record
    before it. *)
Theorem success_supersedes_nothing :
  forall e w ipnData,
    reachable e w ->
    (forall k,
       k <> random e (random_draws w) ->
       JsMap.get k (subscriptions (db (snd (Ipn.handlePaymentSucceeded ipnData e w)))) =
       JsMap.get k (subscriptions (db w))) /\
    (subscriptions (db (snd (Ipn.handlePaymentSucceeded ipnData e w))) = subscriptions (db w) \/
     exists sub,
       Subscription.status sub = "active" /\
       subscriptions (db (snd (Ipn.handlePaymentSucceeded ipnData e w))) =
       JsMap.set (random e (random_draws w)) sub (subscriptions (db w))) /\
    (forall userId sub,
       In sub (fst (Db_subscriptions.findActiveByUserId (Some userId) e w)) <->
       exists i,
         nth_error (subscriptions_of (Some userId) (db w)) i = Some sub /\
         Subscription.status sub = "active" /\
         clock e (clock_reads w + active_before i (subscriptions_of (Some userId) (db w)))
         < Subscription.expires_at sub).
Proof.
  intros e w ipnData Hreach. pose proof (reachable_wf _ _ Hreach) as Hwf.
  assert (Hall : forall userId sub,
             In sub (fst (Db_subscriptions.findActiveByUserId (Some userId) e w)) <->
             exists i,
               nth_error (subscriptions_of (Some userId) (db w)) i = Some sub /\
               Subscription.status sub = "active" /\
               clock e (clock_reads w
                        + active_before i (subscriptions_of (Some userId) (db w)))
               < Subscription.expires_at sub).
  { intros userId sub. rewrite findActiveByUserId_run. cbn [fst].
    apply active_from_exact. }
  destruct (granting ipnData (db w)) as [[[userId planId] p] |] eqn:Hg.
  - destruct (grant_effect ipnData e w userId planId p Hwf Hg) as [Hsubs _].
    cbv zeta in Hsubs. rewrite Hsubs. split; [| split; [| exact Hall]].
    + intros k Hne. now apply get_of_set_elsewhere.
    + right. eexists. split; [| reflexivity]. reflexivity.
  - destruct (no_grant_keeps_subscriptions_and_payments ipnData e w Hg) as [Hs _].
    rewrite Hs. split; [reflexivity | split; [now left | exact Hall]].
Qed.

Lemma reachable_after_first_delivery : reachable example_env after_first_delivery.
Proof. apply reachable_serve. exact reachable_initial. Qed.

(** The theorem at a second purchase of the user [u1]: the subscription of
    the first purchase is still there, unchanged, and it is among the
    active subscriptions of [u1], being the first record of [u1] and
    expiring after the first reading of the clock. *)
Lemma success_supersedes_nothing_witness :
  reachable example_env after_first_delivery /\
  JsMap.get "r"
    (subscriptions
       (db (snd (Ipn.handlePaymentSucceeded success_u1_professional example_env
                   after_first_delivery))))
  = Some first_subscription /\
  In first_subscription
     (fst (Db_subscriptions.findActiveByUserId (Some "u1") example_env after_first_delivery)).
Proof.
  split; [exact reachable_after_first_delivery |].
  destruct (success_supersedes_nothing example_env after_first_delivery
              success_u1_professional reachable_after_first_delivery) as [Hk [_ Hall]].
  split.
  - rewrite Hk.
    + vm_compute. reflexivity.
    + intros H. vm_compute in H. discriminate.
  - apply (proj2 (Hall "u1" first_subscription)). exists 0%nat.
    split; [vm_compute; reflexivity |]. split; [reflexivity |].
    vm_compute. reflexivity.
Defined.

(** C4, counterexample: after two confirmed purchases by the user [u1],
    a reachable state, [findActiveByUserId] returns two records for [u1]. *)
Lemma two_active_subscriptions_for_one_user :
  reachable example_env after_two_purchases /\
  List.length (fst (Db_subscriptions.findActiveByUserId (Some "u1") example_env
                      after_two_purchases)) = 2%nat /\
  map Subscription.stripe_subscription_id
      (fst (Db_subscriptions.findActiveByUserId (Some "u1") example_env after_two_purchases))
  = [Some "tok_1"; Some "tok_2"].
Proof.
  split.
  - unfold after_two_purchases. cbv zeta. repeat apply reachable_serve.
    exact reachable_initial.
  - split; vm_compute; reflexivity.
Qed.

(** Reduces the projections of worlds and stores and the pairs that the
    steps of a computation return, and nothing else. *)
Ltac run_steps :=
  cbn [db subscriptions payments auditLog clock_reads random_draws calls fst snd
       put_db new_Date random_id Db_audit.log bind enter ret get_db].

(** ** Refunds *)

Lemma refund_target_get ipnData d s :
  wf d -> refund_target ipnData d = Some s ->
  JsMap.get (Subscription.id s) (subscriptions d) = Some s.
Proof.
  intros [Hs _] H. unfold refund_target, subscriptions_of in H.
  apply find_some in H. destruct H as [Hin _]. apply filter_In in Hin.
  apply (keyed_value_get Subscription.id); tauto.
Qed.

Lemma refund_effect ipnData e w :
  wf (db w) ->
  let token := Ipn.field "token" ipnData in
  let w' := snd (Ipn.handlePaymentRefunded ipnData e w) in
  (match refund_target ipnData (db w) with
   | Some s =>
       exists t,
         subscriptions (db w') =
         JsMap.set (Subscription.id s) (Subscription.with_status s "canceled" t)
                   (subscriptions (db w))
   | None => subscriptions (db w') = subscriptions (db w)
   end) /\
  (match payment_of token (db w) with
   | Some pay =>
       exists t,
         payments (db w') =
         JsMap.set (Payment.id pay) (Payment.with_status pay "refunded" t) (payments (db w))
   | None => payments (db w') = payments (db w)
   end) /\
  exists entry,
    auditLog (db w') = auditLog (db w) ++ [entry] /\
    AuditEntry.action entry = "payment_refunded" /\
    AuditEntry.user_id entry = Ipn.field "custom_param1" ipnData.
Proof.
  intros Hwf. cbv zeta.
  unfold Ipn.handlePaymentRefunded, Db_subscriptions.findByUserId,
    Db_payments.findByStripeId, bind, enter, get_db, ret.
  run_steps.
  fold (subscriptions_of (Ipn.field "custom_param1" ipnData) (db w)).
  fold (refund_target ipnData (db w)).
  destruct (refund_target ipnData (db w)) as [s |] eqn:Hs.
  - unfold Db_subscriptions.updateStatus, bind, enter, get_db, ret. run_steps.
    rewrite (refund_target_get _ _ _ Hwf Hs). run_steps.
    fold (payment_of (Ipn.field "token" ipnData) (db w)).
    destruct (payment_of (Ipn.field "token" ipnData) (db w)) as [pay |] eqn:Hpay.
    + unfold Db_payments.updateStatus, bind, enter, get_db, ret. run_steps.
      rewrite (payment_of_get _ _ _ Hwf Hpay). run_steps.
      split; [eexists; reflexivity | split; [eexists; reflexivity |]].
      eexists. repeat split.
    + run_steps. split; [eexists; reflexivity | split; [reflexivity |]].
      eexists. repeat split.
  - run_steps. fold (payment_of (Ipn.field "token" ipnData) (db w)).
    destruct (payment_of (Ipn.field "token" ipnData) (db w)) as [pay |] eqn:Hpay.
    + unfold Db_payments.updateStatus, bind, enter, get_db, ret. run_steps.
      rewrite (payment_of_get _ _ _ Hwf Hpay). run_steps.
      split; [reflexivity | split; [eexists; reflexivity |]].
      eexists. repeat split.
    + run_steps. split; [reflexivity | split; [reflexivity |]].
      eexists. repeat split.
Qed.

(** C7, as the code has it: for a verified refund notification the handler
    does not look at the token to find the subscription, nor at the status
    of the payment attempt.  In a reachable state it cancels the first
    subscription on record of the notification's user with the
    notification's plan, if there is one; it sets the first payment attempt
    with the token to refunded, whatever its status was, if there is one; it
    appends one audit entry; and the route answers 200. *)
Theorem refund_cancels_by_user_and_plan :
  forall e w signature ipnData,
    reachable e w ->
    Ipn.verifyPayoneerSignature (PAYONEER_IPN_SECRET e) ipnData signature = Ipn.Return true ->
    Ipn.field "status" ipnData = Some "refund" ->
    fst (Ipn.webhook signature ipnData e w) = Json 200 [("received", VBool true)] /\
    (match refund_target ipnData (db w) with
     | Some s =>
         exists t,
           subscriptions (db (snd (Ipn.webhook signature ipnData e w))) =
           JsMap.set (Subscription.id s) (Subscription.with_status s "canceled" t)
                     (subscriptions (db w))
     | None =>
         subscriptions (db (snd (Ipn.webhook signature ipnData e w))) = subscriptions (db w)
     end) /\
    (match payment_of (Ipn.field "token" ipnData) (db w) with
     | Some pay =>
         exists t,
           payments (db (snd (Ipn.webhook signature ipnData e w))) =
           JsMap.set (Payment.id pay) (Payment.with_status pay "refunded" t) (payments (db w))
     | None =>
         payments (db (snd (Ipn.webhook signature ipnData e w))) = payments (db w)
     end) /\
    exists entry,
      auditLog (db (snd (Ipn.webhook signature ipnData e w))) = auditLog (db w) ++ [entry] /\
      AuditEntry.action entry = "payment_refunded" /\
      AuditEntry.user_id entry = Ipn.field "custom_param1" ipnData.
Proof.
  intros e w signature ipnData Hreach Hsig Hstatus.
  rewrite (webhook_verified _ _ _ _ Hsig). cbn [fst snd].
  assert (Hd : Ipn.dispatch ipnData = Ipn.handlePaymentRefunded ipnData).
  { unfold Ipn.dispatch. rewrite Hstatus. reflexivity. }
  rewrite Hd. split; [reflexivity |].
  exact (refund_effect ipnData e w (reachable_wf _ _ Hreach)).
Qed.

Lemma reachable_paid_once_and_pending : reachable example_env paid_once_and_pending.
Proof.
  unfold paid_once_and_pending. cbv zeta. repeat apply reachable_serve.
  exact reachable_initial.
Qed.

(** The theorem at the refund notification [refund_of_pending]. *)
Lemma refund_cancels_by_user_and_plan_witness :
  reachable example_env paid_once_and_pending /\
  Ipn.verifyPayoneerSignature (PAYONEER_IPN_SECRET example_env) refund_of_pending
    (sign example_env refund_of_pending) = Ipn.Return true /\
  Ipn.field "status" refund_of_pending = Some "refund" /\
  fst (Ipn.webhook (sign example_env refund_of_pending) refund_of_pending example_env
         paid_once_and_pending) = Json 200 [("received", VBool true)].
Proof.
  assert (Hsig : Ipn.verifyPayoneerSignature (PAYONEER_IPN_SECRET example_env)
                   refund_of_pending (sign example_env refund_of_pending) = Ipn.Return true)
    by (vm_compute; reflexivity).
  split; [exact reachable_paid_once_and_pending | split; [exact Hsig | split; [reflexivity |]]].
  exact (proj1 (refund_cancels_by_user_and_plan example_env paid_once_and_pending
                  (sign example_env refund_of_pending) refund_of_pending
                  reachable_paid_once_and_pending Hsig eq_refl)).
Defined.

(** C7, counterexample: a verified refund notification for the pending
    token [tok_2].  The payment attempt of [tok_2] passes from pending to
    refunded, and the subscription paid with [tok_1] is canceled. *)
Lemma refund_of_pending_token_changes_both_stores :
  reachable example_env paid_once_and_pending /\
  map (fun p => (Payment.stripe_payment_intent_id p, Payment.status p))
      (JsMap.values (payments (db paid_once_and_pending)))
  = [("tok_1", "completed"); ("tok_2", "pending")] /\
  map (fun p => (Payment.stripe_payment_intent_id p, Payment.status p))
      (JsMap.values (payments (db after_refund_of_pending)))
  = [("tok_1", "completed"); ("tok_2", "refunded")] /\
  map (fun s => (Subscription.stripe_subscription_id s, Subscription.status s))
      (JsMap.values (subscriptions (db paid_once_and_pending)))
  = [(Some "tok_1", "active")] /\
  map (fun s => (Subscription.stripe_subscription_id s, Subscription.status s))
      (JsMap.values (subscriptions (db after_refund_of_pending)))
  = [(Some "tok_1", "canceled")].
Proof.
  split; [exact reachable_paid_once_and_pending |].
  conjuncts; vm_compute; reflexivity.
Qed.

(** ** Payment status transitions *)

Lemma payments_updateStatus_effect e w pay st :
  JsMap.get (Payment.id pay) (payments (db w)) = Some pay ->
  payments (db (snd (Db_payments.updateStatus (Payment.id pay) st e w))) =
  JsMap.set (Payment.id pay) (Payment.with_status pay st (clock e (clock_reads w)))
            (payments (db w)).
Proof.
  intros Hget. unfold Db_payments.updateStatus, bind, enter, get_db, ret. run_steps.
  rewrite Hget. run_steps. reflexivity.
Qed.

Lemma failed_effect ipnData e w pay :
  wf (db w) ->
  payment_of (Ipn.field "token" ipnData) (db w) = Some pay ->
  payments (db (snd (Ipn.handlePaymentFailed ipnData e w))) =
  JsMap.set (Payment.id pay) (Payment.with_status pay "failed" (clock e (clock_reads w)))
            (payments (db w)).
Proof.
  intros Hwf Hpay.
  unfold Ipn.handlePaymentFailed, Db_payments.findByStripeId, bind, enter, get_db, ret.
  run_steps. fold (payment_of (Ipn.field "token" ipnData) (db w)). rewrite Hpay.
  unfold Db_payments.updateStatus, bind, enter, get_db, ret. run_steps.
  rewrite (payment_of_get _ _ _ Hwf Hpay). run_steps. reflexivity.
Qed.

(** C8, as the code has it: no transition is refused.  In a reachable
    state, for the payment attempt on record for a notification's token and
    whatever its current status, [db.payments.updateStatus] stores any
    status it is given, a failure notification sets the status to failed
    and a refund notification sets it to refunded; each call also renews
    [updated_at]. *)
Theorem payment_status_is_overwritten :
  forall e w ipnData pay,
    reachable e w ->
    payment_of (Ipn.field "token" ipnData) (db w) = Some pay ->
    (forall st,
       JsMap.get (Payment.id pay)
         (payments (db (snd (Db_payments.updateStatus (Payment.id pay) st e w)))) =
       Some (Payment.with_status pay st (clock e (clock_reads w)))) /\
    payment_of (Ipn.field "token" ipnData) (db (snd (Ipn.handlePaymentFailed ipnData e w))) =
      Some (Payment.with_status pay "failed" (clock e (clock_reads w))) /\
    exists t,
      payment_of (Ipn.field "token" ipnData) (db (snd (Ipn.handlePaymentRefunded ipnData e w))) =
      Some (Payment.with_status pay "refunded" t).
Proof.
  intros e w ipnData pay Hreach Hpay. pose proof (reachable_wf _ _ Hreach) as Hwf.
  split; [| split].
  - intros st. rewrite payments_updateStatus_effect by now apply (payment_of_get _ _ _ Hwf Hpay).
    apply get_of_set_here.
  - unfold payment_of at 1. rewrite (failed_effect _ _ _ _ Hwf Hpay).
    now apply payment_of_after_update.
  - destruct (refund_effect ipnData e w Hwf) as [_ [Hpays _]]. cbv zeta in Hpays.
    rewrite Hpay in Hpays. destruct Hpays as [t Hpays]. exists t.
    unfold payment_of at 1. rewrite Hpays. now apply payment_of_after_update.
Qed.

Lemma reachable_paid_once : reachable example_env paid_once.
Proof.
  unfold paid_once. cbv zeta. repeat apply reachable_serve. exact reachable_initial.
Qed.

(** The theorem at a failure notification for a completed payment. *)
Lemma payment_status_is_overwritten_witness :
  reachable example_env paid_once /\
  payment_of (Ipn.field "token" failed_tok_1) (db paid_once) = Some completed_payment /\
  payment_of (Ipn.field "token" failed_tok_1)
    (db (snd (Ipn.handlePaymentFailed failed_tok_1 example_env paid_once))) =
  Some (Payment.with_status completed_payment "failed"
          (clock example_env (clock_reads paid_once))).
Proof.
  assert (Hpay : payment_of (Ipn.field "token" failed_tok_1) (db paid_once)
                 = Some completed_payment) by (vm_compute; reflexivity).
  split; [exact reachable_paid_once | split; [exact Hpay |]].
  exact (proj1 (proj2 (payment_status_is_overwritten example_env paid_once failed_tok_1
                         completed_payment reachable_paid_once Hpay))).
Defined.

(** C8, counterexample: a verified failure notification for a token whose
    payment attempt is completed moves it from completed to failed; the
    subscription it paid for stays active. *)
Lemma completed_payment_becomes_failed :
  reachable example_env paid_once /\
  Ipn.verifyPayoneerSignature (PAYONEER_IPN_SECRET example_env) failed_tok_1
    (sign example_env failed_tok_1) = Ipn.Return true /\
  map Payment.status (JsMap.values (payments (db paid_once))) = ["completed"] /\
  map Payment.status
      (JsMap.values
         (payments (db (snd (Ipn.webhook (sign example_env failed_tok_1) failed_tok_1
                               example_env paid_once))))) = ["failed"] /\
  map Subscription.status
      (JsMap.values
         (subscriptions (db (snd (Ipn.webhook (sign example_env failed_tok_1) failed_tok_1
                                    example_env paid_once))))) = ["active"].
Proof.
  split; [exact reachable_paid_once |].
  conjuncts; vm_compute; reflexivity.
Qed.

(** ** Redelivery *)

Lemma completed_payment_skips ipnData e w pay :
  payment_of (Ipn.field "token" ipnData) (db w) = Some pay ->
  Payment.status pay = "completed" ->
  db (snd (Ipn.handlePaymentSucceeded ipnData e w)) = db w.
Proof.
  intros Hpay Hst.
  unfold Ipn.handlePaymentSucceeded, Db_payments.findByStripeId, bind, enter, get_db, ret.
  destruct (required (Ipn.field "custom_param1" ipnData)) as [userId |]; [| reflexivity].
  destruct (required (Ipn.field "custom_param2" ipnData)) as [planId |]; [| reflexivity].
  destruct (required (Ipn.field "amount" ipnData)) as [amount |]; [| reflexivity].
  run_steps. fold (payment_of (Ipn.field "token" ipnData) (db w)).
  rewrite Hpay, Hst. reflexivity.
Qed.

(** Where the idempotency check works: when a payment attempt is on record
    for the token, a notification that granted writes nothing when it is
    delivered again. *)
Lemma redelivery_with_payment_on_record_writes_nothing ipnData e w pay g :
  wf (db w) ->
  payment_of (Ipn.field "token" ipnData) (db w) = Some pay ->
  granting ipnData (db w) = Some g ->
  db (snd (Ipn.handlePaymentSucceeded ipnData e
             (snd (Ipn.handlePaymentSucceeded ipnData e w)))) =
  db (snd (Ipn.handlePaymentSucceeded ipnData e w)).
Proof.
  intros Hwf Hpay Hg. destruct g as [[userId planId] p].
  destruct (grant_effect ipnData e w userId planId p Hwf Hg) as [_ [Hpays _]].
  cbv zeta in Hpays. rewrite Hpay in Hpays.
  apply (completed_payment_skips _ _ _
           (Payment.with_status pay "completed" (clock e (S (S (S (clock_reads w))))))).
  - unfold payment_of. rewrite Hpays. now apply payment_of_after_update.
  - reflexivity.
Qed.

(** C1, at the failing input: the signed notification [success_u1_starter]
    delivered twice to the empty stores, where no payment attempt is on
    record for [tok_1].  Both deliveries verify; the second one creates a
    second subscription and a second audit entry, and no payment attempt is
    completed. *)
Theorem redelivery_without_payment_record_grants_twice :
  Ipn.verifyPayoneerSignature (PAYONEER_IPN_SECRET example_env) success_u1_starter
    (sign example_env success_u1_starter) = Ipn.Return true /\
  payment_of (Some "tok_1") (db initial) = None /\
  map (fun s => (Subscription.stripe_subscription_id s, Subscription.status s))
      (JsMap.values (subscriptions (db after_first_delivery)))
  = [(Some "tok_1", "active")] /\
  map (fun s => (Subscription.stripe_subscription_id s, Subscription.status s))
      (JsMap.values (subscriptions (db after_second_delivery)))
  = [(Some "tok_1", "active"); (Some "tok_1", "active")] /\
  map AuditEntry.action (auditLog (db after_second_delivery))
  = ["subscription_created"; "subscription_created"] /\
  payments (db after_second_delivery) = [].
Proof. conjuncts; vm_compute; reflexivity. Qed.

(** ** The amount check *)

(** [validatePlanPrice] accepts the price and one cent either way. *)
Lemma validatePlanPrice_examples :
  map (fun cents => Plans.validatePlanPrice "starter" (JsNumber.of_Z cents))
      [9798; 9799; 9800; 9801; 9802]
  = [false; true; true; true; false].
Proof. vm_compute. reflexivity. Qed.

(** C2, at the failing input: a verified success notification for the plan
    [starter] (9800 cents) with the amount [98.01].  The claimed amount is
    9801 cents, one cent from the price, and [validatePlanPrice] accepts it;
    the handler compares with [!==], logs [fraud_detected], grants nothing
    and leaves the payment attempt pending. *)
Theorem one_cent_difference_is_treated_as_fraud :
  Ipn.verifyPayoneerSignature (PAYONEER_IPN_SECRET example_env) success_one_cent_over
    (sign example_env success_one_cent_over) = Ipn.Return true /\
  Ipn.amountInCents "98.01" = JsNumber.of_Z 9801 /\
  Plans.validatePlanPrice "starter" (Ipn.amountInCents "98.01") = true /\
  subscriptions (db after_one_cent_over) = [] /\
  map Payment.status (JsMap.values (payments (db after_one_cent_over))) = ["pending"] /\
  map AuditEntry.action (auditLog (db after_one_cent_over))
  = ["payment_initiated"; "fraud_detected"].
Proof. conjuncts; vm_compute; reflexivity. Qed.

(** ** Regular expressions and the validators of routes/auth.js *)

Lemma repeats_spec (c : Z -> bool) (min : nat) (s rest : list Z) :
  In rest (RegExp.repeats c min s) <->
  exists p, s = p ++ rest /\ forallb c p = true /\ (min <= List.length p)%nat.
Proof.
  revert min. induction s as [|x s IH]; intros min; simpl.
  - destruct (Nat.eqb_spec min 0) as [E|E].
    + split.
      * intros [<-|[]]. exists []. simpl. repeat split. lia.
      * intros (p & Hp & _ & _). symmetry in Hp. apply app_eq_nil in Hp as [_ ->].
        now left.
    + split; [intros []|].
      intros (p & Hp & _ & Hl). symmetry in Hp. apply app_eq_nil in Hp as [-> _].
      simpl in Hl. lia.
  - rewrite in_app_iff. split.
    + intros [H|H].
      * destruct (c x) eqn:Hc; [|destruct H].
        apply IH in H as (p & -> & Hall & Hl). exists (x :: p). simpl.
        rewrite Hc, Hall. repeat split. lia.
      * destruct (Nat.eqb_spec min 0) as [E|E]; [|destruct H].
        destruct H as [<-|[]]. exists []. simpl. repeat split. lia.
    + intros (p & Hp & Hall & Hl). destruct p as [|y p]; simpl in *.
      * right. subst rest. replace min with 0%nat by lia. now left.
      * injection Hp as <- ->. apply andb_true_iff in Hall as [Hc Hall].
        left. rewrite Hc. apply IH. exists p. repeat split; auto. lia.
Qed.

Lemma rests_Seq (r1 r2 : RegExp.t) (s rest : list Z) :
  In rest (RegExp.rests (RegExp.Seq r1 r2) s) <->
  exists mid, In mid (RegExp.rests r1 s) /\ In rest (RegExp.rests r2 mid).
Proof. simpl. apply in_flat_map. Qed.

Lemma rests_Class (c : Z -> bool) (s rest : list Z) :
  In rest (RegExp.rests (RegExp.Class c) s) <->
  exists x, s = x :: rest /\ c x = true.
Proof.
  simpl. destruct s as [|x s].
  - split; [intros []|]. intros (x & H & _). discriminate.
  - destruct (c x) eqn:Hc.
    + split.
      * intros [<-|[]]. now exists x.
      * intros (y & H & _). injection H as _ <-. now left.
    + split; [intros []|]. intros (y & H & Hy). injection H as <- _. congruence.
Qed.

Lemma rests_Lookahead (r : RegExp.t) (s rest : list Z) :
  In rest (RegExp.rests (RegExp.Lookahead r) s) <->
  rest = s /\ exists after, In after (RegExp.rests r s).
Proof.
  simpl. destruct (RegExp.rests r s) as [|a l].
  - split; [intros []|]. intros (_ & after & []).
  - split.
    + intros [<-|[]]. split; [reflexivity|]. exists a. now left.
    + intros [-> _]. now left.
Qed.

Lemma test_spec (r : RegExp.t) (str : string) :
  RegExp.test r str = true <-> In [] (RegExp.rests r (Utf16.units str)).
Proof.
  unfold RegExp.test. rewrite existsb_exists. split.
  - intros (rest & Hin & Hnil). destruct rest; [assumption|discriminate].
  - intros H. now exists [].
Qed.

Lemma existsb_split (c any : Z -> bool) (s : list Z) :
  forallb any s = true -> existsb c s = true ->
  exists p x rest, s = p ++ x :: rest /\ forallb any p = true /\ c x = true.
Proof.
  intros Hany Hex. apply existsb_exists in Hex as (x & Hin & Hc).
  apply in_split in Hin as (p & rest & ->).
  exists p, x, rest. repeat split; auto.
  rewrite forallb_app in Hany. apply andb_true_iff in Hany. tauto.
Qed.

Lemma somewhere_spec (c : Z -> bool) (s rest : list Z) :
  In rest (RegExp.rests (Validators.somewhere c) s) <->
  rest = s /\ exists p x after,
      s = p ++ x :: after /\ forallb RegExp.any p = true /\ c x = true.
Proof.
  unfold Validators.somewhere. rewrite rests_Lookahead. apply and_iff_compat_l.
  split.
  - intros (after & H). apply rests_Seq in H as (mid & Hrep & Hcl).
    apply repeats_spec in Hrep as (p & -> & Hp & _).
    apply rests_Class in Hcl as (x & -> & Hx). now exists p, x, after.
  - intros (p & x & after & -> & Hp & Hx). exists after.
    apply rests_Seq. exists (x :: after). split.
    + apply repeats_spec. exists p. repeat split; auto. simpl. lia.
    + apply rests_Class. now exists x.
Qed.

Lemma allowed_any (x : Z) : Validators.allowed x = true -> RegExp.any x = true.
Proof.
  unfold Validators.allowed, Validators.upper, Validators.lower, RegExp.digit,
    Validators.special, RegExp.range, RegExp.any, RegExp.line_terminator.
  simpl. intros H.
  destruct (x =? 10) eqn:E1; [apply Z.eqb_eq in E1; subst x; discriminate|].
  destruct (x =? 13) eqn:E2; [apply Z.eqb_eq in E2; subst x; discriminate|].
  destruct (x =? 8232) eqn:E3; [apply Z.eqb_eq in E3; subst x; discriminate|].
  destruct (x =? 8233) eqn:E4; [apply Z.eqb_eq in E4; subst x; discriminate|].
  reflexivity.
Qed.

Lemma forallb_allowed_any (s : list Z) :
  forallb Validators.allowed s = true -> forallb RegExp.any s = true.
Proof.
  rewrite !forallb_forall. intros H x Hx. apply allowed_any, H, Hx.
Qed.

Lemma somewhere_existsb (c : Z -> bool) (s rest : list Z) :
  In rest (RegExp.rests (Validators.somewhere c) s) -> existsb c s = true.
Proof.
  intros H. apply somewhere_spec in H as (_ & p & x & after & -> & _ & Hx).
  apply existsb_exists. exists x. split; [|assumption].
  apply in_or_app. right. now left.
Qed.

Lemma PASSWORD_REGEX_spec (password : string) :
  RegExp.test Validators.PASSWORD_REGEX password = true <->
  (12 <= Utf16.length password)%nat
  /\ forallb Validators.allowed (Utf16.units password) = true
  /\ existsb Validators.lower (Utf16.units password) = true
  /\ existsb Validators.upper (Utf16.units password) = true
  /\ existsb RegExp.digit (Utf16.units password) = true
  /\ existsb Validators.special (Utf16.units password) = true.
Proof.
  rewrite test_spec. unfold Utf16.length, Validators.PASSWORD_REGEX.
  set (s := Utf16.units password). split.
  - intros H.
    apply rests_Seq in H as (m1 & H1 & H).
    apply rests_Seq in H as (m2 & H2 & H).
    apply rests_Seq in H as (m3 & H3 & H).
    apply rests_Seq in H as (m4 & H4 & H).
    pose proof (proj1 (somewhere_spec _ _ _) H1) as [-> _].
    pose proof (proj1 (somewhere_spec _ _ _) H2) as [-> _].
    pose proof (proj1 (somewhere_spec _ _ _) H3) as [-> _].
    pose proof (proj1 (somewhere_spec _ _ _) H4) as [-> _].
    apply repeats_spec in H as (p & Hp & Hall & Hlen).
    rewrite app_nil_r in Hp. subst p.
    repeat split; eauto using somewhere_existsb.
  - intros (Hlen & Hall & Hl & Hu & Hd & Hs).
    pose proof (forallb_allowed_any _ Hall) as Hany.
    assert (Hsome : forall c, existsb c s = true ->
                              In s (RegExp.rests (Validators.somewhere c) s)).
    { intros c Hc. apply somewhere_spec. split; [reflexivity|].
      apply existsb_split; assumption. }
    apply rests_Seq. exists s. split; [now apply Hsome|].
    apply rests_Seq. exists s. split; [now apply Hsome|].
    apply rests_Seq. exists s. split; [now apply Hsome|].
    apply rests_Seq. exists s. split; [now apply Hsome|].
    apply repeats_spec. exists s. rewrite app_nil_r. repeat split; assumption.
Qed.

(** X1: [validatePassword] accepts a password exactly when it has at least
    twelve UTF-16 code units, every one of them a letter of [A-Za-z], a digit
    or one of [@$!%*?&], and among them a lower-case letter, an upper-case
    letter, a digit and one of the special characters. *)
Theorem validatePassword_accepts_iff (password : string) :
  Validators.validatePassword password = Validators.Valid <->
  (12 <= Utf16.length password)%nat
  /\ forallb Validators.allowed (Utf16.units password) = true
  /\ existsb Validators.lower (Utf16.units password) = true
  /\ existsb Validators.upper (Utf16.units password) = true
  /\ existsb RegExp.digit (Utf16.units password) = true
  /\ existsb Validators.special (Utf16.units password) = true.
Proof.
  rewrite <- PASSWORD_REGEX_spec. unfold Validators.validatePassword.
  unfold Validators.PASSWORD_MIN_LENGTH.
  destruct (Nat.ltb_spec (Utf16.length password) 12) as [Hlt|Hge].
  - split; [discriminate|]. intros H. apply PASSWORD_REGEX_spec in H as [H _]. lia.
  - destruct (RegExp.test Validators.PASSWORD_REGEX password); simpl.
    + split; reflexivity.
    + split; discriminate.
Qed.

(** X2: [validateEmail] accepts exactly the strings of the form
    [local@domain.tld] in which the three parts are not empty and hold
    neither white space nor [@]; the domain part may itself hold dots. *)
Theorem validateEmail_accepts_iff (email : string) :
  Validators.validateEmail email = true <->
  exists local domain tld,
    Utf16.units email = local ++ 64 :: domain ++ 46 :: tld
    /\ local <> [] /\ domain <> [] /\ tld <> []
    /\ forallb Validators.email_char (local ++ domain ++ tld) = true.
Proof.
  unfold Validators.validateEmail. rewrite test_spec.
  unfold Validators.emailRegex. set (s := Utf16.units email).
  assert (Hne : forall l : list Z, (1 <= List.length l)%nat <-> l <> []).
  { intros [|x l]; simpl; split; try congruence; try lia. }
  split.
  - intros H.
    apply rests_Seq in H as (m1 & H1 & H).
    apply rests_Seq in H as (m2 & H2 & H).
    apply rests_Seq in H as (m3 & H3 & H).
    apply rests_Seq in H as (m4 & H4 & H).
    apply repeats_spec in H1 as (local & -> & Hl & Hl1).
    apply rests_Class in H2 as (x & -> & Hx). apply Z.eqb_eq in Hx. subst x.
    apply repeats_spec in H3 as (domain & -> & Hd & Hd1).
    apply rests_Class in H4 as (x & -> & Hx). apply Z.eqb_eq in Hx. subst x.
    apply repeats_spec in H as (tld & -> & Ht & Ht1).
    exists local, domain, tld. rewrite app_nil_r, !forallb_app, Hl, Hd, Ht.
    repeat split; try apply Hne; auto.
  - intros (local & domain & tld & -> & Hl1 & Hd1 & Ht1 & Hall).
    rewrite !forallb_app in Hall.
    apply andb_true_iff in Hall as [Hl Hall].
    apply andb_true_iff in Hall as [Hd Ht].
    apply rests_Seq. exists (64 :: domain ++ 46 :: tld). split.
    { apply repeats_spec. exists local. repeat split; auto. now apply Hne. }
    apply rests_Seq. exists (domain ++ 46 :: tld). split.
    { apply rests_Class. now exists 64. }
    apply rests_Seq. exists (46 :: tld). split.
    { apply repeats_spec. exists domain. repeat split; auto. now apply Hne. }
    apply rests_Seq. exists tld. split.
    { apply rests_Class. now exists 46. }
    apply repeats_spec. exists tld. rewrite app_nil_r. repeat split; auto.
    now apply Hne.
Qed.

(** ** What the stores hold in every reachable state *)

Lemma values_set_Forall {V} (Q : V -> Prop) (m : JsMap.t V) (k : string) (v : V) :
  Forall Q (JsMap.values m) -> Q v -> Forall Q (JsMap.values (JsMap.set k v m)).
Proof.
  induction m as [| [k' v'] m IH]; simpl; intros H Hv.
  - constructor; [assumption | constructor].
  - inversion H; subst. destruct (String.eqb k k'); simpl; constructor; auto.
Qed.

Lemma get_value_Forall {V} (Q : V -> Prop) (m : JsMap.t V) (k : string) (v : V) :
  Forall Q (JsMap.values m) -> JsMap.get k m = Some v -> Q v.
Proof.
  intros H Hget. apply get_some_entry in Hget. rewrite Forall_forall in H.
  apply H. unfold JsMap.values. apply in_map_iff. now exists (k, v).
Qed.

Lemma required_nonempty (o : option string) (s : string) : required o = Some s -> s <> "".
Proof. intros H. now apply required_some in H. Qed.

Lemma sound_subscriptions_create u p tok ex :
  u <> "" -> (exists pl, Plans.getPlan p = Plans.Own pl) ->
  keeps sound_records (Db_subscriptions.create u p tok ex).
Proof.
  intros Hu Hp e w [Hs Hpay]. simpl. split; [| exact Hpay].
  apply values_set_Forall; [exact Hs |]. repeat split; simpl; auto.
Qed.

Lemma sound_payments_create u p tok :
  Plans.getPlan p <> Plans.Null ->
  keeps sound_records (Db_payments.create u p tok (Plans.price_of (Plans.getPlan p))).
Proof.
  intros Hp e w [Hs Hpay]. simpl. split; [exact Hs |].
  apply values_set_Forall; [exact Hpay |]. repeat split; simpl; auto.
Qed.

Lemma sound_audit_log u a d : keeps sound_records (Db_audit.log u a d).
Proof. intros e w H. exact H. Qed.

Lemma sound_subscriptions_cancel k :
  keeps sound_records (Db_subscriptions.updateStatus k "canceled").
Proof.
  intros e w [Hs Hpay]. unfold Db_subscriptions.updateStatus, bind, enter, get_db. simpl.
  destruct (JsMap.get k (subscriptions (db w))) as [sub |] eqn:E; simpl; [| now split].
  split; [| exact Hpay]. apply values_set_Forall; [exact Hs |].
  destruct (get_value_Forall _ _ _ _ Hs E) as (_ & Hu & Hp).
  repeat split; simpl; auto.
Qed.

Lemma sound_payments_updateStatus k st :
  In st ["pending"; "completed"; "failed"; "refunded"] ->
  keeps sound_records (Db_payments.updateStatus k st).
Proof.
  intros Hst e w [Hs Hpay]. unfold Db_payments.updateStatus, bind, enter, get_db. simpl.
  destruct (JsMap.get k (payments (db w))) as [pay |] eqn:E; simpl; [| now split].
  split; [exact Hs |]. apply values_set_Forall; [exact Hpay |].
  destruct (get_value_Forall _ _ _ _ Hpay E) as (_ & Hp & Ha).
  repeat split; simpl; auto.
Qed.

Ltac sound_leaf :=
  idtac;
  match goal with
  | |- keeps _ (Db_subscriptions.create _ _ _ _) =>
      apply sound_subscriptions_create; [eapply required_nonempty; eassumption | eauto]
  | |- keeps _ (Db_payments.create _ _ _ _) => apply sound_payments_create; congruence
  | |- keeps _ (Db_audit.log _ _ _) => apply sound_audit_log
  | |- keeps _ (Db_subscriptions.updateStatus _ _) => apply sound_subscriptions_cancel
  | |- keeps _ (Db_payments.updateStatus _ _) =>
      apply sound_payments_updateStatus; simpl; tauto
  end.

Lemma sound_handlePaymentSucceeded ipnData :
  keeps sound_records (Ipn.handlePaymentSucceeded ipnData).
Proof.
  unfold Ipn.handlePaymentSucceeded. cbv zeta.
  apply keeps_bind; [apply keeps_enter | intros _].
  destruct (required (Ipn.field "custom_param1" ipnData)) as [userId |] eqn:Eu;
    [| apply keeps_ret].
  destruct (required (Ipn.field "custom_param2" ipnData)) as [planId |];
    [| apply keeps_ret].
  destruct (required (Ipn.field "amount" ipnData)) as [amount |]; [| apply keeps_ret].
  apply keeps_bind; [apply keeps_findByStripeId | intros payment].
  match goal with |- keeps _ (if ?c then _ else _) => destruct c end; [apply keeps_ret |].
  destruct (Plans.getPlan planId) as [p | |] eqn:Ep; try apply sound_audit_log.
  keeps_walk_with sound_leaf.
Qed.

Lemma sound_handlePaymentFailed ipnData : keeps sound_records (Ipn.handlePaymentFailed ipnData).
Proof. unfold Ipn.handlePaymentFailed. cbv zeta. keeps_walk_with sound_leaf. Qed.

Lemma sound_handlePaymentPending ipnData : keeps sound_records (Ipn.handlePaymentPending ipnData).
Proof. unfold Ipn.handlePaymentPending. keeps_walk_with sound_leaf. Qed.

Lemma sound_handlePaymentRefunded ipnData :
  keeps sound_records (Ipn.handlePaymentRefunded ipnData).
Proof. unfold Ipn.handlePaymentRefunded. cbv zeta. keeps_walk_with sound_leaf. Qed.

Lemma sound_webhook signature ipnData : keeps sound_records (Ipn.webhook signature ipnData).
Proof.
  unfold Ipn.webhook, Ipn.dispatch.
  apply keeps_bind; [apply keeps_env | intros e0].
  destruct (Ipn.verifyPayoneerSignature _ _ _) as [[|] | msg];
    keeps_walk_with
      ltac:(idtac;
            match goal with
            | |- keeps _ (Ipn.handlePaymentSucceeded _) => apply sound_handlePaymentSucceeded
            | |- keeps _ (Ipn.handlePaymentFailed _) => apply sound_handlePaymentFailed
            | |- keeps _ (Ipn.handlePaymentPending _) => apply sound_handlePaymentPending
            | |- keeps _ (Ipn.handlePaymentRefunded _) => apply sound_handlePaymentRefunded
            end).
Qed.

Lemma sound_download req : keeps sound_records (Gate.download req).
Proof.
  unfold Gate.download, Gate.route, Gate.requireAuth, Gate.requireSubscription,
    Gate.download_handler, Gate.ALLOWED_FILES_has.
  cbv zeta. keeps_walk_with sound_leaf.
Qed.

Lemma sound_serve r : keeps sound_records (serve r).
Proof.
  destruct r; simpl.
  - apply keeps_bind; [apply sound_webhook | intros; apply keeps_ret].
  - unfold create_checkout.
    destruct (Plans.getPlan planId) eqn:Ep; try apply keeps_ret;
      rewrite <- Ep; keeps_walk_with sound_leaf.
  - apply keeps_bind; [apply sound_download | intros; apply keeps_ret].
  - apply sound_audit_log.
Qed.

Lemma reachable_sound e w : reachable e w -> sound_records (db w).
Proof.
  induction 1 as [w H | w r _ IH].
  - rewrite H. split; constructor.
  - now apply sound_serve.
Qed.

(** X3: in every state the server can reach, a stored subscription is
    active or canceled (no other status is ever written), belongs to a user
    with a non-empty id and is for one of the plans of the table. *)
Theorem stored_subscription_is_active_or_canceled_for_a_plan :
  forall e w sub,
    reachable e w ->
    In sub (JsMap.values (subscriptions (db w))) ->
    (Subscription.status sub = "active" \/ Subscription.status sub = "canceled")
    /\ Subscription.user_id sub <> ""
    /\ exists p, Plans.getPlan (Subscription.plan_id sub) = Plans.Own p.
Proof.
  intros e w sub Hr Hin. apply reachable_sound in Hr as [Hs _].
  rewrite Forall_forall in Hs. exact (Hs sub Hin).
Qed.

Lemma stored_subscription_is_active_or_canceled_for_a_plan_witness :
  In first_subscription (JsMap.values (subscriptions (db after_first_delivery)))
  /\ (Subscription.status first_subscription = "active"
      \/ Subscription.status first_subscription = "canceled")
  /\ Subscription.user_id first_subscription <> ""
  /\ exists p, Plans.getPlan (Subscription.plan_id first_subscription) = Plans.Own p.
Proof.
  assert (Hin : In first_subscription
                  (JsMap.values (subscriptions (db after_first_delivery)))).
  { vm_compute. left. reflexivity. }
  split; [exact Hin |].
  exact (stored_subscription_is_active_or_canceled_for_a_plan
           example_env after_first_delivery first_subscription
           reachable_after_first_delivery Hin).
Defined.

(** X4: in every state the server can reach, a stored payment is pending,
    completed, failed or refunded, and its amount is the price the table
    of plans gives for its plan: no amount that came with a request is
    ever stored. *)
Theorem stored_payment_amount_is_the_price_of_its_plan :
  forall e w pay,
    reachable e w ->
    In pay (JsMap.values (payments (db w))) ->
    In (Payment.status pay) ["pending"; "completed"; "failed"; "refunded"]
    /\ Plans.getPlan (Payment.plan_id pay) <> Plans.Null
    /\ Payment.amount pay = Plans.price_of (Plans.getPlan (Payment.plan_id pay)).
Proof.
  intros e w pay Hr Hin. apply reachable_sound in Hr as [_ Hp].
  rewrite Forall_forall in Hp. exact (Hp pay Hin).
Qed.

Lemma stored_payment_amount_is_the_price_of_its_plan_witness :
  In completed_payment (JsMap.values (payments (db paid_once)))
  /\ Payment.amount completed_payment = VNumber (JsNumber.of_Z 9800).
Proof.
  assert (Hin : In completed_payment (JsMap.values (payments (db paid_once)))).
  { vm_compute. left. reflexivity. }
  split; [exact Hin |].
  destruct (stored_payment_amount_is_the_price_of_its_plan
              example_env paid_once completed_payment reachable_paid_once Hin)
    as (_ & _ & Ha).
  exact Ha.
Defined.

(** ** The audit log only grows *)

Lemma appends_ret {A} n (a : A) : appends n (ret a).
Proof. intros e w. exists []. rewrite app_nil_r. split; [reflexivity | simpl; lia]. Qed.

Lemma appends_log u a d : appends 1 (Db_audit.log u a d).
Proof. intros e w. eexists. split; [reflexivity | simpl; lia]. Qed.

(** A computation that keeps the log as it is, followed by one that
    appends. *)
Lemma appends_after_silent {A B} n (m : M A) (f : A -> M B) :
  (forall L, keeps (fun d => auditLog d = L) m) ->
  (forall a, appends n (f a)) -> appends n (bind m f).
Proof.
  intros Hm Hf e w. unfold bind. specialize (Hm _ e w eq_refl).
  destruct (m e w) as [a w']. simpl in Hm. destruct (Hf a e w') as (l & Hl & Hn).
  exists l. now rewrite Hl, Hm.
Qed.

Lemma appends_before_silent {A B} n (m : M A) (f : A -> M B) :
  appends n m ->
  (forall a L, keeps (fun d => auditLog d = L) (f a)) -> appends n (bind m f).
Proof.
  intros Hm Hf e w. unfold bind. destruct (Hm e w) as (l & Hl & Hn).
  destruct (m e w) as [a w']. simpl in Hl. exists l.
  now rewrite (Hf a _ e w' eq_refl).
Qed.

Lemma silent_subscriptions_create L u p tok ex :
  keeps (fun d => auditLog d = L) (Db_subscriptions.create u p tok ex).
Proof. intros e w H. exact H. Qed.

Lemma silent_payments_create L u p tok amt :
  keeps (fun d => auditLog d = L) (Db_payments.create u p tok amt).
Proof. intros e w H. exact H. Qed.

Lemma silent_subscriptions_updateStatus L k st :
  keeps (fun d => auditLog d = L) (Db_subscriptions.updateStatus k st).
Proof.
  intros e w H. unfold Db_subscriptions.updateStatus, bind, enter, get_db. simpl.
  destruct (JsMap.get k (subscriptions (db w))); exact H.
Qed.

Lemma silent_payments_updateStatus L k st :
  keeps (fun d => auditLog d = L) (Db_payments.updateStatus k st).
Proof.
  intros e w H. unfold Db_payments.updateStatus, bind, enter, get_db. simpl.
  destruct (JsMap.get k (payments (db w))); exact H.
Qed.

Ltac silent_leaf :=
  idtac;
  match goal with
  | |- keeps _ (Db_subscriptions.create _ _ _ _) => apply silent_subscriptions_create
  | |- keeps _ (Db_payments.create _ _ _ _) => apply silent_payments_create
  | |- keeps _ (Db_subscriptions.updateStatus _ _) => apply silent_subscriptions_updateStatus
  | |- keeps _ (Db_payments.updateStatus _ _) => apply silent_payments_updateStatus
  | |- keeps _ (Gate.ALLOWED_FILES_has _) => unfold Gate.ALLOWED_FILES_has
  | |- keeps _ (Gate.requireAuth _) => unfold Gate.requireAuth
  | |- keeps _ (Gate.requireSubscription _) => unfold Gate.requireSubscription
  end.

(** Splits a computation into a part that does not touch the log and a
    part that appends, on either side. *)
Ltac appends_walk leaf :=
  repeat first
    [ leaf
    | match goal with
      | |- appends _ (Db_audit.log _ _ _) => apply appends_log
      | |- appends _ (ret _) => apply appends_ret
      | |- appends _ (match ?x with _ => _ end) => destruct x
      | |- appends _ (bind _ _) =>
          first
            [ apply appends_after_silent;
              [ solve [intros ?; keeps_walk_with silent_leaf] | intros ? ]
            | apply appends_before_silent;
              [ | solve [intros ? ?; keeps_walk_with silent_leaf] ] ]
      end ].

Ltac no_leaf := fail.

Lemma appends_handlePaymentSucceeded ipnData : appends 1 (Ipn.handlePaymentSucceeded ipnData).
Proof. unfold Ipn.handlePaymentSucceeded. cbv zeta. appends_walk no_leaf. Qed.

Lemma appends_handlePaymentFailed ipnData : appends 1 (Ipn.handlePaymentFailed ipnData).
Proof. unfold Ipn.handlePaymentFailed. cbv zeta. appends_walk no_leaf. Qed.

Lemma appends_handlePaymentPending ipnData : appends 1 (Ipn.handlePaymentPending ipnData).
Proof. unfold Ipn.handlePaymentPending. appends_walk no_leaf. Qed.

Lemma appends_handlePaymentRefunded ipnData : appends 1 (Ipn.handlePaymentRefunded ipnData).
Proof. unfold Ipn.handlePaymentRefunded. cbv zeta. appends_walk no_leaf. Qed.

Lemma appends_webhook signature ipnData : appends 1 (Ipn.webhook signature ipnData).
Proof.
  unfold Ipn.webhook, Ipn.dispatch.
  appends_walk
    ltac:(idtac;
          match goal with
          | |- appends _ (Ipn.handlePaymentSucceeded _) => apply appends_handlePaymentSucceeded
          | |- appends _ (Ipn.handlePaymentFailed _) => apply appends_handlePaymentFailed
          | |- appends _ (Ipn.handlePaymentPending _) => apply appends_handlePaymentPending
          | |- appends _ (Ipn.handlePaymentRefunded _) => apply appends_handlePaymentRefunded
          end).
Qed.

Lemma appends_download req : appends 1 (Gate.download req).
Proof.
  unfold Gate.download, Gate.route, Gate.download_handler. cbv zeta.
  appends_walk no_leaf.
Qed.

(** X5: whatever the request, the entries the audit log holds stay as
    they are and where they are, and at most one entry is added. *)
Theorem request_appends_at_most_one_audit_entry :
  forall r e w,
  exists added,
    auditLog (db (snd (serve r e w))) = auditLog (db w) ++ added
    /\ (List.length added <= 1)%nat.
Proof.
  intros r. change (appends 1 (serve r)). destruct r; simpl.
  - appends_walk
      ltac:(idtac; match goal with |- appends _ (Ipn.webhook _ _) => apply appends_webhook end).
  - unfold create_checkout. appends_walk no_leaf.
  - appends_walk
      ltac:(idtac; match goal with |- appends _ (Gate.download _) => apply appends_download end).
  - apply appends_log.
Qed.

(** ** Which stores a notification can touch *)

(** X6: a verified notification is always answered 200 with
    [received: true], and its status decides which stores it can change:
    the subscriptions only for [success], [approved] and [refund], the
    payments only for these and [failed] and [declined]; with a status
    other than these and [pending], or without status, nothing at all is
    written, not even an audit entry. *)
Theorem verified_notification_touches_stores_by_status :
  forall e w signature ipnData,
    Ipn.verifyPayoneerSignature (PAYONEER_IPN_SECRET e) ipnData signature = Ipn.Return true ->
    fst (Ipn.webhook signature ipnData e w) = Json 200 [("received", VBool true)]
    /\ (status_among ["success"; "approved"; "refund"] ipnData = false ->
        subscriptions (db (snd (Ipn.webhook signature ipnData e w))) = subscriptions (db w))
    /\ (status_among ["success"; "approved"; "failed"; "declined"; "refund"] ipnData = false ->
        payments (db (snd (Ipn.webhook signature ipnData e w))) = payments (db w))
    /\ (status_among ["success"; "approved"; "failed"; "declined"; "pending"; "refund"] ipnData
        = false ->
        snd (Ipn.webhook signature ipnData e w) = w).
Proof.
  intros e w signature ipnData Hv. rewrite (webhook_verified _ _ _ _ Hv).
  cbn [fst snd]. split; [reflexivity |].
  unfold status_among, Ipn.dispatch.
  destruct (Ipn.field "status" ipnData) as [status |]; [| repeat split].
  cbn [existsb].
  destruct (String.eqb status "success"), (String.eqb status "approved"),
    (String.eqb status "failed"), (String.eqb status "declined"),
    (String.eqb status "pending"), (String.eqb status "refund");
    cbn [orb]; repeat split; intros H; try discriminate H;
    first [ apply handlePaymentFailed_keeps_subscriptions
          | apply handlePaymentPending_keeps_subscriptions
          | reflexivity ].
Qed.

Lemma verified_notification_touches_stores_by_status_witness :
  Ipn.verifyPayoneerSignature (PAYONEER_IPN_SECRET example_env) pending_u1
    (sign example_env pending_u1) = Ipn.Return true
  /\ status_among ["success"; "approved"; "failed"; "declined"; "refund"] pending_u1 = false
  /\ payments (db (snd (Ipn.webhook (sign example_env pending_u1) pending_u1
                          example_env paid_once)))
     = payments (db paid_once).
Proof.
  assert (Hv : Ipn.verifyPayoneerSignature (PAYONEER_IPN_SECRET example_env) pending_u1
                 (sign example_env pending_u1) = Ipn.Return true)
    by (vm_compute; reflexivity).
  split; [exact Hv |]. split; [reflexivity |].
  destruct (verified_notification_touches_stores_by_status
              example_env paid_once (sign example_env pending_u1) pending_u1 Hv)
    as (_ & _ & Hp & _).
  apply Hp. reflexivity.
Defined.

(** ** Refused payments *)

(** X7: when [handlePaymentSucceeded] gets a notification that names a
    user, a plan and an amount, whose payment is not yet completed, and
    does not grant, it leaves subscriptions and payments as they are and
    appends exactly one audit entry for that user: [invalid_plan] when
    the table has nothing under the plan id, otherwise [fraud_detected]
    with the price the table expects (undefined for a name inherited from
    Object.prototype) and the amount received, in cents.  The entry's ip is
    always ['unknown']. *)
Theorem refused_success_is_recorded :
  forall e w ipnData userId planId amount,
    required (Ipn.field "custom_param1" ipnData) = Some userId ->
    required (Ipn.field "custom_param2" ipnData) = Some planId ->
    required (Ipn.field "amount" ipnData) = Some amount ->
    (forall pay,
       payment_of (Ipn.field "token" ipnData) (db w) = Some pay ->
       Payment.status pay <> "completed") ->
    granting ipnData (db w) = None ->
    subscriptions (db (snd (Ipn.handlePaymentSucceeded ipnData e w))) = subscriptions (db w)
    /\ payments (db (snd (Ipn.handlePaymentSucceeded ipnData e w))) = payments (db w)
    /\ auditLog (db (snd (Ipn.handlePaymentSucceeded ipnData e w)))
       = auditLog (db w)
         ++ [AuditEntry.mk (random e (random_draws w)) (Some userId)
               (fst (refusal ipnData planId amount)) (snd (refusal ipnData planId amount))
               (VString "unknown") (clock e (clock_reads w))].
Proof.
  intros e w ipnData userId planId amount Hu Hp Ha Hpay Hg.
  destruct (no_grant_keeps_subscriptions_and_payments ipnData e w Hg) as [Hs Hpm].
  split; [exact Hs |]. split; [exact Hpm |].
  unfold granting in Hg. rewrite Hu, Hp, Ha in Hg.
  unfold Ipn.handlePaymentSucceeded, refusal, Db_payments.findByStripeId, bind, enter,
    get_db, ret.
  rewrite Hu, Hp, Ha. cbn [fst snd db].
  fold (payment_of (Ipn.field "token" ipnData) (db w)).
  assert (Hnot : match payment_of (Ipn.field "token" ipnData) (db w) with
                 | Some pay => String.eqb (Payment.status pay) "completed"
                 | None => false
                 end = false).
  { destruct (payment_of (Ipn.field "token" ipnData) (db w)) as [pay |] eqn:E;
      [| reflexivity].
    apply String.eqb_neq. now apply Hpay. }
  rewrite Hnot in Hg. rewrite Hnot.
  destruct (Plans.getPlan planId) as [p | |]; try reflexivity.
  destruct (JsNumber.strict_eq _ _); [discriminate | reflexivity].
Qed.

Lemma refused_success_is_recorded_witness :
  granting success_one_cent_over (db after_checkout) = None
  /\ auditLog (db (snd (Ipn.handlePaymentSucceeded success_one_cent_over example_env
                          after_checkout)))
     = auditLog (db after_checkout)
       ++ [AuditEntry.mk (random example_env (random_draws after_checkout)) (Some "u1")
             "fraud_detected"
             [("paymentToken", VString "tok_1");
              ("expectedAmount", VNumber (JsNumber.of_Z 9800));
              ("actualAmount", VNumber (JsNumber.of_Z 9801));
              ("planId", VString "starter")]
             (VString "unknown") (clock example_env (clock_reads after_checkout))].
Proof.
  assert (Hg : granting success_one_cent_over (db after_checkout) = None)
    by (vm_compute; reflexivity).
  split; [exact Hg |].
  assert (Hpay : forall pay,
             payment_of (Ipn.field "token" success_one_cent_over) (db after_checkout)
             = Some pay -> Payment.status pay <> "completed").
  { intros pay H. vm_compute in H. injection H as <-. discriminate. }
  destruct (refused_success_is_recorded example_env after_checkout success_one_cent_over
              "u1" "starter" "98.01" eq_refl eq_refl eq_refl Hpay Hg) as (_ & _ & Hlog).
  rewrite Hlog. vm_compute. reflexivity.
Defined.

(** ** What a download guarantees *)

Lemma active_from_sound e reads subs sub :
  In sub (fst (active_from e reads subs)) ->
  In sub subs /\ Subscription.status sub = "active"
  /\ exists n, (reads <= n)%nat /\ clock e n < Subscription.expires_at sub.
Proof.
  revert reads. induction subs as [| s rest IH]; intros reads; simpl; [intros [] |].
  destruct (String.eqb (Subscription.status s) "active") eqn:Est.
  - destruct (active_from e (S reads) rest) as [kept n] eqn:Erest. simpl.
    specialize (IH (S reads)). rewrite Erest in IH. simpl in IH.
    destruct (clock e reads <? Subscription.expires_at s) eqn:Eclk.
    + intros [<- | Hin].
      * split; [now left |]. split; [now apply String.eqb_eq |].
        exists reads. split; [lia | now apply Z.ltb_lt].
      * destruct (IH Hin) as (H1 & H2 & n' & Hn & H3).
        split; [now right |]. split; [assumption |]. exists n'. split; [lia | assumption].
    + intros Hin. destruct (IH Hin) as (H1 & H2 & n' & Hn & H3).
      split; [now right |]. split; [assumption |]. exists n'. split; [lia | assumption].
  - intros Hin. destruct (IH reads Hin) as (H1 & H2 & H3). split; [now right | tauto].
Qed.

Lemma subscriptions_of_sound u d sub :
  In sub (subscriptions_of u d) ->
  In sub (JsMap.values (subscriptions d)) /\ u = Some (Subscription.user_id sub).
Proof.
  unfold subscriptions_of. rewrite filter_In. intros [Hin Hu]. split; [exact Hin |].
  destruct u as [u |]; [| discriminate]. apply String.eqb_eq in Hu. now subst.
Qed.

Lemma startsWith_path_join dir filename :
  Gate.startsWith (Gate.path_join dir filename) dir = true.
Proof.
  unfold Gate.startsWith, Gate.path_join.
  induction dir as [| c dir IH]; simpl; [reflexivity |].
  destruct (ascii_dec c c) as [_ | Hne]; [exact IH | now destruct Hne].
Qed.

Lemma required_inv (o : option string) (s : string) : required o = Some s -> o = Some s.
Proof. intros H. now apply required_some in H. Qed.

(** X8: the download route sends a file only when the session names a
    user for whom the store holds a subscription that is active and not
    yet expired at a reading of the clock taken during the request; the
    file is then the whitelisted name inside the PDF directory, it exists,
    subscriptions and payments are as before, and exactly one audit entry
    [pdf_download] for that user was appended. *)
Theorem file_is_sent_only_to_an_active_subscriber :
  forall e w req headers filepath,
    fst (Gate.download req e w) = SendFile headers filepath ->
    exists uid sub n entry,
      session_user req = Some uid
      /\ In sub (JsMap.values (subscriptions (db w)))
      /\ Subscription.user_id sub = uid
      /\ Subscription.status sub = "active"
      /\ (clock_reads w <= n)%nat /\ clock e n < Subscription.expires_at sub
      /\ JsMap.get (Gate.params_filename req) Gate.ALLOWED_FILES <> None
      /\ filepath = Gate.path_join (PDF_DIR e) (Gate.params_filename req)
      /\ file_size e filepath <> None
      /\ subscriptions (db (snd (Gate.download req e w))) = subscriptions (db w)
      /\ payments (db (snd (Gate.download req e w))) = payments (db w)
      /\ auditLog (db (snd (Gate.download req e w))) = auditLog (db w) ++ [entry]
      /\ AuditEntry.action entry = "pdf_download"
      /\ AuditEntry.user_id entry = Some uid.
Proof.
  intros e w req headers filepath.
  unfold session_user, Gate.download, Gate.route, Gate.requireAuth, bind, enter, ret.
  destruct (Gate.session req) as [s |]; [| discriminate].
  destruct (required (Gate.session_userId s)) as [uid |] eqn:Huser; [| discriminate].
  apply required_inv in Huser as Hid.
  cbn [fst snd]. unfold Gate.requireSubscription, bind, enter, ret.
  cbn [Gate.userId fst snd]. rewrite Hid. cbn [required].
  destruct (String.eqb uid "") eqn:Eempty.
  { apply String.eqb_eq in Eempty. subst uid. now apply required_nonempty in Huser. }
  rewrite findActiveByUserId_run.
  cbn [fst snd calls db clock_reads random_draws].
  destruct (fst (active_from e (clock_reads w) (subscriptions_of (Some uid) (db w))))
    as [| first rest] eqn:Eact; [discriminate |].
  assert (Hin : In first (fst (active_from e (clock_reads w)
                                 (subscriptions_of (Some uid) (db w)))))
    by (rewrite Eact; now left).
  apply active_from_sound in Hin as (Hsub & Hst & n & Hn & Hclk).
  apply subscriptions_of_sound in Hsub as [Hstored Hu]. injection Hu as Hu.
  unfold Gate.download_handler, Gate.ALLOWED_FILES_has, bind, enter, ret, env.
  cbn [fst snd calls db clock_reads random_draws Gate.params_filename Gate.userId Gate.ip].
  destruct (JsMap.get (Gate.params_filename req) Gate.ALLOWED_FILES) as [title |] eqn:Ewl;
    cbn [negb fst snd]; [| discriminate].
  rewrite startsWith_path_join. cbn [negb].
  destruct (file_size e (Gate.path_join (PDF_DIR e) (Gate.params_filename req)))
    as [size |] eqn:Esize; [| discriminate].
  cbn [fst snd db Db_audit.log bind enter ret random_id new_Date get_db put_db
       clock_reads random_draws subscriptions payments auditLog].
  intros H. injection H as _ <-.
  exists uid, first, n. eexists.
  repeat split; try eassumption; try reflexivity; try congruence.
Qed.

Lemma file_is_sent_only_to_an_active_subscriber_witness :
  fst (Gate.download subscriber_wants_article example_env after_first_delivery)
  = SendFile
      [("Content-Type", VString "application/pdf");
       ("Content-Disposition",
        VString ("attachment; filename=" ++ quote ++ "article-1.pdf" ++ quote));
       ("Content-Length", VNumber (JsNumber.of_Z 2048));
       ("Cache-Control", VString "no-cache, no-store, must-revalidate");
       ("Pragma", VString "no-cache"); ("Expires", VString "0")]
      "/srv/app/pdfs/article-1.pdf"
  /\ exists entry,
       auditLog (db (snd (Gate.download subscriber_wants_article example_env
                            after_first_delivery)))
       = auditLog (db after_first_delivery) ++ [entry]
       /\ AuditEntry.action entry = "pdf_download"
       /\ AuditEntry.user_id entry = Some "u1".
Proof.
  assert (H : fst (Gate.download subscriber_wants_article example_env after_first_delivery)
              = SendFile
                  [("Content-Type", VString "application/pdf");
                   ("Content-Disposition",
                    VString ("attachment; filename=" ++ quote ++ "article-1.pdf" ++ quote));
                   ("Content-Length", VNumber (JsNumber.of_Z 2048));
                   ("Cache-Control", VString "no-cache, no-store, must-revalidate");
                   ("Pragma", VString "no-cache"); ("Expires", VString "0")]
                  "/srv/app/pdfs/article-1.pdf")
    by (vm_compute; reflexivity).
  split; [exact H |].
  destruct (file_is_sent_only_to_an_active_subscriber _ _ _ _ _ H)
    as (uid & sub & n & entry & Hu & _ & _ & _ & _ & _ & _ & _ & _ & _ & _ & Hlog & Ha & He).
  exists entry. split; [exact Hlog |]. split; [exact Ha |].
  rewrite He. rewrite <- Hu. reflexivity.
Defined.

(** X9: the download route never answers 403 [Access denied]: the path
    it builds from a whitelisted name always starts with the PDF
    directory, so the check that follows the whitelist refuses nothing. *)
Theorem download_never_answers_access_denied :
  forall e w req,
    fst (Gate.download req e w)
    <> Json 403 [("error", VString "Forbidden"); ("message", VString "Access denied")].
Proof.
  intros e w req.
  unfold Gate.download, Gate.route, Gate.requireAuth, bind, enter, ret.
  destruct (Gate.session req) as [s |]; [| discriminate].
  destruct (required (Gate.session_userId s)) as [uid |]; [| discriminate].
  cbn [fst snd]. unfold Gate.requireSubscription, bind, enter, ret.
  cbn [Gate.userId fst snd].
  destruct (required (Gate.session_userId s)); [| discriminate].
  destruct (Db_subscriptions.findActiveByUserId _ _ _) as [[| first rest] w1];
    [discriminate |].
  unfold Gate.download_handler, Gate.ALLOWED_FILES_has, bind, enter, ret, env.
  cbn [fst snd Gate.params_filename].
  destruct (JsMap.get (Gate.params_filename req) Gate.ALLOWED_FILES);
    cbn [negb fst snd]; [| discriminate].
  rewrite startsWith_path_join. cbn [negb].
  destruct (file_size e _); [| discriminate].
  cbn [fst snd Db_audit.log bind enter ret random_id new_Date get_db put_db].
  discriminate.
Qed.

(** ** The table of plans *)

Lemma getPlan_Own_inv planId p :
  Plans.getPlan planId = Plans.Own p ->
  In (planId, p) Plans.SUBSCRIPTION_PLANS /\ Plans.id p = planId.
Proof.
  unfold Plans.getPlan.
  destruct (JsMap.get planId Plans.SUBSCRIPTION_PLANS) as [q |] eqn:E.
  - intros H. injection H as ->. split; [now apply get_some_entry |].
    simpl in E.
    repeat match type of E with
           | (if String.eqb ?a ?b then _ else _) = _ =>
               destruct (String.eqb_spec a b);
               [injection E as <-; subst; reflexivity |]
           end.
    discriminate.
  - destruct (existsb _ _); discriminate.
Qed.

(** X10: the plans the frontend is shown are exactly the plans a checkout
    or a notification can name: [getPlan] finds a plan of its own under
    an id exactly when [getPublicPlans] lists a plan with that id, and the
    listed plan carries the id, name, price and duration of that plan.
    The members [getPlan] finds through Object.prototype are not
    listed. *)
Theorem listed_plans_are_the_plans_of_getPlan :
  forall planId,
    (forall p,
       Plans.getPlan planId = Plans.Own p ->
       Plans.id p = planId /\ In (Plans.publish p) Plans.getPublicPlans)
    /\ (forall q,
          In q Plans.getPublicPlans -> Plans.public_id q = planId ->
          exists p, Plans.getPlan planId = Plans.Own p /\ q = Plans.publish p)
    /\ (Plans.getPlan planId = Plans.Inherited ->
        forall q, In q Plans.getPublicPlans -> Plans.public_id q <> planId).
Proof.
  intros planId. split; [| split].
  - intros p H. apply getPlan_Own_inv in H as [Hin Hid]. split; [exact Hid |].
    unfold Plans.getPublicPlans. apply in_map_iff. now exists (planId, p).
  - intros q Hin Hid. unfold Plans.getPublicPlans in Hin. simpl in Hin.
    destruct Hin as [<- | [<- | [<- | []]]]; simpl in Hid; subst planId;
      eexists; split; reflexivity.
  - intros Hinh q Hin Hid. unfold Plans.getPublicPlans in Hin. simpl in Hin.
    destruct Hin as [<- | [<- | [<- | []]]]; simpl in Hid; subst planId; discriminate.
Qed.

Lemma listed_plans_are_the_plans_of_getPlan_witness :
  exists p,
    Plans.getPlan "professional" = Plans.Own p
    /\ Plans.id p = "professional"
    /\ In (Plans.publish p) Plans.getPublicPlans.
Proof.
  eexists. split; [reflexivity |].
  destruct (listed_plans_are_the_plans_of_getPlan "professional") as [H _].
  exact (H _ eq_refl).
Defined.

(** X11: [validatePlanPrice] accepts only an id under which the table has a
    plan of its own, and only an amount that is a finite number: it refuses
    every name inherited from Object.prototype, for which [getPlan] gives a
    truthy value, and it refuses NaN and the infinities. *)
Theorem validatePlanPrice_accepts_only_own_plans_and_finite_amounts :
  forall planId amountCents,
    Plans.validatePlanPrice planId amountCents = true ->
    (exists p, Plans.getPlan planId = Plans.Own p)
    /\ amountCents <> JsNumber.NaN
    /\ forall sign, amountCents <> S754_infinity sign.
Proof.
  intros planId amountCents. unfold Plans.validatePlanPrice.
  destruct (Plans.getPlan planId) as [p | |] eqn:Ep; try discriminate.
  intros H. split; [now exists p |].
  apply getPlan_Own_inv in Ep as [Hin _]. simpl in Hin.
  split.
  - intros ->.
    destruct Hin as [E | [E | [E | []]]]; injection E as _ <-; vm_compute in H; discriminate.
  - intros sign ->.
    destruct Hin as [E | [E | [E | []]]]; injection E as _ <-; destruct sign;
      vm_compute in H; discriminate.
Qed.

Lemma validatePlanPrice_accepts_only_own_plans_and_finite_amounts_witness :
  Plans.validatePlanPrice "starter" (JsNumber.of_Z 9801) = true
  /\ (exists p, Plans.getPlan "starter" = Plans.Own p)
  /\ JsNumber.of_Z 9801 <> JsNumber.NaN.
Proof.
  assert (H : Plans.validatePlanPrice "starter" (JsNumber.of_Z 9801) = true)
    by (vm_compute; reflexivity).
  split; [exact H |].
  destruct (validatePlanPrice_accepts_only_own_plans_and_finite_amounts _ _ H)
    as (Hp & Hn & _).
  split; assumption.
Defined.

(** ** Sorting *)

Section SortFacts.

Context {A : Type} (key : A -> Z).

(** The comparator [(a, b) => key(b) - key(a)]. *)
Let descending (a b : A) : Z := key b - key a.

Lemma insert_perm (x : A) (l : list A) :
  Permutation (JsArray.insert descending x l) (x :: l).
Proof.
  induction l as [| y l IH]; simpl; [reflexivity |].
  destruct (descending x y <=? 0); [reflexivity |].
  rewrite IH. apply perm_swap.
Qed.

Lemma sort_perm (l : list A) : Permutation (JsArray.sort descending l) l.
Proof.
  induction l as [| x l IH]; simpl; [reflexivity |].
  rewrite insert_perm. now constructor.
Qed.

Lemma insert_sorted (x : A) (l : list A) :
  StronglySorted (fun a b => key a >= key b) l ->
  StronglySorted (fun a b => key a >= key b) (JsArray.insert descending x l).
Proof.
  induction 1 as [| y l Hs IH Hy]; simpl.
  - constructor; constructor.
  - destruct (Z.leb_spec (descending x y) 0) as [Hle | Hgt]; unfold descending in *.
    + constructor; [now constructor |].
      constructor; [lia |].
      rewrite Forall_forall in *. intros z Hz. specialize (Hy z Hz). lia.
    + constructor; [exact IH |].
      rewrite Forall_forall in *. intros z Hz.
      apply (Permutation_in _ (insert_perm x l)) in Hz. destruct Hz as [<- | Hz].
      * lia.
      * now apply Hy.
Qed.

Lemma sort_sorted (l : list A) :
  StronglySorted (fun a b => key a >= key b) (JsArray.sort descending l).
Proof.
  induction l as [| x l IH]; simpl; [constructor | now apply insert_sorted].
Qed.

(** Stability: among the elements with the same key, the order is the
    one of the input. *)
Lemma insert_stable (t : Z) (x : A) (l : list A) :
  filter (fun a => key a =? t) (JsArray.insert descending x l)
  = filter (fun a => key a =? t) (x :: l).
Proof.
  induction l as [| y l IH]; [reflexivity |].
  cbn [JsArray.insert].
  destruct (Z.leb_spec (descending x y) 0) as [Hle | Hgt]; [reflexivity |].
  unfold descending in Hgt. cbn [filter] in *. rewrite IH.
  destruct (Z.eqb_spec (key x) t), (Z.eqb_spec (key y) t); try reflexivity. lia.
Qed.

Lemma sort_stable (t : Z) (l : list A) :
  filter (fun a => key a =? t) (JsArray.sort descending l)
  = filter (fun a => key a =? t) l.
Proof.
  induction l as [| x l IH]; [reflexivity |].
  cbn [JsArray.sort]. rewrite insert_stable. cbn [filter]. now rewrite IH.
Qed.

End SortFacts.

Lemma payments_findByUserId_run userId e w :
  Db_payments.findByUserId userId e w =
  (JsArray.sort (fun a b => Payment.created_at b - Payment.created_at a)
     (payments_of userId (db w)),
   mkWorld (db w) (clock_reads w) (random_draws w)
           (calls w ++ ["db.payments.findByUserId"])).
Proof. reflexivity. Qed.

(** [db.payments.findByUserId] returns the payments of the user, each
    one once, the most recently created first; payments created at the
    same millisecond keep the order in which the store holds them.  The
    stores are not changed. *)
Lemma payments_of_a_user_come_newest_first :
  forall userId e w,
    Permutation (fst (Db_payments.findByUserId userId e w)) (payments_of userId (db w))
    /\ StronglySorted (fun a b => Payment.created_at a >= Payment.created_at b)
         (fst (Db_payments.findByUserId userId e w))
    /\ (forall t,
          filter (fun p => Payment.created_at p =? t) (fst (Db_payments.findByUserId userId e w))
          = filter (fun p => Payment.created_at p =? t) (payments_of userId (db w)))
    /\ db (snd (Db_payments.findByUserId userId e w)) = db w.
Proof.
  intros userId e w. rewrite payments_findByUserId_run. cbn [fst snd db].
  split; [apply (sort_perm Payment.created_at) |].
  split; [apply (sort_sorted Payment.created_at) |].
  split; [intros t; apply (sort_stable Payment.created_at) | reflexivity].
Qed.

(** ** The audit trail of a user *)

Lemma firstn_rev {A} (n : nat) (l : list A) :
  firstn n (rev l) = rev (skipn (List.length l - n) l).
Proof.
  rewrite <- (firstn_skipn (List.length l - n) l) at 1.
  rewrite rev_app_distr.
  destruct (Nat.le_gt_cases n (List.length l)) as [Hle | Hgt].
  - rewrite firstn_app.
    rewrite length_rev, length_skipn.
    replace (n - (List.length l - (List.length l - n)))%nat with 0%nat by lia.
    cbn [firstn]. rewrite app_nil_r.
    apply firstn_all2. rewrite length_rev, length_skipn. lia.
  - replace (List.length l - n)%nat with 0%nat by lia. cbn [firstn skipn rev app].
    rewrite app_nil_r. apply firstn_all2. rewrite length_rev. lia.
Qed.

(** X12: [db.audit.getByUserId] returns the latest [limit] entries of the
    user, the latest first (all of them when there are fewer); without
    [limit] the latest 50; with a negative [limit] all entries but the
    [-limit] oldest.  The log itself is left as it is: only a copy is
    reversed. *)
Theorem audit_trail_is_the_latest_entries_newest_first :
  forall userId e w,
    (forall limit,
       0 <= limit ->
       fst (Db_audit.getByUserId userId (Some limit) e w)
       = rev (skipn (List.length (trail_of userId (db w)) - Z.to_nat limit)
                    (trail_of userId (db w))))
    /\ (forall limit,
          limit < 0 ->
          fst (Db_audit.getByUserId userId (Some limit) e w)
          = rev (skipn (Z.to_nat (- limit)) (trail_of userId (db w))))
    /\ fst (Db_audit.getByUserId userId None e w)
       = fst (Db_audit.getByUserId userId (Some 50) e w)
    /\ (forall limit, db (snd (Db_audit.getByUserId userId limit e w)) = db w).
Proof.
  intros userId e w.
  unfold Db_audit.getByUserId, JsArray.slice0, bind, enter, get_db, ret.
  cbn [fst snd db]. fold (trail_of userId (db w)).
  set (mine := trail_of userId (db w)).
  split; [| split; [| split; [reflexivity | reflexivity]]].
  - intros limit Hl. destruct (Z.ltb_spec limit 0) as [Hneg | _]; [lia |].
    rewrite length_rev, firstn_rev. f_equal. f_equal. lia.
  - intros limit Hl. destruct (Z.ltb_spec limit 0) as [_ | Hpos]; [| lia].
    rewrite length_rev, firstn_rev. f_equal.
    destruct (Nat.le_gt_cases (Z.to_nat (- limit)) (List.length mine)) as [Hle | Hgt].
    + f_equal. lia.
    + rewrite !skipn_all2; [reflexivity | lia | lia].
Qed.

Lemma audit_trail_is_the_latest_entries_newest_first_witness :
  map AuditEntry.action (fst (Db_audit.getByUserId (Some "u1") (Some 1) example_env paid_once))
  = ["subscription_created"]
  /\ map AuditEntry.action (trail_of (Some "u1") (db paid_once))
     = ["payment_initiated"; "subscription_created"].
Proof.
  destruct (audit_trail_is_the_latest_entries_newest_first (Some "u1") example_env paid_once)
    as (H & _).
  rewrite (H 1 ltac:(lia)). split; vm_compute; reflexivity.
Defined.

(** X13: an entry written with [db.audit.log] is the first one
    [db.audit.getByUserId] returns for its user afterwards, whatever the
    log held, as long as at least one entry is asked for. *)
Theorem logged_entry_heads_the_trail :
  forall userId action details limit e e' w,
    1 <= limit ->
    exists entry older,
      fst (Db_audit.getByUserId userId (Some limit) e'
             (snd (Db_audit.log userId action details e w)))
      = entry :: older
      /\ AuditEntry.user_id entry = userId
      /\ AuditEntry.action entry = action
      /\ AuditEntry.details entry = details
      /\ AuditEntry.timestamp entry = clock e (clock_reads w).
Proof.
  intros userId action details limit e e' w Hl.
  unfold Db_audit.getByUserId, Db_audit.log, JsArray.slice0, bind, enter, get_db, put_db,
    random_id, new_Date, ret.
  cbn [fst snd db auditLog clock_reads random_draws calls].
  rewrite filter_app. cbn [filter AuditEntry.user_id].
  assert (Hsame : Db_audit.same_user userId userId = true).
  { destruct userId as [u |]; simpl; [apply String.eqb_refl | reflexivity]. }
  rewrite Hsame. rewrite rev_app_distr. cbn [rev app].
  destruct (Z.ltb_spec limit 0) as [Hneg | _]; [lia |].
  rewrite length_cons.
  destruct (Z.to_nat (Z.min limit (Z.of_nat (S (List.length (rev (filter _ (auditLog (db w))))))))) as [| n] eqn:En; [lia |].
  cbn [firstn]. eexists. eexists. split; [reflexivity |]. repeat split.
Qed.

Lemma logged_entry_heads_the_trail_witness :
  exists entry older,
    fst (Db_audit.getByUserId (Some "u1") (Some 50) example_env
           (snd (Db_audit.log (Some "u1") "logout" [("ip", VString "203.0.113.9")]
                   example_env paid_once)))
    = entry :: older
    /\ AuditEntry.action entry = "logout".
Proof.
  destruct (logged_entry_heads_the_trail (Some "u1") "logout" [("ip", VString "203.0.113.9")]
              50 example_env example_env paid_once ltac:(lia))
    as (entry & older & H & _ & Ha & _).
  exists entry, older. split; assumption.
Defined.

(** ** The routes that only read *)

(** What [requireAuth] does, by the user of the session. *)
Lemma requireAuth_run req e w :
  Gate.requireAuth req e w =
  (match Gate.session req, session_user req with
   | Some s, Some _ =>
       Gate.Next (Gate.mkRequest (Gate.session req) (Gate.params_filename req) (Gate.ip req)
                    (Gate.session_userId s) (Gate.session_userEmail s)
                    (Gate.subscription req))
   | _, _ => Gate.End unauthorized
   end,
   mkWorld (db w) (clock_reads w) (random_draws w) (calls w ++ ["requireAuth"])).
Proof.
  unfold Gate.requireAuth, session_user, bind, enter, ret. cbn [fst snd].
  destruct (Gate.session req) as [s |]; [| reflexivity].
  destruct (required (Gate.session_userId s)); reflexivity.
Qed.

Lemma session_user_inv req uid :
  session_user req = Some uid ->
  exists s, Gate.session req = Some s /\ Gate.session_userId s = Some uid /\ uid <> "".
Proof.
  unfold session_user. destruct (Gate.session req) as [s |]; [| discriminate].
  intros H. apply required_some in H as [H1 H2]. now exists s.
Qed.

(** A route behind [requireAuth], for a request with a logged-in user. *)
Lemma route_requireAuth_run {A} (handler : Gate.Request -> M (Routes.reply A)) req e w :
  Routes.route [Gate.requireAuth] handler req e w =
  match Gate.session req, session_user req with
  | Some s, Some _ =>
      handler (Gate.mkRequest (Gate.session req) (Gate.params_filename req) (Gate.ip req)
                 (Gate.session_userId s) (Gate.session_userEmail s) (Gate.subscription req))
        e (mkWorld (db w) (clock_reads w) (random_draws w) (calls w ++ ["requireAuth"]))
  | _, _ =>
      (Routes.Sent unauthorized,
       mkWorld (db w) (clock_reads w) (random_draws w) (calls w ++ ["requireAuth"]))
  end.
Proof.
  cbn [Routes.route]. unfold bind. rewrite requireAuth_run.
  destruct (Gate.session req) as [s |]; [| reflexivity].
  destruct (session_user req); reflexivity.
Qed.

(** X14: GET /api/payment/status/:paymentToken writes nothing, answers 401
    without a logged-in session, and shows a logged-in user the status,
    token, amount and plan of the payment on record under the token
    exactly when that payment is the user's own; for a token of somebody
    else's payment the answer is the 403 that a token without payment
    gets, so the two cannot be told apart. *)
Theorem payment_status_is_shown_to_its_owner_only :
  forall e w req token,
    db (snd (Routes.payment_status token req e w)) = db w
    /\ (session_user req = None ->
        fst (Routes.payment_status token req e w) = Routes.Sent unauthorized)
    /\ (forall uid,
          session_user req = Some uid ->
          (forall p,
             payment_of (Some token) (db w) = Some p ->
             Payment.user_id p = uid ->
             fst (Routes.payment_status token req e w)
             = Routes.Body
                 (Routes.mkPaymentStatus (Payment.status p)
                    (Payment.stripe_payment_intent_id p) (Payment.amount p) (Payment.plan_id p)))
          /\ ((forall p,
                 payment_of (Some token) (db w) = Some p -> Payment.user_id p <> uid) ->
              fst (Routes.payment_status token req e w) = Routes.Sent Routes.cannot_access)).
Proof.
  intros e w req token. unfold Routes.payment_status.
  rewrite route_requireAuth_run.
  destruct (session_user req) as [uid |] eqn:Hu.
  - destruct (session_user_inv _ _ Hu) as (s & Hs & Hid & _). rewrite Hs.
    unfold Routes.status_handler, Db_payments.findByStripeId, bind, enter, get_db, ret.
    cbn [fst snd db Gate.userId]. fold (payment_of (Some token) (db w)). rewrite Hid.
    destruct (payment_of (Some token) (db w)) as [p |].
    + cbn [Db_audit.same_user].
      destruct (String.eqb_spec (Payment.user_id p) uid) as [Heq | Hne]; cbn [negb fst snd db].
      * split; [reflexivity |]. split; [discriminate |].
        intros uid' Huid. injection Huid as <-. split.
        -- intros p' Hp' _. injection Hp' as <-. reflexivity.
        -- intros Hother. now destruct (Hother p eq_refl).
      * split; [reflexivity |]. split; [discriminate |].
        intros uid' Huid. injection Huid as <-. split.
        -- intros p' Hp' Hmine. injection Hp' as <-. contradiction.
        -- reflexivity.
    + cbn [fst snd db]. split; [reflexivity |]. split; [discriminate |].
      intros uid' _. split; [discriminate | reflexivity].
  - destruct (Gate.session req); cbn [fst snd db];
      (split; [reflexivity |]; split; [reflexivity | discriminate]).
Qed.

Lemma payment_status_is_shown_to_its_owner_only_witness :
  session_user u2_request = Some "u2"
  /\ fst (Routes.payment_status "tok_1" u2_request example_env paid_once)
     = Routes.Sent Routes.cannot_access
  /\ fst (Routes.payment_status "tok_9" u2_request example_env paid_once)
     = Routes.Sent Routes.cannot_access.
Proof.
  split; [reflexivity |].
  destruct (payment_status_is_shown_to_its_owner_only example_env paid_once u2_request "tok_1")
    as (_ & _ & H1).
  destruct (payment_status_is_shown_to_its_owner_only example_env paid_once u2_request "tok_9")
    as (_ & _ & H9).
  split.
  - apply (H1 "u2" eq_refl). intros p Hp. vm_compute in Hp. injection Hp as <-. discriminate.
  - apply (H9 "u2" eq_refl). intros p Hp. vm_compute in Hp. discriminate.
Defined.

(** X15: GET /api/payment/history answers 401 without a logged-in session;
    for a logged-in user it lists the payments of that user and of nobody
    else, each one once, the most recently created first and payments of
    the same millisecond in the order of the store, each with the plan
    [getPlan] finds for it.  Nothing is written. *)
Theorem history_lists_the_payments_of_the_session_user :
  forall e w req,
    db (snd (Routes.history req e w)) = db w
    /\ (session_user req = None -> fst (Routes.history req e w) = Routes.Sent unauthorized)
    /\ (forall uid,
          session_user req = Some uid ->
          exists found,
            fst (Routes.history req e w) = Routes.Body (map Routes.enrich found)
            /\ Permutation found (payments_of (Some uid) (db w))
            /\ StronglySorted (fun a b => Payment.created_at a >= Payment.created_at b) found
            /\ forall t,
                 filter (fun p => Payment.created_at p =? t) found
                 = filter (fun p => Payment.created_at p =? t) (payments_of (Some uid) (db w))).
Proof.
  intros e w req. unfold Routes.history. rewrite route_requireAuth_run.
  destruct (session_user req) as [uid |] eqn:Hu.
  - destruct (session_user_inv _ _ Hu) as (s & Hs & Hid & _). rewrite Hs.
    unfold Routes.history_handler, bind, enter, ret. cbn [fst snd Gate.userId].
    rewrite Hid.
    rewrite payments_findByUserId_run. cbn [fst snd db].
    split; [reflexivity |]. split; [discriminate |].
    intros uid' Huid. injection Huid as <-. eexists. split; [reflexivity |].
    split; [apply (sort_perm Payment.created_at) |].
    split; [apply (sort_sorted Payment.created_at) |].
    intros t. apply (sort_stable Payment.created_at).
  - destruct (Gate.session req); cbn [fst snd db];
      (split; [reflexivity |]; split; [reflexivity | discriminate]).
Qed.

Lemma history_lists_the_payments_of_the_session_user_witness :
  session_user u1_request = Some "u1"
  /\ exists found,
       fst (Routes.history u1_request example_env paid_once_and_pending)
       = Routes.Body (map Routes.enrich found)
       /\ Permutation found (payments_of (Some "u1") (db paid_once_and_pending)).
Proof.
  split; [reflexivity |].
  destruct (history_lists_the_payments_of_the_session_user example_env paid_once_and_pending
              u1_request) as (_ & _ & H).
  destruct (H "u1" eq_refl) as (found & Hb & Hp & _).
  exists found. split; assumption.
Defined.

(** X16: for a logged-in user, GET /api/articles/verify,
    GET /api/payment/subscription/status and the download gate decide on
    the same ground, the active subscriptions [findActiveByUserId] finds:
    without one, the first two say no and a download is refused with 403;
    with one, both report the first of them, with its plan and expiry, and
    a download is not refused for the subscription.  The two status routes
    write nothing. *)
Theorem access_answers_agree :
  forall e w req uid,
    session_user req = Some uid ->
    db (snd (Routes.verify req e w)) = db w
    /\ db (snd (Routes.subscription_status req e w)) = db w
    /\ match active_now e w uid with
       | [] =>
           fst (Routes.verify req e w) = Routes.Body (Routes.mkAccess false None)
           /\ fst (Routes.subscription_status req e w)
              = Routes.Body (Routes.mkSubscriptionStatus false None)
           /\ fst (Gate.download req e w)
              = Json 403 [("error", VString "Forbidden");
                          ("message", VString "Active subscription required")]
       | first :: _ =>
           fst (Routes.verify req e w)
           = Routes.Body
               (Routes.mkAccess true
                  (Some (Subscription.plan_id first, Subscription.expires_at first)))
           /\ fst (Routes.subscription_status req e w)
              = Routes.Body
                  (Routes.mkSubscriptionStatus true
                     (Some (Routes.mkSubscriptionInfo (Subscription.id first)
                              (Subscription.plan_id first)
                              (Plans.name_of (Subscription.plan_id first)
                                 (Plans.getPlan (Subscription.plan_id first)))
                              (Subscription.expires_at first) (Subscription.status first))))
           /\ fst (Gate.download req e w)
              <> Json 403 [("error", VString "Forbidden");
                           ("message", VString "Active subscription required")]
       end.
Proof.
  intros e w req uid Hu. unfold active_now.
  destruct (session_user_inv _ _ Hu) as (s & Hs & Hid & Hne).
  unfold Routes.verify, Routes.subscription_status. rewrite !route_requireAuth_run.
  rewrite Hu, Hs.
  unfold Routes.verify_handler, Routes.subscription_status_handler, bind, enter, ret.
  cbn [fst snd Gate.userId]. rewrite Hid, !findActiveByUserId_run.
  cbn [fst snd db clock_reads].
  unfold Gate.download, Gate.route, bind. rewrite requireAuth_run, Hu, Hs.
  unfold Gate.requireSubscription, bind, enter, ret. cbn [fst snd Gate.userId].
  rewrite Hid. cbn [required]. apply String.eqb_neq in Hne. rewrite Hne.
  rewrite findActiveByUserId_run. cbn [fst snd db clock_reads].
  destruct (fst (active_from e (clock_reads w) (subscriptions_of (Some uid) (db w))))
    as [| first rest].
  - cbn [fst snd db]. repeat split.
  - cbn [fst snd db]. repeat split.
    unfold Gate.download_handler, Gate.ALLOWED_FILES_has, bind, enter, ret, env.
    cbn [fst snd Gate.params_filename].
    destruct (JsMap.get (Gate.params_filename req) Gate.ALLOWED_FILES);
      cbn [negb fst snd]; [| discriminate].
    rewrite startsWith_path_join. cbn [negb].
    destruct (file_size e _); [| discriminate].
    cbn [fst snd Db_audit.log bind enter ret random_id new_Date get_db put_db].
    discriminate.
Qed.

Lemma access_answers_agree_witness :
  session_user u1_request = Some "u1"
  /\ fst (Routes.verify u1_request example_env after_first_delivery)
     = Routes.Body (Routes.mkAccess true (Some ("starter", 1700000000000 + 30 * 86400000)))
  /\ session_user u2_request = Some "u2"
  /\ fst (Routes.verify u2_request example_env after_first_delivery)
     = Routes.Body (Routes.mkAccess false None).
Proof.
  split; [reflexivity |].
  pose proof (access_answers_agree example_env after_first_delivery u1_request "u1" eq_refl)
    as (_ & _ & H1).
  pose proof (access_answers_agree example_env after_first_delivery u2_request "u2" eq_refl)
    as (_ & _ & H2).
  vm_compute active_now in H1, H2.
  destruct H1 as (H1 & _). destruct H2 as (H2 & _).
  split; [exact H1 |]. split; [reflexivity | exact H2].
Defined.

(** [optionalAuth] never ends a request and writes nothing; it hands
    on the request that [requireAuth] hands on when that lets the request
    pass, and the request as it came otherwise. *)
Lemma optionalAuth_passes_what_requireAuth_passes :
  forall e w req,
    db (snd (Routes.optionalAuth req e w)) = db w
    /\ fst (Routes.optionalAuth req e w)
       = match fst (Gate.requireAuth req e w) with
         | Gate.Next req' => Gate.Next req'
         | Gate.End _ => Gate.Next req
         end.
Proof.
  intros e w req. unfold Routes.optionalAuth, Gate.requireAuth, bind, enter, ret.
  cbn [fst snd]. destruct (Gate.session req) as [s |]; [| split; reflexivity].
  destruct (required (Gate.session_userId s)); split; reflexivity.
Qed.

(** ** Sign-up, login and logout *)

(** Runs the steps of a computation of the site. *)
Ltac site_steps :=
  cbn [bindS retS lift host get_users put_users bcrypt_hash_10 draw_uuidv4
       Db_users.create Db_users.findByEmail Db_users.findById
       users world bcrypt_draws uuid_draws base stores
       db subscriptions payments auditLog clock_reads random_draws calls fst snd
       put_db new_Date random_id Db_audit.log bind enter ret get_db].

Lemma bindS_run {A B} (m : SiteM A) (f : A -> SiteM B) h s :
  bindS m f h s = f (fst (m h s)) h (snd (m h s)).
Proof. unfold bindS. now destruct (m h s). Qed.

Lemma lift_run {A} (m : M A) h s :
  lift m h s
  = (fst (m (base h) (world s)),
     mkSite (users s) (snd (m (base h) (world s))) (bcrypt_draws s) (uuid_draws s)).
Proof. unfold lift. now destruct (m (base h) (world s)). Qed.

(** X17: a login either succeeds, for a user stored under the lower-cased
    email whose hash [bcrypt.compare] accepts, or, whatever was wrong
    (a field missing, no such user, a wrong password), gets one and the
    same 401 and leaves no trace: users, stores and session stay as they
    were, and no audit entry is written. *)
Theorem login_failure_is_uniform_and_unrecorded :
  forall h s body ip session,
    (Auth.code_of (fst (fst (Auth.login body ip session h s))) = 200 ->
     exists email password user,
       Auth.email body = Some email /\ Auth.password body = Some password
       /\ password <> "" /\ Auth.blank email = false
       /\ JsMap.get (toLowerCase h email) (users s) = Some user
       /\ bcrypt_compare h password (User.password_hash user) = true
       /\ fst (Auth.login body ip session h s)
          = (Auth.WithUser 200 "Login successful" (Auth.info user),
             Some (Auth.logged_in user)))
    /\ (session <> None ->
        Auth.code_of (fst (fst (Auth.login body ip session h s))) <> 200 ->
        fst (Auth.login body ip session h s) = (Auth.authentication_failed, session)
        /\ users (snd (Auth.login body ip session h s)) = users s
        /\ stores (snd (Auth.login body ip session h s)) = stores s).
Proof.
  intros h s body ip session. unfold Auth.login. site_steps.
  destruct (Auth.email body) as [email |]; [| split; [discriminate | now repeat split]].
  destruct (Auth.password body) as [password |]; [| split; [discriminate | now repeat split]].
  destruct (Auth.blank email) eqn:Eblank; cbn [orb];
    [split; [discriminate | now repeat split] |].
  destruct (String.eqb_spec password "") as [Hp | Hp];
    [split; [discriminate | now repeat split] |].
  site_steps.
  destruct (JsMap.get (toLowerCase h email) (users s)) as [user |] eqn:Eget; site_steps;
    [| split; [discriminate | now repeat split]].
  destruct (bcrypt_compare h password (User.password_hash user)) eqn:Ecmp; cbn [negb];
    site_steps; [| split; [discriminate | now repeat split]].
  destruct session as [sess |]; site_steps.
  - rewrite !bindS_run. site_steps. split.
    + intros _. exists email, password, user. repeat split; assumption.
    + intros _ H. now destruct H.
  - split; [discriminate |]. intros H. now destruct H.
Qed.

(** What a sign-up that is let through does. *)
Lemma signup_run h s email password name confirmPassword ip session :
  Auth.blank email = false -> password <> "" -> Auth.blank name = false ->
  Validators.validateEmail email = true ->
  confirmPassword = password ->
  Validators.validatePassword password = Validators.Valid ->
  JsMap.get (toLowerCase h email) (users s) = None ->
  let body :=
    Auth.mkCredentials (Some email) (Some password) (Some name) (Some confirmPassword) in
  let user := registered h s email password name in
  fst (Auth.signup body ip (Some session) h s)
  = (Auth.WithUser 201 "Account created successfully" (Auth.info user),
     Some (Auth.logged_in user))
  /\ users (snd (Auth.signup body ip (Some session) h s))
     = JsMap.set (toLowerCase h email) user (users s)
  /\ subscriptions (stores (snd (Auth.signup body ip (Some session) h s)))
     = subscriptions (stores s)
  /\ payments (stores (snd (Auth.signup body ip (Some session) h s))) = payments (stores s)
  /\ auditLog (stores (snd (Auth.signup body ip (Some session) h s)))
     = auditLog (stores s)
       ++ [AuditEntry.mk (random (base h) (S (random_draws (world s)))) (Some (User.id user))
             "signup" [("email", VString (User.email user)); ("ip", of_field ip)]
             (if truthy (of_field ip) then of_field ip else VString "unknown")
             (clock (base h) (S (S (clock_reads (world s)))))].
Proof.
  intros Hb1 Hp Hb2 Hv -> Hpw Hget. cbv zeta.
  unfold Auth.signup. site_steps. cbn [Auth.email Auth.password Auth.name Auth.confirmPassword].
  rewrite Hb1, Hb2, Hv, Hpw, String.eqb_refl.
  apply String.eqb_neq in Hp. rewrite Hp. cbn [orb negb]. site_steps.
  rewrite Hget. site_steps. unfold registered.
  cbn [prop String.eqb Ascii.eqb Bool.eqb]. repeat split.
Qed.

(** What a sign-up needs to be let through, read off its answer. *)
Lemma signup_inv h s body ip session :
  users (snd (Auth.signup body ip session h s)) <> users s
  \/ Auth.code_of (fst (fst (Auth.signup body ip session h s))) = 201 ->
  exists email password name,
    body = Auth.mkCredentials (Some email) (Some password) (Some name) (Some password)
    /\ Auth.blank email = false /\ password <> "" /\ Auth.blank name = false
    /\ Validators.validateEmail email = true
    /\ Validators.validatePassword password = Validators.Valid
    /\ JsMap.get (toLowerCase h email) (users s) = None
    /\ users (snd (Auth.signup body ip session h s))
       = JsMap.set (toLowerCase h email) (registered h s email password name) (users s).
Proof.
  destruct body as [[email |] [password |] [name |] [confirmPassword |]];
    unfold Auth.signup; site_steps;
    cbn [Auth.email Auth.password Auth.name Auth.confirmPassword];
    try (intros [H | H]; [now destruct H | discriminate H]).
  destruct (Auth.blank email) eqn:Hb1; cbn [orb];
    [intros [H | H]; [now destruct H | discriminate H] |].
  destruct (String.eqb_spec password "") as [Hp | Hp]; cbn [orb];
    [intros [H | H]; [now destruct H | discriminate H] |].
  destruct (Auth.blank name) eqn:Hb2; cbn [orb];
    [intros [H | H]; [now destruct H | discriminate H] |].
  destruct (String.eqb_spec confirmPassword "") as [Hc | Hc]; cbn [orb];
    [intros [H | H]; [now destruct H | discriminate H] |].
  destruct (Validators.validateEmail email) eqn:Hv; cbn [negb];
    [| intros [H | H]; [now destruct H | discriminate H]].
  destruct (String.eqb_spec password confirmPassword) as [Heq | Hne]; cbn [negb];
    [| intros [H | H]; [now destruct H | discriminate H]].
  subst confirmPassword.
  destruct (Validators.validatePassword password) eqn:Hpw;
    [| intros [H | H]; [now destruct H | discriminate H]].
  site_steps.
  destruct (JsMap.get (toLowerCase h email) (users s)) eqn:Hget; site_steps;
    [intros [H | H]; [now destruct H | discriminate H] |].
  intros _. exists email, password, name. repeat split; try assumption.
  destruct session; site_steps; reflexivity.
Qed.

(** X18: a sign-up creates an account only after every check has passed:
    all four fields present and not blank, an email [validateEmail]
    accepts, a password equal to its confirmation that [validatePassword]
    accepts, and no user stored under the lower-cased email.  The user it
    stores then holds the lower-cased email, the trimmed name and the
    [bcrypt] hash of the password; with a session the answer is 201, the
    session is logged in as the new user and one audit entry [signup] is
    written.  A sign-up that is refused changes neither users nor
    stores. *)
Theorem signup_creates_only_checked_accounts :
  forall h s body ip session,
    (users (snd (Auth.signup body ip session h s)) <> users s
     \/ Auth.code_of (fst (fst (Auth.signup body ip session h s))) = 201 ->
     exists email password name,
       body = Auth.mkCredentials (Some email) (Some password) (Some name) (Some password)
       /\ Auth.blank email = false /\ Auth.blank name = false
       /\ Validators.validateEmail email = true
       /\ Validators.validatePassword password = Validators.Valid
       /\ JsMap.get (toLowerCase h email) (users s) = None
       /\ users (snd (Auth.signup body ip session h s))
          = JsMap.set (toLowerCase h email) (registered h s email password name) (users s)
       /\ (session <> None ->
           fst (Auth.signup body ip session h s)
           = (Auth.WithUser 201 "Account created successfully"
                (Auth.info (registered h s email password name)),
              Some (Auth.logged_in (registered h s email password name)))
           /\ exists entry,
                auditLog (stores (snd (Auth.signup body ip session h s)))
                = auditLog (stores s) ++ [entry]
                /\ AuditEntry.action entry = "signup"
                /\ AuditEntry.user_id entry
                   = Some (User.id (registered h s email password name))))
    /\ (Auth.code_of (fst (fst (Auth.signup body ip session h s))) = 400 ->
        users (snd (Auth.signup body ip session h s)) = users s
        /\ stores (snd (Auth.signup body ip session h s)) = stores s
        /\ snd (fst (Auth.signup body ip session h s)) = session).
Proof.
  intros h s body ip session. split.
  - intros H. destruct (signup_inv _ _ _ _ _ H)
      as (email & password & name & -> & Hb1 & Hp & Hb2 & Hv & Hpw & Hget & Hu).
    exists email, password, name. repeat split; try assumption.
    + destruct session as [sess |]; [| now destruct H0].
      now apply signup_run.
    + destruct session as [sess |]; [| now destruct H0].
      destruct (signup_run h s email password name password ip sess)
        as (_ & _ & _ & _ & Hlog); auto.
      rewrite Hlog. eexists. repeat split.
  - destruct body as [[email |] [password |] [name |] [confirmPassword |]];
      unfold Auth.signup; site_steps;
      cbn [Auth.email Auth.password Auth.name Auth.confirmPassword];
      try (intros _; repeat split; reflexivity).
    destruct (Auth.blank email || String.eqb password "" || Auth.blank name
              || String.eqb confirmPassword ""); [intros _; now repeat split |].
    destruct (negb (Validators.validateEmail email)); [intros _; now repeat split |].
    destruct (negb (String.eqb password confirmPassword)); [intros _; now repeat split |].
    destruct (Validators.validatePassword password); [| intros _; now repeat split].
    site_steps.
    destruct (JsMap.get (toLowerCase h email) (users s)); site_steps;
      [intros _; now repeat split |].
    destruct session; site_steps; discriminate.
Qed.

Lemma signup_creates_only_checked_accounts_witness :
  Auth.code_of (fst (fst (Auth.signup alice (Some "203.0.113.9") fresh_session example_host
                            empty_site))) = 201
  /\ exists email password name,
       alice = Auth.mkCredentials (Some email) (Some password) (Some name) (Some password)
       /\ Validators.validatePassword password = Validators.Valid
       /\ users alice_signed_up
          = JsMap.set (toLowerCase example_host email)
              (registered example_host empty_site email password name) (users empty_site).
Proof.
  assert (H : Auth.code_of (fst (fst (Auth.signup alice (Some "203.0.113.9") fresh_session
                                        example_host empty_site))) = 201)
    by (vm_compute; reflexivity).
  split; [exact H |].
  destruct (signup_creates_only_checked_accounts example_host empty_site alice
              (Some "203.0.113.9") fresh_session) as [Hc _].
  destruct (Hc (or_intror H))
    as (email & password & name & Hb & _ & _ & _ & Hpw & _ & Hu & _).
  exists email, password, name. repeat split; assumption.
Defined.

Lemma login_failure_is_uniform_and_unrecorded_witness :
  fst (Auth.login (Auth.mkCredentials (Some "alice@example.org") (Some "WrongHorse7!") None None)
         (Some "203.0.113.9") fresh_session example_host alice_signed_up)
  = (Auth.authentication_failed, fresh_session)
  /\ fst (Auth.login (Auth.mkCredentials (Some "nobody@example.org") (Some "CorrectHorse7!")
                        None None)
            (Some "203.0.113.9") fresh_session example_host alice_signed_up)
     = (Auth.authentication_failed, fresh_session).
Proof.
  split.
  - apply (login_failure_is_uniform_and_unrecorded example_host alice_signed_up
             (Auth.mkCredentials (Some "alice@example.org") (Some "WrongHorse7!") None None)
             (Some "203.0.113.9") fresh_session);
      [discriminate | vm_compute; discriminate].
  - apply (login_failure_is_uniform_and_unrecorded example_host alice_signed_up
             (Auth.mkCredentials (Some "nobody@example.org") (Some "CorrectHorse7!") None None)
             (Some "203.0.113.9") fresh_session);
      [discriminate | vm_compute; discriminate].
Defined.

(** What a login with the right password does. *)
Lemma login_run h s email password rest_name rest_confirm ip session user :
  Auth.blank email = false -> password <> "" ->
  JsMap.get (toLowerCase h email) (users s) = Some user ->
  bcrypt_compare h password (User.password_hash user) = true ->
  fst (Auth.login (Auth.mkCredentials (Some email) (Some password) rest_name rest_confirm)
         ip (Some session) h s)
  = (Auth.WithUser 200 "Login successful" (Auth.info user), Some (Auth.logged_in user)).
Proof.
  intros Hb Hp Hget Hcmp. unfold Auth.login. site_steps.
  cbn [Auth.email Auth.password]. rewrite Hb. apply String.eqb_neq in Hp. rewrite Hp.
  cbn [orb]. site_steps. rewrite Hget. site_steps. rewrite Hcmp. cbn [negb].
  rewrite !bindS_run. site_steps. reflexivity.
Qed.

(** X19: who has signed up can log in: after a sign-up that was answered
    201, a login with the same password and an email that lower-cases to
    the same string succeeds and names the same user, provided
    [bcrypt.compare] accepts a password against its own hash. *)
Theorem signup_then_login_succeeds :
  forall h s body ip session body' ip' session' email email' password,
    (forall n p, bcrypt_compare h p (bcrypt_hash h n p) = true) ->
    session' <> None ->
    Auth.code_of (fst (fst (Auth.signup body ip session h s))) = 201 ->
    Auth.email body = Some email -> Auth.password body = Some password ->
    Auth.email body' = Some email' -> Auth.password body' = Some password ->
    Auth.blank email' = false ->
    toLowerCase h email' = toLowerCase h email ->
    exists user,
      fst (fst (Auth.signup body ip session h s))
      = Auth.WithUser 201 "Account created successfully" user
      /\ fst (fst (Auth.login body' ip' session' h (snd (Auth.signup body ip session h s))))
         = Auth.WithUser 200 "Login successful" user.
Proof.
  intros h s body ip session body' ip' session' email email' password
    Hbcrypt Hs' H201 He Hp He' Hp' Hblank Hlower.
  destruct (signup_inv _ _ _ _ _ (or_intror H201))
    as (email0 & password0 & name & Hbody & Hb1 & Hp0 & Hb2 & Hv & Hpw & Hget & Hu).
  subst body. cbn [Auth.email Auth.password] in He, Hp.
  injection He as ->. injection Hp as ->.
  destruct session as [sess |].
  - destruct (signup_run h s email password name password ip sess) as (Hfst & _); auto.
    cbv zeta in Hfst. exists (Auth.info (registered h s email password name)).
    rewrite Hfst. split; [reflexivity |].
    destruct body' as [e' p' n' c']. cbn [Auth.email Auth.password] in He', Hp'. subst e' p'.
    destruct session' as [sess' |]; [| now destruct Hs'].
    rewrite (login_run h _ email' password n' c' ip' sess'
               (registered h s email password name)); auto.
    + rewrite Hu, Hlower. apply get_of_set_here.
    + apply Hbcrypt.
  - revert H201. unfold Auth.signup. site_steps.
    cbn [Auth.email Auth.password Auth.name Auth.confirmPassword].
    rewrite Hb1, Hb2, Hv, Hpw, String.eqb_refl.
    apply String.eqb_neq in Hp0. rewrite Hp0. cbn [orb negb]. site_steps.
    rewrite Hget. site_steps. discriminate.
Qed.

Lemma example_bcrypt_accepts n p :
  bcrypt_compare example_host p (bcrypt_hash example_host n p) = true.
Proof. apply String.eqb_refl. Qed.

Lemma signup_then_login_succeeds_witness :
  exists user,
    fst (fst (Auth.login
                (Auth.mkCredentials (Some "ALICE@example.ORG") (Some "CorrectHorse7!") None None)
                (Some "198.51.100.4") fresh_session example_host alice_signed_up))
    = Auth.WithUser 200 "Login successful" user
    /\ Auth.info_email user = "alice@example.org" /\ Auth.info_name user = "Alice".
Proof.
  destruct (signup_then_login_succeeds example_host empty_site alice (Some "203.0.113.9")
              fresh_session
              (Auth.mkCredentials (Some "ALICE@example.ORG") (Some "CorrectHorse7!") None None)
              (Some "198.51.100.4") fresh_session
              "Alice@Example.org" "ALICE@example.ORG" "CorrectHorse7!"
              example_bcrypt_accepts ltac:(discriminate) ltac:(vm_compute; reflexivity)
              eq_refl eq_refl eq_refl eq_refl ltac:(vm_compute; reflexivity)
              ltac:(vm_compute; reflexivity))
    as (user & Hsignup & Hlogin).
  exists user. split; [exact Hlogin |].
  vm_compute in Hsignup. injection Hsignup as <-. split; reflexivity.
Defined.

(** A sign-up for an email that is taken. *)
Lemma signup_taken h s body ip session email user :
  Auth.email body = Some email ->
  JsMap.get (toLowerCase h email) (users s) = Some user ->
  Auth.code_of (fst (fst (Auth.signup body ip session h s))) = 400
  /\ users (snd (Auth.signup body ip session h s)) = users s
  /\ stores (snd (Auth.signup body ip session h s)) = stores s.
Proof.
  intros He Hget.
  destruct body as [e [password |] [name |] [confirmPassword |]];
    cbn [Auth.email] in He; subst e;
    unfold Auth.signup; site_steps;
    cbn [Auth.email Auth.password Auth.name Auth.confirmPassword];
    try (now repeat split).
  destruct (Auth.blank email || String.eqb password "" || Auth.blank name
            || String.eqb confirmPassword ""); [now repeat split |].
  destruct (negb (Validators.validateEmail email)); [now repeat split |].
  destruct (negb (String.eqb password confirmPassword)); [now repeat split |].
  destruct (Validators.validatePassword password); [| now repeat split].
  site_steps. rewrite Hget. site_steps. now repeat split.
Qed.

(** X20: an account cannot be signed up for twice: after a sign-up that was
    answered 201, every sign-up whose email lower-cases to the same string
    is answered 400, whatever else it holds, and leaves the stored user,
    password hash included, and the stores as they are. *)
Theorem second_signup_for_an_email_is_refused :
  forall h s body ip session body' ip' session' email email',
    Auth.code_of (fst (fst (Auth.signup body ip session h s))) = 201 ->
    Auth.email body = Some email ->
    Auth.email body' = Some email' ->
    toLowerCase h email' = toLowerCase h email ->
    Auth.code_of
      (fst (fst (Auth.signup body' ip' session' h (snd (Auth.signup body ip session h s)))))
    = 400
    /\ users (snd (Auth.signup body' ip' session' h (snd (Auth.signup body ip session h s))))
       = users (snd (Auth.signup body ip session h s))
    /\ stores (snd (Auth.signup body' ip' session' h (snd (Auth.signup body ip session h s))))
       = stores (snd (Auth.signup body ip session h s)).
Proof.
  intros h s body ip session body' ip' session' email email' H201 He He' Hlower.
  destruct (signup_inv _ _ _ _ _ (or_intror H201))
    as (email0 & password0 & name & Hbody & _ & _ & _ & _ & _ & _ & Hu).
  subst body. cbn [Auth.email] in He. injection He as ->.
  apply (signup_taken h _ body' ip' session' email'
           (registered h s email password0 name) He').
  rewrite Hu, Hlower. apply get_of_set_here.
Qed.

Lemma second_signup_for_an_email_is_refused_witness :
  Auth.code_of
    (fst (fst (Auth.signup
                 (Auth.mkCredentials (Some "ALICE@EXAMPLE.ORG") (Some "AnotherHorse9?")
                    (Some "Mallory") (Some "AnotherHorse9?"))
                 (Some "198.51.100.4") fresh_session example_host alice_signed_up)))
  = 400
  /\ users (snd (Auth.signup
                   (Auth.mkCredentials (Some "ALICE@EXAMPLE.ORG") (Some "AnotherHorse9?")
                      (Some "Mallory") (Some "AnotherHorse9?"))
                   (Some "198.51.100.4") fresh_session example_host alice_signed_up))
     = users alice_signed_up.
Proof.
  destruct (second_signup_for_an_email_is_refused example_host empty_site alice
              (Some "203.0.113.9") fresh_session
              (Auth.mkCredentials (Some "ALICE@EXAMPLE.ORG") (Some "AnotherHorse9?")
                 (Some "Mallory") (Some "AnotherHorse9?"))
              (Some "198.51.100.4") fresh_session "Alice@Example.org" "ALICE@EXAMPLE.ORG"
              ltac:(vm_compute; reflexivity) eq_refl eq_refl ltac:(vm_compute; reflexivity))
    as (H400 & Hu & _).
  split; assumption.
Defined.

(** X21: a logout without a logged-in session is answered 401 and changes
    nothing; a logout of a logged-in user is answered 200, ends the
    session and appends exactly one audit entry [logout] for that user.
    Users, subscriptions and payments stay as they are. *)
Theorem logout_ends_the_session :
  forall h s req,
    users (snd (Auth.logout req h s)) = users s
    /\ subscriptions (stores (snd (Auth.logout req h s))) = subscriptions (stores s)
    /\ payments (stores (snd (Auth.logout req h s))) = payments (stores s)
    /\ match session_user req with
       | None =>
           fst (Auth.logout req h s) = (Auth.Flat unauthorized, Gate.session req)
           /\ stores (snd (Auth.logout req h s)) = stores s
       | Some uid =>
           fst (Auth.logout req h s)
           = (Auth.Flat (Json 200 [("message", VString "Logged out successfully")]), None)
           /\ exists entry,
                auditLog (stores (snd (Auth.logout req h s))) = auditLog (stores s) ++ [entry]
                /\ AuditEntry.action entry = "logout"
                /\ AuditEntry.user_id entry = Some uid
       end.
Proof.
  intros h s req. unfold Auth.logout.
  rewrite bindS_run, (lift_run (Gate.requireAuth req)), requireAuth_run.
  cbn [fst snd]. unfold session_user.
  destruct (Gate.session req) as [sess |]; [| site_steps; now repeat split].
  destruct (required (Gate.session_userId sess)) as [uid |] eqn:Hu;
    [| site_steps; now repeat split].
  apply required_inv in Hu. site_steps. cbn [Gate.userId Gate.ip]. rewrite Hu.
  repeat split. eexists. repeat split.
Qed.

(** ** The session after a login *)

Lemma me_run h s session :
  Auth.me session h s
  = (match session with
     | Some sess =>
         match required (Gate.session_userId sess) with
         | Some uid =>
             match find (Db_users.has_id (Some uid)) (JsMap.values (users s)) with
             | Some user => (Auth.Me 200 true (Some (Auth.info user)), session)
             | None => (Auth.Me 401 false None, None)
             end
         | None => (Auth.Me 401 false None, session)
         end
     | None => (Auth.Me 401 false None, None)
     end,
     mkSite (users s)
       (mkWorld (db (world s)) (clock_reads (world s)) (random_draws (world s))
          (match session with
           | Some sess =>
               match required (Gate.session_userId sess) with
               | Some _ => (calls (world s) ++ ["me"]) ++ ["db.users.findById"]
               | None => calls (world s) ++ ["me"]
               end
           | None => calls (world s) ++ ["me"]
           end))
       (bcrypt_draws s) (uuid_draws s)).
Proof.
  unfold Auth.me. site_steps.
  destruct session as [sess |]; [| reflexivity].
  destruct (required (Gate.session_userId sess)) as [uid |]; [| reflexivity].
  site_steps. destruct (find _ _); reflexivity.
Qed.

Lemma find_touch (m : JsMap.t User.t) (u : User.t) (now : Z) :
  NoDup (map User.id (JsMap.values m)) ->
  In u (JsMap.values m) ->
  find (Db_users.has_id (Some (User.id u))) (JsMap.values (Db_users.touch (User.id u) now m))
  = Some (User.with_last_login u now).
Proof.
  induction m as [| [k v] m IH]; [intros _ [] |].
  cbn [JsMap.values map Db_users.touch snd]. intros Hnd Hin.
  inversion Hnd as [| ? ? Hnotin Hnd']; subst.
  destruct (String.eqb_spec (User.id v) (User.id u)) as [Heq | Hne].
  - cbn [JsMap.values map find Db_users.has_id User.with_last_login User.id snd].
    rewrite Heq, String.eqb_refl. destruct Hin as [-> | Hin]; [reflexivity |].
    exfalso. apply Hnotin. rewrite Heq. apply in_map_iff. now exists u.
  - cbn [JsMap.values map find Db_users.has_id snd].
    apply String.eqb_neq in Hne. rewrite Hne.
    destruct Hin as [-> | Hin]; [now rewrite String.eqb_refl in Hne |].
    now apply IH.
Qed.

Lemma find_has_id_first (m : JsMap.t User.t) (u : User.t) :
  NoDup (map User.id (JsMap.values m)) ->
  In u (JsMap.values m) ->
  find (Db_users.has_id (Some (User.id u))) (JsMap.values m) = Some u.
Proof.
  induction m as [| [k v] m IH]; [intros _ [] |].
  cbn [JsMap.values map find Db_users.has_id snd]. intros Hnd Hin.
  inversion Hnd as [| ? ? Hnotin Hnd']; subst.
  destruct (String.eqb_spec (User.id v) (User.id u)) as [Heq | Hne].
  - destruct Hin as [-> | Hin]; [reflexivity |].
    exfalso. apply Hnotin. rewrite Heq. apply in_map_iff. now exists u.
  - destruct Hin as [-> | Hin]; [now destruct Hne |]. now apply IH.
Qed.

Lemma get_value_in {V} (m : JsMap.t V) (k : string) (v : V) :
  JsMap.get k m = Some v -> In v (JsMap.values m).
Proof.
  intros H. apply get_some_entry in H. unfold JsMap.values. apply in_map_iff.
  now exists (k, v).
Qed.

(** X22: after a login that was answered 200, GET /api/auth/me with the
    session the login left reports the user who logged in, and keeps the
    session, provided the stored users have pairwise different ids and no
    id is the empty string (an id is what
    [Math.random().toString(36).substring(7)] gave; the empty string would
    count as no session).  The route itself writes nothing. *)
Theorem me_after_login_reports_the_user_logged_in :
  forall h s body ip session,
    NoDup (map User.id (JsMap.values (users s))) ->
    Forall (fun u => User.id u <> "") (JsMap.values (users s)) ->
    Auth.code_of (fst (fst (Auth.login body ip session h s))) = 200 ->
    exists user,
      fst (fst (Auth.login body ip session h s)) = Auth.WithUser 200 "Login successful" user
      /\ fst (Auth.me (snd (fst (Auth.login body ip session h s))) h
                (snd (Auth.login body ip session h s)))
         = (Auth.Me 200 true (Some user), snd (fst (Auth.login body ip session h s)))
      /\ users (snd (Auth.me (snd (fst (Auth.login body ip session h s))) h
                       (snd (Auth.login body ip session h s))))
         = users (snd (Auth.login body ip session h s))
      /\ stores (snd (Auth.me (snd (fst (Auth.login body ip session h s))) h
                        (snd (Auth.login body ip session h s))))
         = stores (snd (Auth.login body ip session h s)).
Proof.
  intros h s body ip session Hnd Hne. rewrite me_run. cbn [fst snd users stores world db].
  unfold Auth.login. site_steps.
  destruct (Auth.email body) as [email |]; [| discriminate].
  destruct (Auth.password body) as [password |]; [| discriminate].
  destruct (Auth.blank email || String.eqb password ""); [discriminate |].
  site_steps.
  destruct (JsMap.get (toLowerCase h email) (users s)) as [user |] eqn:Eget; site_steps;
    [| discriminate].
  destruct (negb (bcrypt_compare h password (User.password_hash user))); [discriminate |].
  destruct session as [sess |]; site_steps; [| discriminate].
  rewrite !bindS_run. site_steps. intros _.
  exists (Auth.info user). split; [reflexivity |].
  apply get_value_in in Eget as Hin.
  assert (Hid : User.id user <> "").
  { rewrite Forall_forall in Hne. now apply Hne. }
  cbn [Auth.logged_in Gate.session_userId required].
  apply String.eqb_neq in Hid. rewrite Hid.
  unfold Db_users.updateLastLogin. site_steps.
  rewrite (find_has_id_first _ _ Hnd Hin). site_steps.
  rewrite (find_touch _ _ _ Hnd Hin). repeat split.
Qed.

Lemma me_after_login_reports_the_user_logged_in_witness :
  exists user,
    fst (Auth.me
           (snd (fst (Auth.login
                        (Auth.mkCredentials (Some "alice@example.org") (Some "CorrectHorse7!")
                           None None)
                        (Some "198.51.100.4") fresh_session example_host alice_signed_up)))
           example_host
           (snd (Auth.login
                   (Auth.mkCredentials (Some "alice@example.org") (Some "CorrectHorse7!")
                      None None)
                   (Some "198.51.100.4") fresh_session example_host alice_signed_up)))
    = (Auth.Me 200 true (Some user),
       Some (Gate.mkSession (Some "r") (Some "alice@example.org")))
    /\ Auth.info_name user = "Alice".
Proof.
  destruct (me_after_login_reports_the_user_logged_in example_host alice_signed_up
              (Auth.mkCredentials (Some "alice@example.org") (Some "CorrectHorse7!") None None)
              (Some "198.51.100.4") fresh_session)
    as (user & Hlogin & Hme & _).
  - vm_compute. repeat constructor. intros [].
  - vm_compute. repeat constructor. discriminate.
  - vm_compute. reflexivity.
  - exists user. rewrite Hme. vm_compute in Hlogin. injection Hlogin as <-.
    split; vm_compute; reflexivity.
Defined.

(** ** Checkout *)

(** X23: POST /api/payment/create-checkout never changes the users, and
    changes the stores only when it answers with a checkout: then the
    session names a stored user, the plan id of the body is one [getPlan]
    finds, the token is the uuid drawn, the price in the answer is the one
    of the table, and the stores are those [create_checkout], the form of
    the route in the transition system, leaves for that user, plan and
    token once [Date.now()] has been read.  Every other answer is a 400,
    401 or 500 and leaves the stores as they are. *)
Theorem checkout_route_writes_what_create_checkout_writes :
  forall h s planId req,
    users (snd (Checkout.create_checkout planId req h s)) = users s
    /\ match fst (Checkout.create_checkout planId req h s) with
       | Checkout.Redirect created =>
           exists uid pl user,
             session_user req = Some uid
             /\ required planId = Some pl
             /\ Plans.getPlan pl <> Plans.Null
             /\ find (Db_users.has_id (Some uid)) (JsMap.values (users s)) = Some user
             /\ Checkout.paymentToken created = uuidv4 h (uuid_draws s)
             /\ Checkout.plan_price created = Plans.price_of (Plans.getPlan pl)
             /\ stores (snd (Checkout.create_checkout planId req h s))
                = db (snd (create_checkout uid pl (uuidv4 h (uuid_draws s)) (Gate.ip req)
                             (base h) (after_Date_now (world s))))
       | Checkout.Flat res =>
           stores (snd (Checkout.create_checkout planId req h s)) = stores s
           /\ In (status_of res) [400; 401; 500]
       end.
Proof.
  intros h s planId req. unfold Checkout.create_checkout.
  rewrite bindS_run, (lift_run (Gate.requireAuth req)), requireAuth_run.
  cbn [fst snd]. unfold session_user.
  destruct (Gate.session req) as [sess |];
    [| site_steps; split; [reflexivity |]; split; [reflexivity | simpl; tauto]].
  destruct (required (Gate.session_userId sess)) as [uid |] eqn:Hu;
    [| site_steps; split; [reflexivity |]; split; [reflexivity | simpl; tauto]].
  apply required_inv in Hu as Hid.
  unfold Checkout.handler. site_steps. cbn [Gate.userId Gate.ip].
  destruct (required planId) as [pl |] eqn:Hpl;
    [| site_steps; split; [reflexivity |]; split; [reflexivity | simpl; tauto]].
  unfold create_checkout.
  destruct (Plans.getPlan pl) as [p | |] eqn:Hplan;
    [| | site_steps; split; [reflexivity |]; split; [reflexivity | simpl; tauto]];
    site_steps; rewrite Hid; cbn [Db_users.has_id];
    (destruct (find _ (JsMap.values (users s))) as [user |] eqn:Hfind; site_steps;
     [| split; [reflexivity |]; split; [reflexivity | simpl; tauto]]);
    cbn [Db_payments.create bind enter random_id new_Date get_db put_db ret fst snd db
         clock_reads random_draws calls after_Date_now users stores world subscriptions
         payments auditLog Checkout.paymentToken Checkout.plan_price];
    (split; [reflexivity |]);
    exists uid, pl, user; rewrite Hplan; repeat split; try assumption; discriminate.
Qed.

(** ** The list of articles *)

Lemma requireSubscription_run req uid e w :
  Gate.userId req = Some uid -> uid <> "" ->
  Gate.requireSubscription req e w
  = (match active_now e w uid with
     | [] =>
         Gate.End (Json 403 [("error", VString "Forbidden");
                             ("message", VString "Active subscription required")])
     | first :: _ =>
         Gate.Next (Gate.mkRequest (Gate.session req) (Gate.params_filename req) (Gate.ip req)
                      (Gate.userId req) (Gate.userEmail req) (Some first))
     end,
     mkWorld (db w)
       (snd (active_from e (clock_reads w) (subscriptions_of (Some uid) (db w))))
       (random_draws w)
       ((calls w ++ ["requireSubscription"])
        ++ ["db.subscriptions.findActiveByUserId"; "db.subscriptions.findByUserId"])).
Proof.
  intros Hu Hne. unfold Gate.requireSubscription, active_now, bind, enter, ret.
  cbn [fst snd]. rewrite Hu. cbn [required]. apply String.eqb_neq in Hne. rewrite Hne.
  rewrite findActiveByUserId_run. cbn [fst snd db clock_reads random_draws calls].
  destruct (fst (active_from _ _ _)); reflexivity.
Qed.

(** X24: GET /api/articles/subscribed lists the articles only for a session
    that names a stored user for whom the store holds a subscription that
    is active and not yet expired at a reading of the clock taken during
    the request; the answer names that user and that subscription.  Users,
    subscriptions and payments are as before and exactly one audit entry
    [articles_accessed] for the user was appended.  Every article listed is
    a file of the download whitelist, under the URL of the download
    route. *)
Theorem articles_are_listed_for_active_subscribers_only :
  forall h s req listing,
    fst (Articles.subscribed req h s) = Articles.Listed listing ->
    exists uid user n entry,
      session_user req = Some uid
      /\ find (Db_users.has_id (Some uid)) (JsMap.values (users s)) = Some user
      /\ Articles.listing_user listing = User.name user
      /\ In (Articles.listing_subscription listing) (JsMap.values (subscriptions (stores s)))
      /\ Subscription.user_id (Articles.listing_subscription listing) = uid
      /\ Subscription.status (Articles.listing_subscription listing) = "active"
      /\ (clock_reads (world s) <= n)%nat
      /\ clock (base h) n < Subscription.expires_at (Articles.listing_subscription listing)
      /\ users (snd (Articles.subscribed req h s)) = users s
      /\ subscriptions (stores (snd (Articles.subscribed req h s))) = subscriptions (stores s)
      /\ payments (stores (snd (Articles.subscribed req h s))) = payments (stores s)
      /\ auditLog (stores (snd (Articles.subscribed req h s))) = auditLog (stores s) ++ [entry]
      /\ AuditEntry.action entry = "articles_accessed"
      /\ AuditEntry.user_id entry = Some uid
      /\ Forall (fun a =>
                   JsMap.get (Articles.fileName a) Gate.ALLOWED_FILES <> None
                   /\ Articles.url a
                      = String.append "/api/articles/download/" (Articles.fileName a))
                (Articles.listing_articles listing).
Proof.
  intros h s req listing. unfold Articles.subscribed.
  rewrite bindS_run, (lift_run (Gate.requireAuth req)), requireAuth_run.
  cbn [fst snd]. unfold session_user.
  destruct (Gate.session req) as [sess |]; [| discriminate].
  destruct (required (Gate.session_userId sess)) as [uid |] eqn:Hu; [| discriminate].
  apply required_some in Hu as [Hid Hne].
  rewrite bindS_run, lift_run.
  rewrite (requireSubscription_run _ uid) by (cbn [Gate.userId]; assumption).
  cbn [fst snd world users bcrypt_draws uuid_draws base db clock_reads random_draws calls].
  unfold active_now. cbn [db clock_reads].
  destruct (active_from (base h) (clock_reads (world s))
              (subscriptions_of (Some uid) (db (world s)))) as [gate reads1] eqn:Egate.
  cbn [fst snd]. destruct gate as [| first0 rest0]; [discriminate |].
  unfold Articles.subscribed_handler. site_steps. cbn [Gate.userId Gate.ip]. rewrite Hid.
  rewrite !bindS_run, lift_run, findActiveByUserId_run.
  cbn [fst snd world users bcrypt_draws uuid_draws base db clock_reads random_draws calls].
  destruct (active_from (base h) reads1 (subscriptions_of (Some uid) (db (world s))))
    as [again reads2] eqn:Eagain.
  cbn [fst snd]. destruct again as [| first rest]; [discriminate |].
  site_steps.
  destruct (find (Db_users.has_id (Some uid)) (JsMap.values (users s))) as [user |] eqn:Hfind;
    [| discriminate].
  site_steps. intros H. injection H as <-.
  cbn [Articles.listing_user Articles.listing_subscription Articles.listing_articles].
  assert (Hin : In first (fst (active_from (base h) reads1
                                 (subscriptions_of (Some uid) (db (world s))))))
    by (rewrite Eagain; now left).
  apply active_from_sound in Hin as (Hsub & Hst & n & Hn & Hclk).
  apply subscriptions_of_sound in Hsub as [Hstored Huser]. injection Huser as Huser.
  assert (Hreads : (clock_reads (world s) <= reads1)%nat).
  { clear - Egate.
    assert (G : forall subs reads, (reads <= snd (active_from (base h) reads subs))%nat).
    { induction subs as [| x subs IH]; intros reads; simpl; [lia |].
      destruct (String.eqb (Subscription.status x) "active").
      - specialize (IH (S reads)). destruct (active_from (base h) (S reads) subs).
        simpl in *. lia.
      - apply IH. }
    specialize (G (subscriptions_of (Some uid) (db (world s))) (clock_reads (world s))).
    rewrite Egate in G. exact G. }
  exists uid, user, n. eexists.
  repeat split; try eassumption; try reflexivity; try congruence; try lia.
  unfold Articles.articles. repeat constructor; discriminate.
Qed.

Lemma articles_are_listed_for_active_subscribers_only_witness :
  exists listing,
    fst (Articles.subscribed alice_request example_host alice_subscribed)
    = Articles.Listed listing
    /\ Articles.listing_user listing = "Alice"
    /\ Subscription.plan_id (Articles.listing_subscription listing) = "starter".
Proof.
  assert (H : exists listing,
             fst (Articles.subscribed alice_request example_host alice_subscribed)
             = Articles.Listed listing).
  { vm_compute. eexists. reflexivity. }
  destruct H as (listing & H). exists listing. split; [exact H |].
  destruct (articles_are_listed_for_active_subscribers_only _ _ _ _ H)
    as (uid & user & n & entry & _ & _ & _ & _).
  vm_compute in H. injection H as <-. split; reflexivity.
Defined.

(** ** Records are never deleted *)

Section Holds.

Context (e : Env) (I : World -> Prop).

Lemma holds_ret {A} (a : A) : holds e I (ret a).
Proof. intros w H. exact H. Qed.

Lemma holds_bind {A B} (m : M A) (f : A -> M B) :
  holds e I m -> (forall a, holds e I (f a)) -> holds e I (bind m f).
Proof.
  intros Hm Hf w H. unfold bind. specialize (Hm w H).
  destruct (m e w) as [a w']. now apply Hf.
Qed.

Lemma holds_env : holds e I env.
Proof. intros w H. exact H. Qed.

End Holds.

Section Outlived.

Context (e : Env) (w0 : World) (Hunused : ids_unused e w0).

Lemma outlived_refl : outlived w0 w0.
Proof.
  split; [lia |]. split; intros k x Hx; exists x; (split; [exact Hx | now repeat split]).
Qed.

(** Steps that leave the stores and do not rewind the random source. *)
Lemma outlived_step (w w' : World) :
  db w' = db w -> (random_draws w <= random_draws w')%nat ->
  outlived w0 w -> outlived w0 w'.
Proof.
  intros Hdb Hr (H1 & H2 & H3). unfold outlived. rewrite Hdb.
  split; [lia |]. split; assumption.
Qed.

Lemma outlived_enter name : holds e (outlived w0) (enter name).
Proof. intros w H. now apply (outlived_step w). Qed.

Lemma outlived_get_db : holds e (outlived w0) get_db.
Proof. intros w H. exact H. Qed.

Lemma outlived_new_Date : holds e (outlived w0) new_Date.
Proof. intros w H. now apply (outlived_step w). Qed.

Lemma outlived_random_id : holds e (outlived w0) random_id.
Proof. intros w H. apply (outlived_step w); simpl; auto. Qed.

Lemma outlived_findByStripeId tok : holds e (outlived w0) (Db_payments.findByStripeId tok).
Proof. intros w H. now apply (outlived_step w). Qed.

Lemma outlived_findByUserId u : holds e (outlived w0) (Db_subscriptions.findByUserId u).
Proof. intros w H. now apply (outlived_step w). Qed.

Lemma outlived_findActiveByUserId u :
  holds e (outlived w0) (Db_subscriptions.findActiveByUserId u).
Proof.
  intros w H. rewrite findActiveByUserId_run. now apply (outlived_step w).
Qed.

Lemma outlived_audit_log u a d : holds e (outlived w0) (Db_audit.log u a d).
Proof.
  intros w (H1 & H2 & H3). split; [simpl; lia |]. split; assumption.
Qed.

Lemma outlived_subscriptions_create u p tok ex :
  holds e (outlived w0) (Db_subscriptions.create u p tok ex).
Proof.
  intros w (H1 & H2 & H3). split; [simpl; lia |]. split; [| exact H3].
  intros k sub Hk. simpl.
  destruct (Hunused (random_draws w) H1) as [Hfree _].
  rewrite get_of_set_elsewhere; [now apply H2 |].
  intros ->. congruence.
Qed.

Lemma outlived_payments_create u p tok amt :
  holds e (outlived w0) (Db_payments.create u p tok amt).
Proof.
  intros w (H1 & H2 & H3). split; [simpl; lia |]. split; [exact H2 |].
  intros k pay Hk. simpl.
  destruct (Hunused (random_draws w) H1) as [_ Hfree].
  rewrite get_of_set_elsewhere; [now apply H3 |].
  intros ->. congruence.
Qed.

Lemma outlived_subscriptions_updateStatus k st :
  holds e (outlived w0) (Db_subscriptions.updateStatus k st).
Proof.
  intros w (H1 & H2 & H3).
  unfold Db_subscriptions.updateStatus, bind, enter, get_db. simpl.
  destruct (JsMap.get k (subscriptions (db w))) as [sub |] eqn:E; simpl;
    [| split; [simpl; lia | split; assumption]].
  split; [simpl; lia |]. split; [| exact H3].
  intros k0 s0 Hk0. simpl. destruct (H2 k0 s0 Hk0) as (s' & Hs' & Hsame).
  destruct (String.eqb_spec k0 k) as [-> | Hne].
  - rewrite get_of_set_here. eexists. split; [reflexivity |].
    rewrite E in Hs'. injection Hs' as <-. exact Hsame.
  - rewrite get_of_set_elsewhere by assumption. now exists s'.
Qed.

Lemma outlived_payments_updateStatus k st :
  holds e (outlived w0) (Db_payments.updateStatus k st).
Proof.
  intros w (H1 & H2 & H3).
  unfold Db_payments.updateStatus, bind, enter, get_db. simpl.
  destruct (JsMap.get k (payments (db w))) as [pay |] eqn:E; simpl;
    [| split; [simpl; lia | split; assumption]].
  split; [simpl; lia |]. split; [exact H2 |].
  intros k0 p0 Hk0. simpl. destruct (H3 k0 p0 Hk0) as (p' & Hp' & Hsame).
  destruct (String.eqb_spec k0 k) as [-> | Hne].
  - rewrite get_of_set_here. eexists. split; [reflexivity |].
    rewrite E in Hp'. injection Hp' as <-. exact Hsame.
  - rewrite get_of_set_elsewhere by assumption. now exists p'.
Qed.

End Outlived.

(** Breaks a [holds] goal down along the structure of the computation. *)
Ltac holds_walk H :=
  repeat match goal with
    | |- holds _ _ (ret _) => apply holds_ret
    | |- holds _ _ env => apply holds_env
    | |- holds _ _ (enter _) => apply outlived_enter
    | |- holds _ _ get_db => apply outlived_get_db
    | |- holds _ _ new_Date => apply outlived_new_Date
    | |- holds _ _ random_id => apply outlived_random_id
    | |- holds _ _ (Db_payments.findByStripeId _) => apply outlived_findByStripeId
    | |- holds _ _ (Db_subscriptions.findByUserId _) => apply outlived_findByUserId
    | |- holds _ _ (Db_subscriptions.findActiveByUserId _) =>
        apply outlived_findActiveByUserId
    | |- holds _ _ (Db_audit.log _ _ _) => apply outlived_audit_log
    | |- holds _ _ (Db_subscriptions.create _ _ _ _) =>
        apply (outlived_subscriptions_create _ _ H)
    | |- holds _ _ (Db_payments.create _ _ _ _) => apply (outlived_payments_create _ _ H)
    | |- holds _ _ (Db_subscriptions.updateStatus _ _) =>
        apply outlived_subscriptions_updateStatus
    | |- holds _ _ (Db_payments.updateStatus _ _) => apply outlived_payments_updateStatus
    | |- holds _ _ (match ?x with _ => _ end) => destruct x
    | |- holds _ _ (bind _ _) => apply holds_bind; [| intros ?]
    end.

Lemma outlived_serve e w0 r : ids_unused e w0 -> holds e (outlived w0) (serve r).
Proof.
  intros H. destruct r; cbn [serve].
  - unfold Ipn.webhook, Ipn.dispatch, Ipn.handlePaymentSucceeded, Ipn.handlePaymentFailed,
      Ipn.handlePaymentPending, Ipn.handlePaymentRefunded.
    cbv zeta. holds_walk H.
  - unfold create_checkout. holds_walk H.
  - unfold Gate.download, Gate.route, Gate.requireAuth, Gate.requireSubscription,
      Gate.download_handler, Gate.ALLOWED_FILES_has.
    cbv zeta. holds_walk H.
  - holds_walk H.
Qed.

(** X25: no request deletes a record or hands it to somebody else: as long
    as the random source gives no id that is in use, every subscription and
    every payment stored before a request is stored after it under the same
    key, with the same id, user, plan, token, amount or expiry, and time of
    creation; a request can only change its status and time of update. *)
Theorem records_outlive_requests :
  forall e w r,
    ids_unused e w ->
    (forall k sub,
       JsMap.get k (subscriptions (db w)) = Some sub ->
       exists sub',
         JsMap.get k (subscriptions (db (snd (serve r e w)))) = Some sub'
         /\ same_subscription sub sub')
    /\ (forall k pay,
          JsMap.get k (payments (db w)) = Some pay ->
          exists pay',
            JsMap.get k (payments (db (snd (serve r e w)))) = Some pay'
            /\ same_payment pay pay').
Proof.
  intros e w r H.
  destruct (outlived_serve e w r H w (outlived_refl w)) as (_ & H2 & H3).
  split; assumption.
Qed.

Lemma example_ids_unused_after_first_delivery : ids_unused example_env after_first_delivery.
Proof.
  intros n Hn. change (random_draws after_first_delivery) with 2%nat in Hn.
  destruct n as [| [| n]]; [lia | lia |]. split; reflexivity.
Qed.

Lemma records_outlive_requests_witness :
  exists sub',
    JsMap.get "r"
      (subscriptions
         (db (snd (serve (Webhook (sign example_env refund_of_pending) refund_of_pending)
                     example_env after_first_delivery))))
    = Some sub'
    /\ same_subscription first_subscription sub'.
Proof.
  destruct (records_outlive_requests example_env after_first_delivery
              (Webhook (sign example_env refund_of_pending) refund_of_pending)
              example_ids_unused_after_first_delivery) as [H _].
  apply H. vm_compute. reflexivity.
Defined.

(** X26: [db.subscriptions.create] and [db.payments.create] do not check
    that the id they draw is free: when the random source repeats an id
    that is in use, the new record takes the place of the stored one, which
    is lost, and the map holds as many records as before. *)
Theorem create_with_an_id_in_use_replaces_the_record :
  forall e w userId planId token,
    (forall expiresAt old,
       JsMap.get (random e (random_draws w)) (subscriptions (db w)) = Some old ->
       JsMap.get (random e (random_draws w))
         (subscriptions (db (snd (Db_subscriptions.create userId planId token expiresAt e w))))
       = Some (fst (Db_subscriptions.create userId planId token expiresAt e w))
       /\ JsMap.keys (subscriptions
                        (db (snd (Db_subscriptions.create userId planId token expiresAt e w))))
          = JsMap.keys (subscriptions (db w)))
    /\ (forall tok amount old,
          JsMap.get (random e (random_draws w)) (payments (db w)) = Some old ->
          JsMap.get (random e (random_draws w))
            (payments (db (snd (Db_payments.create userId planId tok amount e w))))
          = Some (fst (Db_payments.create userId planId tok amount e w))
          /\ JsMap.keys (payments (db (snd (Db_payments.create userId planId tok amount e w))))
             = JsMap.keys (payments (db w))).
Proof.
  assert (Hkeys : forall V (m : JsMap.t V) k v old,
             JsMap.get k m = Some old -> JsMap.keys (JsMap.set k v m) = JsMap.keys m).
  { intros V m k v old. induction m as [| [k0 v0] m IH]; simpl; [discriminate |].
    destruct (String.eqb_spec k k0) as [-> | Hne]; simpl; [reflexivity |].
    intros H. now rewrite IH. }
  intros e w userId planId token. split.
  - intros expiresAt old Hold. simpl. split; [apply get_of_set_here |].
    now apply (Hkeys _ _ _ _ old).
  - intros tok amount old Hold. simpl. split; [apply get_of_set_here |].
    now apply (Hkeys _ _ _ _ old).
Qed.

Lemma create_with_an_id_in_use_replaces_the_record_witness :
  JsMap.get "r" (subscriptions (db after_first_delivery)) = Some first_subscription
  /\ Subscription.user_id
       (fst (Db_subscriptions.create "u2" "unlimited" None 0
               (mkEnv (clock example_env) (fun _ => "r") (fun _ _ => 0) None "" (fun _ => None))
               after_first_delivery)) = "u2"
  /\ JsMap.keys
       (subscriptions
          (db (snd (Db_subscriptions.create "u2" "unlimited" None 0
                      (mkEnv (clock example_env) (fun _ => "r") (fun _ _ => 0) None "" (fun _ => None))
                      after_first_delivery))))
     = ["r"].
Proof.
  assert (H : JsMap.get "r" (subscriptions (db after_first_delivery))
              = Some first_subscription) by (vm_compute; reflexivity).
  split; [exact H |]. split; [reflexivity |].
  destruct (create_with_an_id_in_use_replaces_the_record
              (mkEnv (clock example_env) (fun _ => "r") (fun _ _ => 0) None "" (fun _ => None))
              after_first_delivery "u2" "unlimited" None) as [Hs _].
  destruct (Hs 0 first_subscription H) as [_ Hk]. rewrite Hk. vm_compute. reflexivity.
Defined.

(** ** Startup *)

Lemma first_missing_none process_env names :
  Server.first_missing process_env names = None <->
  forall name, In name names -> exists v, process_env name = Some v /\ v <> "".
Proof.
  induction names as [| n names IH]; simpl.
  - split; [intros _ name [] | reflexivity].
  - destruct (required (process_env n)) as [v |] eqn:E.
    + rewrite IH. apply required_some in E. split.
      * intros H name [<- | Hin]; [now exists v | now apply H].
      * intros H name Hin. apply H. now right.
    + split; [discriminate |]. intros H. destruct (H n (or_introl eq_refl)) as (v & Hv & Hne).
      rewrite Hv in E. simpl in E. apply String.eqb_neq in Hne. rewrite Hne in E. discriminate.
Qed.

(** X27: the server goes on to listen exactly when the five variables it
    checks are set and not empty; [PAYONEER_IPN_SECRET] is none of them, so
    the check passes with or without it.  Without it, every notification
    that comes with a signature is answered 200 with [received: true] and
    the message of the error [crypto.createHmac] throws, and nothing is
    written. *)
Theorem server_starts_without_the_ipn_secret :
  forall process_env,
    (Server.startup process_env = None <->
     forall name, In name Server.requiredEnv ->
                  exists v, process_env name = Some v /\ v <> "")
    /\ (forall value,
          Server.startup (with_variable "PAYONEER_IPN_SECRET" value process_env)
          = Server.startup process_env)
    /\ (forall e w signature s ipnData,
          PAYONEER_IPN_SECRET e = process_env "PAYONEER_IPN_SECRET" ->
          process_env "PAYONEER_IPN_SECRET" = None ->
          required signature = Some s ->
          Ipn.webhook signature ipnData e w
          = (Json 200 [("received", VBool true); ("error", VString Ipn.invalid_key_message)],
             w)).
Proof.
  intros process_env. split; [apply first_missing_none |]. split.
  - intros value. reflexivity.
  - intros e w signature s ipnData He Hnone Hs.
    unfold Ipn.webhook, Ipn.verifyPayoneerSignature, bind, env, ret.
    rewrite Hs, He, Hnone. reflexivity.
Qed.

Lemma server_starts_without_the_ipn_secret_witness :
  Server.startup example_process_env = None
  /\ example_process_env "PAYONEER_IPN_SECRET" = None
  /\ fst (Ipn.webhook (Some "00") success_u1_starter example_env_without_secret initial)
     = Json 200 [("received", VBool true); ("error", VString Ipn.invalid_key_message)].
Proof.
  split; [reflexivity |]. split; [reflexivity |].
  destruct (server_starts_without_the_ipn_secret example_process_env) as (_ & _ & H).
  rewrite (H example_env_without_secret initial (Some "00") "00" success_u1_starter
             eq_refl eq_refl eq_refl).
  reflexivity.
Defined.

(** ** Looking a subscription up by its token *)

Lemma find_set_new {V} (f : V -> bool) (m : JsMap.t V) (k : string) (v : V) :
  find f (JsMap.values m) = None -> f v = true ->
  find f (JsMap.values (JsMap.set k v m)) = Some v.
Proof.
  induction m as [| [k0 v0] m IH]; simpl; intros Hnone Hv.
  - now rewrite Hv.
  - destruct (f v0) eqn:E0; [discriminate |].
    destruct (String.eqb k k0); simpl; [now rewrite Hv |].
    rewrite E0. now apply IH.
Qed.

(** X28: a subscription can be found by the token it was paid with: after
    [handlePaymentSucceeded] has granted, [db.subscriptions.findByStripeId]
    with the token of the notification returns the subscription just
    created, active, for the user and plan of the notification, expiring
    where [setDate(getDate() + duration_days)] puts the time of the grant:
    as many days of the local calendar later as the plan lasts, at the same
    local time of day, provided no older subscription carries the token.
    This holds as well when the notification has no token: [undefined] is
    looked up like any value. *)
Theorem granted_subscription_is_found_by_its_token :
  forall e e' w ipnData userId planId p,
    wf (db w) ->
    granting ipnData (db w) = Some (userId, planId, p) ->
    fst (Db_subscriptions.findByStripeId (Ipn.field "token" ipnData) e w) = None ->
    exists sub,
      fst (Db_subscriptions.findByStripeId (Ipn.field "token" ipnData) e'
             (snd (Ipn.handlePaymentSucceeded ipnData e w)))
      = Some sub
      /\ Subscription.user_id sub = userId
      /\ Subscription.plan_id sub = planId
      /\ Subscription.status sub = "active"
      /\ Subscription.expires_at sub
         = Ipn.setDate_plus e (clock e (clock_reads w)) (Plans.duration_days p).
Proof.
  intros e e' w ipnData userId planId p Hwf Hg Hnone.
  destruct (grant_effect ipnData e w userId planId p Hwf Hg) as (Hs & _).
  cbv zeta in Hs. revert Hnone.
  unfold Db_subscriptions.findByStripeId, bind, enter, get_db, ret. cbn [fst snd db].
  intros Hnone. rewrite Hs. eexists. split.
  - apply find_set_new; [exact Hnone |].
    cbn [Subscription.stripe_subscription_id].
    destruct (Ipn.field "token" ipnData); [apply String.eqb_refl | reflexivity].
  - repeat split.
Qed.

Lemma reachable_after_checkout : reachable example_env after_checkout.
Proof. apply reachable_serve, reachable_initial. Qed.

(** In a process in UTC the subscription expires [duration_days] times
    86400000 ms after the grant; across a change of the local offset it does
    not. *)
Lemma expiry_counts_local_calendar_days :
  Ipn.setDate_plus example_env 1698000000000 30 = 1698000000000 + 30 * Ipn.ms_per_day
  /\ Ipn.setDate_plus berlin_env 1698000000000 30 = 1700595600000
  /\ 1698000000000 + 30 * Ipn.ms_per_day = 1700592000000.
Proof. repeat split. Qed.

Lemma granted_subscription_is_found_by_its_token_witness :
  exists sub,
    fst (Db_subscriptions.findByStripeId (Some "tok_1") berlin_env
           (snd (Ipn.handlePaymentSucceeded success_u1_starter berlin_env initial)))
    = Some sub
    /\ Subscription.user_id sub = "u1"
    /\ Subscription.plan_id sub = "starter"
    /\ Subscription.status sub = "active"
    /\ Subscription.expires_at sub = 1700595600000.
Proof.
  destruct (granted_subscription_is_found_by_its_token berlin_env berlin_env initial
              success_u1_starter "u1" "starter"
              (Plans.mkPlan "starter" "Starter" "10 articles per month" 9800 "usd" 10 30
                 ["10 articles per month"; "Access to text articles"; "Email support"])
              (reachable_wf berlin_env initial (reachable_start berlin_env initial eq_refl))
              ltac:(vm_compute; reflexivity) ltac:(vm_compute; reflexivity))
    as (sub & Hf & Hu & Hp & Hs & He).
  exists sub. repeat split; assumption.
Defined.

(** ** The amount of a notification *)

Lemma below_forallb (f : Z -> bool) (n : nat) :
  forallb f (below n) = true -> forall z, 0 <= z < Z.of_nat n -> f z = true.
Proof.
  intros H z Hz. rewrite forallb_forall in H. apply H. unfold below.
  apply in_map_iff. exists (Z.to_nat z). split; [lia |]. apply in_seq. lia.
Qed.

(** X29: for every amount below 1000 that is written with two decimals,
    [Math.round(parseFloat(amount) * 100)] is the amount in cents, exactly:
    the binary fractions of [parseFloat] and of the product never move the
    result to a neighbouring cent. *)
Theorem two_decimal_amounts_convert_exactly :
  forall dollars cents,
    0 <= dollars < 1000 -> 0 <= cents < 100 ->
    JsNumber.strict_eq (Ipn.amountInCents (amount_text dollars cents))
                       (JsNumber.of_Z (100 * dollars + cents)) = true.
Proof.
  assert (H : forallb (fun d => forallb (cents_are_exact d) (below 100)) (below 1000) = true)
    by (vm_compute; reflexivity).
  intros dollars cents Hd Hc.
  pose proof (below_forallb _ _ H dollars Hd) as H1. cbv beta in H1.
  exact (below_forallb _ _ H1 cents Hc).
Qed.

Lemma two_decimal_amounts_convert_exactly_witness :
  amount_text 0 29 = "0.29"
  /\ JsNumber.strict_eq (Ipn.amountInCents "0.29") (JsNumber.of_Z 29) = true.
Proof.
  split; [reflexivity |].
  exact (two_decimal_amounts_convert_exactly 0 29 ltac:(lia) ltac:(lia)).
Defined.

(** ** The text that is signed *)

Lemma in_all_ascii (c : ascii) : In c all_ascii.
Proof.
  unfold all_ascii. apply in_map_iff. exists (nat_of_ascii c).
  split; [apply ascii_nat_embedding |]. apply in_seq.
  pose proof (nat_ascii_bounded c). lia.
Qed.

Lemma diverge_app (a b x y : string) : diverge a b = true -> (a ++ x)%string <> (b ++ y)%string.
Proof.
  revert b. induction a as [| c a IH]; intros [| d b]; simpl; try discriminate.
  destruct (Ascii.eqb_spec c d) as [-> | Hne].
  - intros H E. injection E as E. exact (IH b H E).
  - intros _ E. injection E as E _. contradiction.
Qed.

Lemma append_inv_head (a x y : string) : (a ++ x)%string = (a ++ y)%string -> x = y.
Proof. induction a as [| c a IH]; simpl; [auto |]. intros E. injection E as E. auto. Qed.

Lemma json_escape_char_diverges (c d : ascii) :
  c <> d -> diverge (Ipn.json_escape_char c) (Ipn.json_escape_char d) = true.
Proof.
  assert (H : forallb (fun c =>
                forallb (fun d =>
                  Ascii.eqb c d
                  || diverge (Ipn.json_escape_char c) (Ipn.json_escape_char d))
                  all_ascii) all_ascii = true) by (vm_compute; reflexivity).
  intros Hne. rewrite forallb_forall in H. specialize (H c (in_all_ascii c)).
  rewrite forallb_forall in H. specialize (H d (in_all_ascii d)).
  apply Ascii.eqb_neq in Hne. now rewrite Hne in H.
Qed.

Lemma json_escape_char_not_quote (c : ascii) :
  diverge (Ipn.json_escape_char c) quote = true.
Proof.
  assert (H : forallb (fun c => diverge (Ipn.json_escape_char c) quote) all_ascii = true)
    by (vm_compute; reflexivity).
  rewrite forallb_forall in H. apply H, in_all_ascii.
Qed.

Lemma diverge_sym (a b : string) : diverge a b = diverge b a.
Proof.
  revert b. induction a as [| c a IH]; intros [| d b]; simpl; try reflexivity.
  rewrite (Ascii.eqb_sym c d). destruct (Ascii.eqb d c); [apply IH | reflexivity].
Qed.

Lemma append_assoc (a b c : string) : ((a ++ b) ++ c)%string = (a ++ (b ++ c))%string.
Proof. induction a as [| x a IH]; simpl; [reflexivity | now rewrite IH]. Qed.

(** A string in quotes can be read back from the front of a text. *)
Lemma json_escape_inj (s s' x y : string) :
  (Ipn.json_escape s ++ quote ++ x)%string = (Ipn.json_escape s' ++ quote ++ y)%string ->
  s = s' /\ x = y.
Proof.
  revert s'. induction s as [| c s IH]; intros [| d s']; cbn [Ipn.json_escape].
  - intros E. split; [reflexivity |]. now apply (append_inv_head quote).
  - rewrite append_assoc. intros E. symmetry in E.
    now apply (diverge_app _ _ _ _ (json_escape_char_not_quote d)) in E.
  - rewrite append_assoc. intros E.
    now apply (diverge_app _ _ _ _ (json_escape_char_not_quote c)) in E.
  - rewrite !append_assoc. intros E.
    destruct (ascii_dec c d) as [-> | Hne].
    + apply append_inv_head in E. destruct (IH _ E) as [-> ->]. now split.
    + now apply (diverge_app _ _ _ _ (json_escape_char_diverges c d Hne)) in E.
Qed.

Lemma json_string_inj (s s' x y : string) :
  (Ipn.json_string s ++ x)%string = (Ipn.json_string s' ++ y)%string -> s = s' /\ x = y.
Proof.
  unfold Ipn.json_string. rewrite !append_assoc. intros E.
  apply append_inv_head in E. now apply json_escape_inj in E.
Qed.

Lemma json_members_inj (o o' : Ipn.IpnData) :
  (Ipn.json_members o ++ "}")%string = (Ipn.json_members o' ++ "}")%string -> o = o'.
Proof.
  revert o'. induction o as [| [k v] o IH]; intros [| [k' v'] o'].
  - reflexivity.
  - cbn [Ipn.json_members]. destruct o'; unfold Ipn.json_string; rewrite !append_assoc;
      intros E; simpl in E; discriminate.
  - cbn [Ipn.json_members]. destruct o; unfold Ipn.json_string; rewrite !append_assoc;
      intros E; simpl in E; discriminate.
  - intros E.
    assert (E' : (Ipn.json_string k ++ ":" ++ Ipn.json_string v
                  ++ (match o with [] => "" | _ => "," ++ Ipn.json_members o end) ++ "}")%string
                 = (Ipn.json_string k' ++ ":" ++ Ipn.json_string v'
                    ++ (match o' with [] => "" | _ => "," ++ Ipn.json_members o' end)
                    ++ "}")%string).
    { cbn [Ipn.json_members] in E. destruct o, o'; rewrite ?append_assoc in E;
        cbn [String.append] in *; rewrite ?append_assoc in E; exact E. }
    apply json_string_inj in E' as [-> E']. apply (append_inv_head ":") in E'.
    apply json_string_inj in E' as [-> E'].
    destruct o as [| kv o], o' as [| kv' o'].
    + reflexivity.
    + simpl in E'. discriminate.
    + simpl in E'. discriminate.
    + f_equal. apply IH. rewrite !append_assoc in E'. now apply (append_inv_head ",") in E'.
Qed.

(** X30: the text whose HMAC is compared with the signature determines the
    body: two parsed bodies are serialized to the same text only when they
    hold the same fields with the same values in the same order.  A
    signature that is accepted for two different bodies is therefore a
    collision of the HMAC itself. *)
Theorem signed_text_determines_the_body :
  forall ipnData ipnData',
    Ipn.JSON_stringify ipnData = Ipn.JSON_stringify ipnData' <-> ipnData = ipnData'.
Proof.
  intros o o'. split; [| now intros ->].
  unfold Ipn.JSON_stringify. intros E. apply (append_inv_head "{") in E.
  now apply json_members_inj.
Qed.
